(** * Provisioning scripts: a shallow embedding and its checked properties

    The repository holds three Python scripts that drive a cloud provider
    through boto3:

    - [boto3-iac-script.py]: network, security groups, IAM, launch template,
      load balancer, auto scaling group; writes [infrastructure_details.json];
    - [complete-deployment-script.py]: reads that file, configures further
      services, updates the file;
    - [lambda-backup-script.py]: the database backup function.

    The scripts are sequences of effects, so they are embedded in a monad of
    state, exceptions and process death.  The world holds what a script can
    observe or change: the remote API (an oracle answering every call from
    the history so far), the files, the module globals, and a trace of every
    effect in the order it happened. *)

From stdpp Require Import gmap strings list fin_maps pretty.
From Stdlib Require Import ZArith.

Set Warnings "-register-all".
Open Scope string_scope.
Open Scope list_scope.

(** ** Python values

    What [json.load] returns, what the boto3 clients take and give back, and
    what the scripts store in their dicts. *)

Inductive Json : Type :=
| JNull
| JBool (b : bool)
| JNum (n : Z)
| JStr (s : string)
| JList (l : list Json)
| JDict (d : gmap string Json).

(** A dict literal, keys in the order written. *)
Definition dict (kvs : list (string * Json)) : Json := JDict (list_to_map kvs).

(** ** Exceptions *)

Inductive Exn : Type :=
| ClientError (msg : string)        (* a boto3 call rejected by the remote *)
| WaiterError (msg : string)
| KeyError (key : string)
| IndexError
| TypeError
| AttributeError
| NameError (name : string)
| FileNotFoundError (path : string)
| JSONDecodeError
| PlainException (msg : string)     (* raise Exception("...") *)
| NoRegionError                     (* a client made without a region *)
| SystemExit (code : Z).

(** [except Exception] catches everything but [SystemExit]. *)
Definition is_Exception (e : Exn) : bool :=
  match e with SystemExit _ => false | _ => true end.

(** [str(e)] *)
Definition str (e : Exn) : string :=
  match e with
  | ClientError msg => msg
  | WaiterError msg => msg
  | KeyError key => "'" +:+ key +:+ "'"
  | IndexError => "list index out of range"
  | TypeError => "unsupported operand"
  | AttributeError => "object has no such attribute"
  | NameError name => "name '" +:+ name +:+ "' is not defined"
  | FileNotFoundError path =>
      "[Errno 2] No such file or directory: '" +:+ path +:+ "'"
  | JSONDecodeError => "Expecting value: line 1 column 1 (char 0)"
  | PlainException msg => msg
  | NoRegionError => "You must specify a region."
  | SystemExit _ => ""
  end.

(** ** Effects and the world *)

(** Keyword arguments of a client call, in the order written. *)
Definition Kwargs : Type := list (string * Json).

(** What the remote answers: an error message or a response. *)
Definition Answer : Type := string + Json.

Inductive Event : Type :=
| Print (parts : list Json)          (* print(f"..."): the pieces, in order *)
| Call (svc op : string) (kwargs : Kwargs) (answer : Answer)
| Sleep (seconds : Z)
| Enter (fn : string)                (* a def of the script is called *)
| Leave (fn : string) (value : Json) (* and returns this value *)
| Truncate (path : string)           (* open(path, 'w') *)
| Dump (path : string) (doc : Json)  (* json.dump(doc, f, indent=2) *)
| Close (path : string).             (* the with block ends *)

(** A file either holds the whole text of a JSON document, or is empty
    (just opened for writing), or holds a document being written: its text is
    in the buffer or partly on disk until the file is closed. *)
Inductive FileState : Type :=
| Complete (doc : Json)
| Truncated
| Writing (doc : Json).

(** A readiness waiter of the client library: the operation it probes with,
    the acceptors of the response, for the state waited for and for a state
    the resource cannot leave, and the default delay and attempt count. *)
Record WaiterModel : Type := {
  probe_op : string;
  target : Json -> bool;
  failed : Json -> bool;
  delay : Z;
  max_attempts : nat
}.

Record World : Type := {
  cloud : list Event -> string -> string -> Kwargs -> Answer;
  waiters : string -> string -> WaiterModel;
  entropy : nat -> string;           (* uuid4().hex, by draw *)
  draws : nat;
  files : gmap string FileState;
  globals : gmap string Json;
  trace : list Event;                (* oldest first *)
  kill_after : option nat            (* effects left before the process is
                                        killed; None: it is never killed *)
}.

Definition logs (evs : list Event) (w : World) : World :=
  {| cloud := cloud w; waiters := waiters w; entropy := entropy w;
     draws := draws w; files := files w; globals := globals w;
     trace := trace w ++ evs; kill_after := kill_after w |}.

Definition set_file (path : string) (st : FileState) (w : World) : World :=
  {| cloud := cloud w; waiters := waiters w; entropy := entropy w;
     draws := draws w; files := <[path := st]> (files w);
     globals := globals w; trace := trace w; kill_after := kill_after w |}.

Definition set_global (name : string) (v : Json) (w : World) : World :=
  {| cloud := cloud w; waiters := waiters w; entropy := entropy w;
     draws := draws w; files := files w;
     globals := <[name := v]> (globals w); trace := trace w;
     kill_after := kill_after w |}.

Definition drew (w : World) : World :=
  {| cloud := cloud w; waiters := waiters w; entropy := entropy w;
     draws := S (draws w); files := files w; globals := globals w;
     trace := trace w; kill_after := kill_after w |}.

Definition set_kill (k : option nat) (w : World) : World :=
  {| cloud := cloud w; waiters := waiters w; entropy := entropy w;
     draws := draws w; files := files w; globals := globals w;
     trace := trace w; kill_after := k |}.

(** One effect is about to happen: the process survives it or is killed. *)
Definition tick (w : World) : option World :=
  match kill_after w with
  | None => Some w
  | Some O => None
  | Some (S n) => Some (set_kill (Some n) w)
  end.

(** ** The monad *)

Inductive Result (A : Type) : Type :=
| Return (a : A)
| Raise (e : Exn)
| Killed.
Arguments Return {A} a.
Arguments Raise {A} e.
Arguments Killed {A}.

Definition M (A : Type) : Type := World -> Result A * World.

Definition ret {A} (a : A) : M A := fun w => (Return a, w).

Definition raise {A} (e : Exn) : M A := fun w => (Raise e, w).

Definition bind {A B} (m : M A) (k : A -> M B) : M B := fun w =>
  match m w with
  | (Return a, w1) => k a w1
  | (Raise e, w1) => (Raise e, w1)
  | (Killed, w1) => (Killed, w1)
  end.

Declare Scope py_scope.
Delimit Scope py_scope with py.
Notation "x <- m ;; k" := (bind m (fun x => k))
  (at level 100, m at next level, k at level 200, right associativity)
  : py_scope.
Notation "m ;; k" := (bind m (fun _ => k))
  (at level 100, k at level 200, right associativity) : py_scope.
Open Scope py_scope.

(** [try: m except <class> as e: h e], the class given by what it catches *)
Definition try_catch {A} (catches : Exn -> bool) (m : M A) (h : Exn -> M A)
    : M A := fun w =>
  match m w with
  | (Raise e, w1) => if catches e then h e w1 else (Raise e, w1)
  | other => other
  end.

Definition try_except {A} : M A -> (Exn -> M A) -> M A :=
  try_catch is_Exception.

Definition is_FileNotFoundError (e : Exn) : bool :=
  match e with FileNotFoundError _ => true | _ => false end.

(** An effect that only leaves an event. *)
Definition effect (ev : Event) : M unit := fun w =>
  match tick w with
  | None => (Killed, w)
  | Some w1 => (Return tt, logs [ev] w1)
  end.

Definition print (parts : list Json) : M unit := effect (Print parts).

Definition sleep (seconds : Z) : M unit := effect (Sleep seconds).

(** A boto3 client call: the remote answers from the history so far. *)
Definition call (svc op : string) (kwargs : Kwargs) : M Json := fun w =>
  match tick w with
  | None => (Killed, w)
  | Some w1 =>
      let a := cloud w (trace w) svc op kwargs in
      let w2 := logs [Call svc op kwargs a] w1 in
      match a with
      | inl msg => (Raise (ClientError msg), w2)
      | inr v => (Return v, w2)
      end
  end.

(** [uuid.uuid4().hex] *)
Definition uuid4_hex : M string := fun w =>
  (Return (entropy w (draws w)), drew w).

(** [str(uuid.uuid4())]: the 32 digits in groups of 8-4-4-4-12. *)
Definition uuid4_str : M string :=
  h <- uuid4_hex;;
  ret (String.substring 0 8 h +:+ "-" +:+ String.substring 8 4 h +:+ "-"
       +:+ String.substring 12 4 h +:+ "-" +:+ String.substring 16 4 h
       +:+ "-" +:+ String.substring 20 12 h).

(** A def of the script: the call and the return are traced. *)
Definition def (fn : string) (body : M Json) : M Json := fun w =>
  match body (logs [Enter fn] w) with
  | (Return v, w1) => (Return v, logs [Leave fn v] w1)
  | other => other
  end.

(** *** Subscripts and the like *)

Definition lift {A} (x : Exn + A) : M A :=
  match x with inl e => raise e | inr a => ret a end.

(** [j[key]] *)
Definition getitem (j : Json) (key : string) : Exn + Json :=
  match j with
  | JDict d => match d !! key with Some v => inr v | None => inl (KeyError key) end
  | _ => inl TypeError
  end.

(** [j[i]] *)
Definition getindex (j : Json) (i : nat) : Exn + Json :=
  match j with
  | JList l => match l !! i with Some v => inr v | None => inl IndexError end
  | JDict _ => inl (KeyError "0")
  | _ => inl TypeError
  end.

Definition idx (j : Json) (key : string) : M Json := lift (getitem j key).
Definition nth_ (j : Json) (i : nat) : M Json := lift (getindex j i).

(** A module global is read: [NameError] when it was never assigned. *)
Definition read_global (name : string) : M Json := fun w =>
  match globals w !! name with
  | Some v => (Return v, w)
  | None => (Raise (NameError name), w)
  end.

Definition write_global (name : string) (v : Json) : M unit := fun w =>
  (Return tt, set_global name v w).

(** [for x in xs: body x] *)
Fixpoint for_each {A} (xs : list A) (body : A -> M unit) : M unit :=
  match xs with
  | [] => ret tt
  | x :: rest => body x;; for_each rest body
  end.

(** *** Files *)

(** [with open(path, 'w') as f: json.dump(doc, f, indent=2)]: the file is
    truncated in place when it is opened, the text is written into it, and
    it is whole once the block has closed it.  The file system is taken to
    accept the three steps: an [OSError] of [open] or of a write (no
    permission, disk full) is not modelled, so no property below speaks
    of a write that raises; what can cut a write short here is the end of
    the process. *)
Definition open_w (path : string) : M unit := fun w =>
  match tick w with
  | None => (Killed, w)
  | Some w1 => (Return tt, logs [Truncate path] (set_file path Truncated w1))
  end.

Definition json_dump (doc : Json) (path : string) : M unit := fun w =>
  match tick w with
  | None => (Killed, w)
  | Some w1 => (Return tt, logs [Dump path doc] (set_file path (Writing doc) w1))
  end.

Definition close (path : string) : M unit := fun w =>
  match tick w with
  | None => (Killed, w)
  | Some w1 =>
      let w2 := match files w1 !! path with
                | Some (Writing doc) => set_file path (Complete doc) w1
                | _ => w1
                end in
      (Return tt, logs [Close path] w2)
  end.

Definition write_json (path : string) (doc : Json) : M unit :=
  open_w path;; json_dump doc path;; close path.

(** [with open(path, 'r') as f: json.load(f)] *)
Definition read_json (path : string) : M Json := fun w =>
  match files w !! path with
  | None => (Raise (FileNotFoundError path), w)
  | Some (Complete doc) => (Return doc, w)
  | Some _ => (Raise JSONDecodeError, w)
  end.

(** [boto3.client(service)] with no [region_name]: the session has to find
    a region in its configuration, [region] here, and raises when it has
    none. *)
Definition boto3_client (region : option string) (service : string)
    : M unit :=
  match region with
  | Some _ => ret tt
  | None => raise NoRegionError
  end.

(** [for x in j]: a list gives its items, a dict its keys, a str its
    characters; anything else is not iterable. *)
Fixpoint chars (s : string) : list Json :=
  match s with
  | EmptyString => []
  | String c rest => JStr (String c EmptyString) :: chars rest
  end.

Definition iterate (j : Json) : Exn + list Json :=
  match j with
  | JList l => inr l
  | JDict d => inr (JStr <$> (map_to_list d).*1)
  | JStr s => inr (chars s)
  | _ => inl TypeError
  end.

(** [[f(x) for x in xs]] with a subscript for [f] *)
Fixpoint each_item (xs : list Json) (key : string) : Exn + list Json :=
  match xs with
  | [] => inr []
  | x :: rest =>
      match getitem x key with
      | inl e => inl e
      | inr v => match each_item rest key with
                 | inl e => inl e
                 | inr vs => inr (v :: vs)
                 end
      end
  end.

(** [sep.join(j)]: every item has to be a str. *)
Fixpoint join_strs (sep : string) (xs : list Json) : Exn + string :=
  match xs with
  | [] => inr ""
  | [JStr s] => inr s
  | JStr s :: rest =>
      match join_strs sep rest with
      | inl e => inl e
      | inr t => inr (s +:+ sep +:+ t)
      end
  | _ => inl TypeError
  end.

Definition join (sep : string) (j : Json) : Exn + string :=
  match iterate j with
  | inl e => inl e
  | inr xs => join_strs sep xs
  end.

(** [for x in xs: s = body x s] for a loop that updates local variables. *)
Fixpoint for_fold {A S} (xs : list A) (s : S) (body : A -> S -> M S) : M S :=
  match xs with
  | [] => ret s
  | x :: rest => s1 <- body x s;; for_fold rest s1 body
  end.

(** ** The readiness waiter *)

Inductive WaitOutcome : Type :=
| Ready
| TimedOut
| RemoteError (reason : string).

(** Modelled from the spec: the readiness waiter.  The scripts obtain it from
    the client library ([get_waiter(...).wait(...)]) and do not define it;
    the spec gives its contract: [wait_until(check_fn, target_predicate,
    interval, deadline) -> Ready | TimedOut | RemoteError], one status probe
    per attempt, a constant sleep between probes, [TimedOut] when the
    attempts are used up, [RemoteError] when the probe itself fails. *)
Fixpoint wait_until (check_fn : M Json) (target_predicate : Json -> bool)
    (interval : Z) (attempts : nat) : M WaitOutcome :=
  match attempts with
  | O => ret TimedOut
  | S rest =>
      fun w =>
        match check_fn w with
        | (Return v, w1) =>
            if target_predicate v then (Return Ready, w1)
            else match rest with
                 | O => (Return TimedOut, w1)
                 | S _ =>
                     (sleep interval;;
                      wait_until check_fn target_predicate interval rest) w1
                 end
        | (Raise e, w1) => (Return (RemoteError (str e)), w1)
        | (Killed, w1) => (Killed, w1)
        end
  end.

(** [WaiterConfig={'Delay': .., 'MaxAttempts': ..}], both optional. *)
Record WaiterConfig : Type := {
  Delay : option Z;
  MaxAttempts : option nat
}.

Definition default_config : WaiterConfig :=
  {| Delay := None; MaxAttempts := None |}.

(** Modelled from the spec: one status probe of a waiter.  A response the
    failure acceptor takes is the spec's remote that reports an error
    state: the probe fails. *)
Definition probe (svc : string) (model : WaiterModel) (kwargs : Kwargs)
    : M Json :=
  response <- call svc (probe_op model) kwargs;;
  if failed model response
  then raise (WaiterError "Waiter encountered a terminal failure state")
  else ret response.

(** Modelled from the spec: [client.get_waiter(name).wait(...,
    WaiterConfig=cfg)].  The wait is the client library's, not code of this
    repository: it is taken as the spec's readiness waiter over the probe
    of the library's waiter model, with the delay and the attempts of the
    configuration; it returns when the resource is ready and raises the
    library's [WaiterError] otherwise. *)
Definition waiter_wait (svc name : string) (kwargs : Kwargs)
    (cfg : WaiterConfig) : M unit := fun w =>
  let model := waiters w svc name in
  (o <- wait_until (probe svc model kwargs) (target model)
         (default (delay model) (Delay cfg))
         (default (max_attempts model) (MaxAttempts cfg));;
   match o with
   | Ready => ret tt
   | TimedOut => raise (WaiterError "Max attempts exceeded")
   | RemoteError reason => raise (WaiterError reason)
   end) w.

(** The ledger file both pipeline scripts share. *)
Definition ledger_file : string := "infrastructure_details.json".

(** ** boto3-iac-script.py

    Client calls are written with the keyword arguments that carry names
    and identifiers; the constant tag lists, descriptions and the user data
    script are left out of the argument lists. *)

Module Iac.

Definition create_vpc : M Json := def "create_vpc" (
  vpc_response <- call "ec2" "create_vpc" [("CidrBlock", JStr "10.0.0.0/16")];;
  vpc <- idx vpc_response "Vpc";;
  vpc_id <- idx vpc "VpcId";;
  print [JStr "VPC created: "; vpc_id];;
  waiter_wait "ec2" "vpc_available" [("VpcIds", JList [vpc_id])]
    default_config;;
  call "ec2" "modify_vpc_attribute"
    [("VpcId", vpc_id); ("EnableDnsHostnames", dict [("Value", JBool true)])];;
  igw_response <- call "ec2" "create_internet_gateway" [];;
  igw <- idx igw_response "InternetGateway";;
  igw_id <- idx igw "InternetGatewayId";;
  print [JStr "Internet Gateway created: "; igw_id];;
  call "ec2" "attach_internet_gateway"
    [("InternetGatewayId", igw_id); ("VpcId", vpc_id)];;
  print [JStr "Internet Gateway "; igw_id; JStr " attached to VPC "; vpc_id];;
  az_response <- call "ec2" "describe_availability_zones"
    [("Filters", JList [dict [("Name", JStr "region-name");
                              ("Values", JList [JStr "us-west-1"])]])];;
  zones <- idx az_response "AvailabilityZones";;
  zone_items <- lift (iterate zones);;
  available_azs <- lift (each_item zone_items "ZoneName");;
  if decide (length available_azs < 2)
  then raise (PlainException "Need at least 2 availability zones")
  else
  subnets <- for_fold (imap pair (take 2 available_azs))
    (([], []) : list Json * list Json)
    (fun '(i, az) '(public, private) =>
       public_subnet <- call "ec2" "create_subnet"
         [("VpcId", vpc_id);
          ("CidrBlock", JStr ("10.0." +:+ pretty (i * 2) +:+ ".0/24"));
          ("AvailabilityZone", az)];;
       sn <- idx public_subnet "Subnet";;
       public_subnet_id <- idx sn "SubnetId";;
       print [JStr "Public subnet created: "; public_subnet_id;
              JStr " in "; az];;
       call "ec2" "modify_subnet_attribute"
         [("SubnetId", public_subnet_id);
          ("MapPublicIpOnLaunch", dict [("Value", JBool true)])];;
       private_subnet <- call "ec2" "create_subnet"
         [("VpcId", vpc_id);
          ("CidrBlock", JStr ("10.0." +:+ pretty (i * 2 + 1) +:+ ".0/24"));
          ("AvailabilityZone", az)];;
       sn' <- idx private_subnet "Subnet";;
       private_subnet_id <- idx sn' "SubnetId";;
       print [JStr "Private subnet created: "; private_subnet_id;
              JStr " in "; az];;
       ret (public ++ [public_subnet_id], private ++ [private_subnet_id]));;
  let '(public, private) := subnets in
  public_rt <- call "ec2" "create_route_table" [("VpcId", vpc_id)];;
  rt <- idx public_rt "RouteTable";;
  public_rt_id <- idx rt "RouteTableId";;
  print [JStr "Public route table created: "; public_rt_id];;
  call "ec2" "create_route"
    [("RouteTableId", public_rt_id);
     ("DestinationCidrBlock", JStr "0.0.0.0/0"); ("GatewayId", igw_id)];;
  for_each public (fun subnet_id =>
    call "ec2" "associate_route_table"
      [("RouteTableId", public_rt_id); ("SubnetId", subnet_id)];;
    print [JStr "Associated public subnet "; subnet_id;
           JStr " with route table "; public_rt_id]);;
  private_rt <- call "ec2" "create_route_table" [("VpcId", vpc_id)];;
  rt' <- idx private_rt "RouteTable";;
  private_rt_id <- idx rt' "RouteTableId";;
  print [JStr "Private route table created: "; private_rt_id];;
  for_each private (fun subnet_id =>
    call "ec2" "associate_route_table"
      [("RouteTableId", private_rt_id); ("SubnetId", subnet_id)];;
    print [JStr "Associated private subnet "; subnet_id;
           JStr " with route table "; private_rt_id]);;
  eip <- call "ec2" "allocate_address" [("Domain", JStr "vpc")];;
  allocation_id <- idx eip "AllocationId";;
  first_public <- nth_ (JList public) 0;;
  nat_gateway <- call "ec2" "create_nat_gateway"
    [("AllocationId", allocation_id); ("SubnetId", first_public)];;
  ng <- idx nat_gateway "NatGateway";;
  nat_gateway_id <- idx ng "NatGatewayId";;
  print [JStr "NAT Gateway created: "; nat_gateway_id];;
  print [JStr "Waiting for NAT Gateway to be available..."];;
  waiter_wait "ec2" "nat_gateway_available"
    [("NatGatewayIds", JList [nat_gateway_id])] default_config;;
  call "ec2" "create_route"
    [("RouteTableId", private_rt_id);
     ("DestinationCidrBlock", JStr "0.0.0.0/0");
     ("NatGatewayId", nat_gateway_id)];;
  print [JStr "Added route to NAT Gateway for private route table"];;
  ret (dict [("vpc_id", vpc_id); ("igw_id", igw_id);
             ("subnets", dict [("public", JList public);
                               ("private", JList private)]);
             ("public_rt_id", public_rt_id);
             ("private_rt_id", private_rt_id);
             ("nat_gateway_id", nat_gateway_id)])).

Definition tcp (from_port to_port : Z) (source : string * Json) : Json :=
  dict [("IpProtocol", JStr "tcp"); ("FromPort", JNum from_port);
        ("ToPort", JNum to_port); source].

Definition anywhere : string * Json :=
  ("IpRanges", JList [dict [("CidrIp", JStr "0.0.0.0/0")]]).

Definition create_security_groups (vpc_id : Json) : M Json :=
  def "create_security_groups" (
  alb_sg <- call "ec2" "create_security_group"
    [("GroupName", JStr "ProjectOrc-ALB-SG"); ("VpcId", vpc_id)];;
  alb_sg_id <- idx alb_sg "GroupId";;
  print [JStr "ALB Security Group created: "; alb_sg_id];;
  call "ec2" "authorize_security_group_ingress"
    [("GroupId", alb_sg_id);
     ("IpPermissions", JList [tcp 80 80 anywhere; tcp 443 443 anywhere])];;
  backend_sg <- call "ec2" "create_security_group"
    [("GroupName", JStr "ProjectOrc-Backend-SG"); ("VpcId", vpc_id)];;
  backend_sg_id <- idx backend_sg "GroupId";;
  print [JStr "Backend Security Group created: "; backend_sg_id];;
  let from_alb :=
    ("UserIdGroupPairs", JList [dict [("GroupId", alb_sg_id)]]) in
  call "ec2" "authorize_security_group_ingress"
    [("GroupId", backend_sg_id);
     ("IpPermissions",
      JList [tcp 3001 3001 from_alb; tcp 3002 3002 from_alb])];;
  call "ec2" "authorize_security_group_ingress"
    [("GroupId", backend_sg_id);
     ("IpPermissions",
      JList [tcp 22 22
               ("IpRanges", JList [dict [("CidrIp", JStr "0.0.0.0/0");
                                         ("Description", JStr "SSH access")]])])];;
  ret (dict [("alb_sg_id", alb_sg_id); ("backend_sg_id", backend_sg_id)])).

Definition target_group (name : string) (port : Z) (vpc_id : Json) : Kwargs :=
  [("Name", JStr name); ("Protocol", JStr "HTTP"); ("Port", JNum port);
   ("VpcId", vpc_id); ("HealthCheckProtocol", JStr "HTTP");
   ("HealthCheckPath", JStr "/health"); ("HealthCheckEnabled", JBool true);
   ("HealthCheckIntervalSeconds", JNum 30);
   ("HealthCheckTimeoutSeconds", JNum 5); ("HealthyThresholdCount", JNum 2);
   ("UnhealthyThresholdCount", JNum 2); ("TargetType", JStr "instance")].

Definition forward (target_group_arn : Json) : Json :=
  JList [dict [("Type", JStr "forward"); ("TargetGroupArn", target_group_arn)]].

(** [vpc_id] is not a parameter here: the body reads the module global. *)
Definition create_load_balancer (subnets alb_sg_id : Json) : M Json :=
  def "create_load_balancer" (
  public <- idx subnets "public";;
  load_balancer <- call "elbv2" "create_load_balancer"
    [("Name", JStr "ProjectOrc-ALB"); ("Subnets", public);
     ("SecurityGroups", JList [alb_sg_id]);
     ("Scheme", JStr "internet-facing"); ("Type", JStr "application");
     ("IpAddressType", JStr "ipv4")];;
  lbs <- idx load_balancer "LoadBalancers";;
  lb0 <- nth_ lbs 0;;
  alb_arn <- idx lb0 "LoadBalancerArn";;
  lbs' <- idx load_balancer "LoadBalancers";;
  lb0' <- nth_ lbs' 0;;
  alb_dns <- idx lb0' "DNSName";;
  print [JStr "Application Load Balancer created: "; alb_arn];;
  print [JStr "ALB DNS Name: "; alb_dns];;
  vpc_id <- read_global "vpc_id";;
  hello_target_group <- call "elbv2" "create_target_group"
    (target_group "ProjectOrc-Hello-TG" 3001 vpc_id);;
  htgs <- idx hello_target_group "TargetGroups";;
  htg0 <- nth_ htgs 0;;
  hello_tg_arn <- idx htg0 "TargetGroupArn";;
  print [JStr "Hello Service Target Group created: "; hello_tg_arn];;
  vpc_id' <- read_global "vpc_id";;
  profile_target_group <- call "elbv2" "create_target_group"
    (target_group "ProjectOrc-Profile-TG" 3002 vpc_id');;
  ptgs <- idx profile_target_group "TargetGroups";;
  ptg0 <- nth_ ptgs 0;;
  profile_tg_arn <- idx ptg0 "TargetGroupArn";;
  print [JStr "Profile Service Target Group created: "; profile_tg_arn];;
  hello_listener <- call "elbv2" "create_listener"
    [("LoadBalancerArn", alb_arn); ("Protocol", JStr "HTTP");
     ("Port", JNum 80); ("DefaultActions", forward hello_tg_arn)];;
  print [JStr "Hello Service Listener created"];;
  listeners <- idx hello_listener "Listeners";;
  listener0 <- nth_ listeners 0;;
  listener_arn <- idx listener0 "ListenerArn";;
  call "elbv2" "create_rule"
    [("ListenerArn", listener_arn);
     ("Conditions", JList [dict [("Field", JStr "path-pattern");
                                 ("Values", JList [JStr "/profile*"])]]);
     ("Priority", JNum 10); ("Actions", forward profile_tg_arn)];;
  print [JStr "Profile Service Listener Rule created"];;
  ret (dict [("alb_arn", alb_arn); ("alb_dns", alb_dns);
             ("hello_tg_arn", hello_tg_arn);
             ("profile_tg_arn", profile_tg_arn)])).
Definition assume_role_policy (service : string) : Json :=
  dict [("Version", JStr "2012-10-17");
        ("Statement",
         JList [dict [("Effect", JStr "Allow");
                      ("Principal", dict [("Service", JStr service)]);
                      ("Action", JStr "sts:AssumeRole")]])].

Definition create_iam_role : M Json := def "create_iam_role" (
  role <- call "iam" "create_role"
    [("RoleName", JStr "ProjectOrc-EC2-ECR-Role");
     ("AssumeRolePolicyDocument", assume_role_policy "ec2.amazonaws.com")];;
  r <- idx role "Role";;
  role_name <- idx r "RoleName";;
  r' <- idx role "Role";;
  role_arn <- idx r' "Arn";;
  print [JStr "IAM Role created: "; role_name; JStr " - "; role_arn];;
  call "iam" "attach_role_policy"
    [("RoleName", role_name);
     ("PolicyArn", JStr "arn:aws:iam::aws:policy/AmazonECR-FullAccess")];;
  print [JStr "Attached ECR policy to role "; role_name];;
  instance_profile <- call "iam" "create_instance_profile"
    [("InstanceProfileName", JStr "ProjectOrc-EC2-ECR-Profile")];;
  call "iam" "add_role_to_instance_profile"
    [("InstanceProfileName", JStr "ProjectOrc-EC2-ECR-Profile");
     ("RoleName", role_name)];;
  ip <- idx instance_profile "InstanceProfile";;
  instance_profile_arn <- idx ip "Arn";;
  print [JStr "Instance Profile created: "; instance_profile_arn];;
  print [JStr "Waiting for the instance profile to be ready..."];;
  sleep 15;;
  ret (dict [("role_name", role_name); ("role_arn", role_arn);
             ("instance_profile_name", JStr "ProjectOrc-EC2-ECR-Profile");
             ("instance_profile_arn", instance_profile_arn)])).

Definition create_launch_template (backend_sg_id instance_profile_name : Json)
    : M Json := def "create_launch_template" (
  launch_template <- call "ec2" "create_launch_template"
    [("LaunchTemplateName", JStr "ProjectOrc-BackendLT");
     ("VersionDescription", JStr "Initial version");
     ("LaunchTemplateData",
      dict [("ImageId", JStr "ami-0c110e13b02dea71a");
            ("InstanceType", JStr "t2.micro");
            ("SecurityGroupIds", JList [backend_sg_id]);
            ("IamInstanceProfile", dict [("Name", instance_profile_name)])])];;
  lt <- idx launch_template "LaunchTemplate";;
  lt_id <- idx lt "LaunchTemplateId";;
  lt' <- idx launch_template "LaunchTemplate";;
  lt_version <- idx lt' "LatestVersionNumber";;
  print [JStr "Launch Template created: "; lt_id; JStr ", version: ";
         lt_version];;
  ret (dict [("lt_id", lt_id); ("lt_version", lt_version)])).

Definition cpu_tracking (policy_name asg_name : string) : Kwargs :=
  [("AutoScalingGroupName", JStr asg_name); ("PolicyName", JStr policy_name);
   ("PolicyType", JStr "TargetTrackingScaling");
   ("TargetTrackingConfiguration",
    dict [("PredefinedMetricSpecification",
           dict [("PredefinedMetricType", JStr "ASGAverageCPUUtilization")]);
          ("TargetValue", JNum 70)])].

Definition create_auto_scaling_group (lt_id subnets target_group_arns : Json)
    : M Json := def "create_auto_scaling_group" (
  private <- idx subnets "private";;
  zone_identifier <- lift (join "," private);;
  call "autoscaling" "create_auto_scaling_group"
    [("AutoScalingGroupName", JStr "ProjectOrc-Backend-ASG");
     ("LaunchTemplate",
      dict [("LaunchTemplateId", lt_id); ("Version", JStr "$Latest")]);
     ("MinSize", JNum 2); ("MaxSize", JNum 5); ("DesiredCapacity", JNum 2);
     ("VPCZoneIdentifier", JStr zone_identifier);
     ("TargetGroupARNs", target_group_arns);
     ("HealthCheckType", JStr "ELB"); ("HealthCheckGracePeriod", JNum 300)];;
  print [JStr "Auto Scaling Group created: ProjectOrc-Backend-ASG"];;
  call "autoscaling" "put_scaling_policy"
    (cpu_tracking "ProjectOrc-ScaleUp" "ProjectOrc-Backend-ASG");;
  print [JStr "Scale up policy created"];;
  ret (dict [("asg_name", JStr "ProjectOrc-Backend-ASG")])).

Definition save_infrastructure_details (infrastructure : Json) : M Json :=
  def "save_infrastructure_details" (
  write_json ledger_file infrastructure;;
  print [JStr "Infrastructure details saved to infrastructure_details.json"];;
  ret JNull).

(** The block under [if __name__ == "__main__"]; its assignments are to
    module globals. *)
Definition main : M unit :=
  print [JStr "Starting infrastructure deployment..."];;
  vpc_info <- create_vpc;;
  vpc_id <- idx vpc_info "vpc_id";;
  write_global "vpc_id" vpc_id;;
  vpc_id <- read_global "vpc_id";;
  sg_info <- create_security_groups vpc_id;;
  iam_info <- create_iam_role;;
  backend_sg_id <- idx sg_info "backend_sg_id";;
  instance_profile_name <- idx iam_info "instance_profile_name";;
  lt_info <- create_launch_template backend_sg_id instance_profile_name;;
  subnets <- idx vpc_info "subnets";;
  alb_sg_id <- idx sg_info "alb_sg_id";;
  lb_info <- create_load_balancer subnets alb_sg_id;;
  lt_id <- idx lt_info "lt_id";;
  subnets' <- idx vpc_info "subnets";;
  hello_tg_arn <- idx lb_info "hello_tg_arn";;
  profile_tg_arn <- idx lb_info "profile_tg_arn";;
  asg_info <- create_auto_scaling_group lt_id subnets'
                (JList [hello_tg_arn; profile_tg_arn]);;
  let infrastructure :=
    dict [("vpc", vpc_info); ("security_groups", sg_info);
          ("iam", iam_info); ("launch_template", lt_info);
          ("load_balancer", lb_info); ("auto_scaling_group", asg_info)] in
  write_global "infrastructure" infrastructure;;
  save_infrastructure_details infrastructure;;
  print [JStr "Infrastructure deployment completed successfully!"].

(** The stage functions in the order [main] calls them, each with the
    ledger key its output is stored under. *)
Definition stages : list (string * string) :=
  [("create_vpc", "vpc");
   ("create_security_groups", "security_groups");
   ("create_iam_role", "iam");
   ("create_launch_template", "launch_template");
   ("create_load_balancer", "load_balancer");
   ("create_auto_scaling_group", "auto_scaling_group")].

End Iac.

(** ** complete-deployment-script.py *)

Module Deploy.

(** The module-level block that loads the ledger before any def runs. *)
Definition load : M unit :=
  try_catch is_FileNotFoundError
    (infrastructure <- read_json ledger_file;;
     write_global "infrastructure" infrastructure;;
     print [JStr "Loaded existing infrastructure details"];;
     infrastructure <- read_global "infrastructure";;
     vpc <- idx infrastructure "vpc";;
     vpc_id <- idx vpc "vpc_id";;
     write_global "vpc_id" vpc_id)
    (fun _ =>
       print [JStr "No existing infrastructure details found, please run the VPC setup script first"];;
       raise (SystemExit 1)).

(** [infrastructure[category][field]], the global read each time. *)
Definition ledger_get (category field : string) : M Json :=
  infrastructure <- read_global "infrastructure";;
  record <- idx infrastructure category;;
  idx record field.

Definition deploy_backend_services : M Json :=
  def "deploy_backend_services" (
  print [JStr "Deploying backend services..."];;
  asg_name <- ledger_get "auto_scaling_group" "asg_name";;
  call "autoscaling" "put_lifecycle_hook"
    [("AutoScalingGroupName", asg_name);
     ("LifecycleHookName", JStr "terminate-backend-hook");
     ("LifecycleTransition", JStr "autoscaling:EC2_INSTANCE_TERMINATING");
     ("HeartbeatTimeout", JNum 300)];;
  asg_name <- ledger_get "auto_scaling_group" "asg_name";;
  call "autoscaling" "put_scheduled_update_group_action"
    [("AutoScalingGroupName", asg_name);
     ("ScheduledActionName", JStr "scale-up-morning");
     ("DesiredCapacity", JNum 4);
     ("StartTime", JStr "2025-06-01 08:00:00");
     ("Recurrence", JStr "0 8 * * MON-FRI")];;
  asg_name <- ledger_get "auto_scaling_group" "asg_name";;
  call "autoscaling" "put_scheduled_update_group_action"
    [("AutoScalingGroupName", asg_name);
     ("ScheduledActionName", JStr "scale-down-evening");
     ("DesiredCapacity", JNum 2);
     ("StartTime", JStr "2025-06-01 20:00:00");
     ("Recurrence", JStr "0 20 * * MON-FRI")];;
  print [JStr "Backend services deployment configured"];;
  ret (dict [("status",
              JStr "Backend ASG configured with lifecycle hooks and scheduled scaling")])).

Definition set_up_load_balancer : M Json := def "set_up_load_balancer" (
  alb_arn <- ledger_get "load_balancer" "alb_arn";;
  call "elbv2" "modify_load_balancer_attributes"
    [("LoadBalancerArn", alb_arn);
     ("Attributes",
      JList [dict [("Key", JStr "load_balancing.cross_zone.enabled");
                   ("Value", JStr "true")]])];;
  print [JStr "Load balancer configured with additional settings"];;
  alb_dns <- ledger_get "load_balancer" "alb_dns";;
  ret (dict [("alb_arn", alb_arn); ("alb_dns", alb_dns)])).

(** [j == s] for a str [s] *)
Definition is_str (j : Json) (s : string) : bool :=
  match j with JStr t => bool_decide (t = s) | _ => false end.

(** The loop over the hosted zones: the first zone named like the domain,
    with or without the final dot. *)
Fixpoint find_zone (zones : list Json) (domain_name : string)
    : Exn + option Json :=
  match zones with
  | [] => inr None
  | zone :: rest =>
      match getitem zone "Name" with
      | inl e => inl e
      | inr name =>
          if is_str name (domain_name +:+ ".") || is_str name domain_name
          then inr (Some zone)
          else find_zone rest domain_name
      end
  end.

(** [s.split('/')[-1]] *)
Fixpoint last_segment_from (s seen : string) : string :=
  match s with
  | EmptyString => seen
  | String c rest =>
      if bool_decide (String c "" = "/") then last_segment_from rest ""
      else last_segment_from rest (seen +:+ String c "")
  end.

Definition last_segment (j : Json) : Exn + string :=
  match j with
  | JStr s => inr (last_segment_from s "")
  | _ => inl AttributeError
  end.

(** [j.get(key, fallback)] *)
Definition get_or (j : Json) (key : string) (fallback : Json) : Exn + Json :=
  match j with
  | JDict d => inr (default fallback (d !! key))
  | _ => inl AttributeError
  end.

Definition alias_record (name : string) (alb_dns : Json) : Json :=
  dict [("Action", JStr "UPSERT");
        ("ResourceRecordSet",
         dict [("Name", JStr name); ("Type", JStr "A");
               ("AliasTarget",
                dict [("HostedZoneId", JStr "Z368ELLRRE2KJ0");
                      ("DNSName", alb_dns);
                      ("EvaluateTargetHealth", JBool true)])])].

(** The body of the [try] in [configure_dns]. *)
Definition configure_dns_try (domain_name : string) (alb_dns : Json)
    : M Json :=
  response <- call "route53" "list_hosted_zones_by_name"
    [("DNSName", JStr domain_name)];;
  hosted_zones <- idx response "HostedZones";;
  zones <- lift (iterate hosted_zones);;
  found <- lift (find_zone zones domain_name);;
  hosted_zone <-
    match found with
    | Some zone => ret zone
    | None =>
        reference <- uuid4_str;;
        created <- call "route53" "create_hosted_zone"
          [("Name", JStr domain_name); ("CallerReference", JStr reference);
           ("HostedZoneConfig",
            dict [("Comment", JStr ("Hosted zone for " +:+ domain_name));
                  ("PrivateZone", JBool false)])];;
        zone <- idx created "HostedZone";;
        print [JStr "Created new hosted zone for "; JStr domain_name];;
        ret zone
    end;;
  zone_id <- idx hosted_zone "Id";;
  hosted_zone_id <- lift (last_segment zone_id);;
  call "route53" "change_resource_record_sets"
    [("HostedZoneId", JStr hosted_zone_id);
     ("ChangeBatch",
      dict [("Changes",
             JList [alias_record domain_name alb_dns;
                    alias_record ("www." +:+ domain_name) alb_dns])])];;
  print [JStr "DNS records created/updated for "; JStr domain_name;
         JStr " and www."; JStr domain_name];;
  delegation_set <- lift (get_or hosted_zone "DelegationSet" (dict []));;
  nameservers <- lift (get_or delegation_set "NameServers" (JList []));;
  ret (dict [("domain_name", JStr domain_name);
             ("hosted_zone_id", JStr hosted_zone_id);
             ("nameservers", nameservers)]).

Definition configure_dns (domain_name : string) (alb_dns : Json) : M Json :=
  def "configure_dns" (
  print [JStr "Configuring DNS for "; JStr domain_name;
         JStr " pointing to "; alb_dns; JStr "..."];;
  try_except (configure_dns_try domain_name alb_dns)
    (fun e =>
       print [JStr "Error configuring DNS: "; JStr (str e)];;
       ret (dict [("error", JStr (str e))]))).

Definition as_str (j : Json) : Exn + string :=
  match j with JStr s => inr s | _ => inl TypeError end.

Definition deploy_frontend : M Json := def "deploy_frontend" (
  print [JStr "Deploying frontend service..."];;
  vpc_id <- read_global "vpc_id";;
  frontend_sg <- call "ec2" "create_security_group"
    [("GroupName", JStr "ProjectOrc-Frontend-SG"); ("VpcId", vpc_id)];;
  frontend_sg_id <- idx frontend_sg "GroupId";;
  call "ec2" "authorize_security_group_ingress"
    [("GroupId", frontend_sg_id);
     ("IpPermissions",
      JList [Iac.tcp 80 80 Iac.anywhere; Iac.tcp 443 443 Iac.anywhere])];;
  alb_dns <- ledger_get "load_balancer" "alb_dns";;
  backend_url <- lift (as_str alb_dns);;
  instance_profile_name <- ledger_get "iam" "instance_profile_name";;
  frontend_lt <- call "ec2" "create_launch_template"
    [("LaunchTemplateName", JStr "ProjectOrc-FrontendLT");
     ("VersionDescription", JStr "Initial version");
     ("LaunchTemplateData",
      dict [("ImageId", JStr "ami-0c110e13b02dea71a");
            ("InstanceType", JStr "t2.micro");
            ("SecurityGroupIds", JList [frontend_sg_id]);
            ("IamInstanceProfile", dict [("Name", instance_profile_name)]);
            ("UserData", JStr ("BACKEND_URL=http://" +:+ backend_url))])];;
  lt <- idx frontend_lt "LaunchTemplate";;
  frontend_lt_id <- idx lt "LaunchTemplateId";;
  infrastructure <- read_global "infrastructure";;
  vpc <- idx infrastructure "vpc";;
  subnets <- idx vpc "subnets";;
  public <- idx subnets "public";;
  zone_identifier <- lift (join "," public);;
  call "autoscaling" "create_auto_scaling_group"
    [("AutoScalingGroupName", JStr "ProjectOrc-Frontend-ASG");
     ("LaunchTemplate",
      dict [("LaunchTemplateId", frontend_lt_id);
            ("Version", JStr "$Latest")]);
     ("MinSize", JNum 2); ("MaxSize", JNum 4); ("DesiredCapacity", JNum 2);
     ("VPCZoneIdentifier", JStr zone_identifier)];;
  call "autoscaling" "put_scaling_policy"
    (Iac.cpu_tracking "ProjectOrc-Frontend-ScaleUp" "ProjectOrc-Frontend-ASG");;
  print [JStr "Frontend service deployed with auto scaling"];;
  ret (dict [("frontend_sg_id", frontend_sg_id);
             ("frontend_lt_id", frontend_lt_id);
             ("frontend_asg_name", JStr "ProjectOrc-Frontend-ASG")])).

(** The backup set-up is written out twice in the repository, here and in
    lambda-backup-script.py; the three blocks the two copies share are
    named once.  They are blocks of a def, not defs: nothing marks their
    start or end in the trace.

    First the body of the [try]: the bucket and its lifecycle rule. *)
Definition create_backup_bucket (bucket_name : string) : M unit :=
  call "s3" "create_bucket"
    [("Bucket", JStr bucket_name);
     ("CreateBucketConfiguration",
      dict [("LocationConstraint", JStr "us-west-1")])];;
  call "s3" "put_bucket_lifecycle_configuration"
    [("Bucket", JStr bucket_name);
     ("LifecycleConfiguration",
      dict [("Rules",
             JList [dict [("ID", JStr "ExpireOldBackups");
                          ("Status", JStr "Enabled");
                          ("Expiration", dict [("Days", JNum 30)])]])])];;
  print [JStr "Created S3 bucket: "; JStr bucket_name].

(** The role for the function, with its three managed policies. *)
Definition create_lambda_role (role_name : string) : M (Json * Json) :=
  lambda_role <- call "iam" "create_role"
    [("RoleName", JStr role_name);
     ("AssumeRolePolicyDocument",
      Iac.assume_role_policy "lambda.amazonaws.com")];;
  r <- idx lambda_role "Role";;
  lambda_role_name <- idx r "RoleName";;
  r' <- idx lambda_role "Role";;
  lambda_role_arn <- idx r' "Arn";;
  call "iam" "attach_role_policy"
    [("RoleName", lambda_role_name);
     ("PolicyArn", JStr "arn:aws:iam::aws:policy/AmazonS3FullAccess")];;
  call "iam" "attach_role_policy"
    [("RoleName", lambda_role_name);
     ("PolicyArn", JStr "arn:aws:iam::aws:policy/AmazonRDSFullAccess")];;
  call "iam" "attach_role_policy"
    [("RoleName", lambda_role_name);
     ("PolicyArn",
      JStr "arn:aws:iam::aws:policy/service-role/AWSLambdaBasicExecutionRole")];;
  print [JStr "Created IAM role for Lambda: "; lambda_role_name];;
  print [JStr "Waiting for IAM role to propagate..."];;
  sleep 15;;
  ret (lambda_role_name, lambda_role_arn).

(** A schedule rule that invokes the backup function. *)
Definition schedule_backup (rule schedule statement target_id : string)
    (lambda_function_arn : Json) (input : list (string * Json)) : M unit :=
  rule_response <- call "events" "put_rule"
    [("Name", JStr rule); ("ScheduleExpression", JStr schedule);
     ("State", JStr "ENABLED")];;
  rule_arn <- idx rule_response "RuleArn";;
  call "lambda" "add_permission"
    [("FunctionName", JStr "ProjectOrc-DB-Backup");
     ("StatementId", JStr statement);
     ("Action", JStr "lambda:InvokeFunction");
     ("Principal", JStr "events.amazonaws.com"); ("SourceArn", rule_arn)];;
  call "events" "put_targets"
    [("Rule", JStr rule);
     ("Targets",
      JList [dict ([("Id", JStr target_id); ("Arn", lambda_function_arn)]
                   ++ input)])];;
  ret tt.

Definition create_lambda_functions : M Json :=
  def "create_lambda_functions" (
  print [JStr "Creating Lambda functions..."];;
  hex <- uuid4_hex;;
  let bucket_name := "project-orc-db-backups-" +:+ String.substring 0 8 hex in
  failed <- try_except (create_backup_bucket bucket_name;; ret None)
    (fun e =>
       print [JStr "Error creating S3 bucket: "; JStr (str e)];;
       ret (Some (dict [("error", JStr (str e))])));;
  match failed with
  | Some record => ret record
  | None =>
      role <- create_lambda_role "ProjectOrc-Lambda-Role";;
      let '(lambda_role_name, lambda_role_arn) := role in
      lambda_response <- call "lambda" "create_function"
        [("FunctionName", JStr "ProjectOrc-DB-Backup");
         ("Runtime", JStr "python3.9"); ("Role", lambda_role_arn);
         ("Handler", JStr "lambda_function.lambda_handler");
         ("Timeout", JNum 300); ("MemorySize", JNum 256);
         ("Environment",
          dict [("Variables",
                 dict [("DB_INSTANCE_ID", JStr "project-orc-db");
                       ("S3_BUCKET", JStr bucket_name)])])];;
      lambda_function_arn <- idx lambda_response "FunctionArn";;
      print [JStr "Created Lambda function: "; lambda_function_arn];;
      schedule_backup "ProjectOrc-Nightly-Backup" "cron(0 3 * * ? *)"
        "AllowCloudWatchEvents" "ProjectOrc-DB-Backup-Target"
        lambda_function_arn [];;
      print [JStr "Scheduled nightly DB backups via CloudWatch Events"];;
      ret (dict [("lambda_role_name", lambda_role_name);
                 ("lambda_role_arn", lambda_role_arn);
                 ("lambda_function_name", JStr "ProjectOrc-DB-Backup");
                 ("lambda_function_arn", lambda_function_arn);
                 ("s3_bucket", JStr bucket_name);
                 ("cloudwatch_rule", JStr "ProjectOrc-Nightly-Backup")])
  end).

(** [infrastructure.update(new_details)] on the global dict, then the file
    is rewritten from it. *)
Definition update_infrastructure_details (new_details : Json) : M Json :=
  def "update_infrastructure_details" (
  infrastructure <- read_global "infrastructure";;
  match infrastructure, new_details with
  | JDict d, JDict n => write_global "infrastructure" (JDict (n ∪ d))
  | JDict _, _ => raise TypeError
  | _, _ => raise AttributeError
  end;;
  infrastructure <- read_global "infrastructure";;
  write_json ledger_file infrastructure;;
  print [JStr "Updated infrastructure details saved to infrastructure_details.json"];;
  ret JNull).

Definition domain_name : string := "project-orc.example.com".

Definition main : M unit :=
  print [JStr "Starting deployment of additional services..."];;
  backend_info <- deploy_backend_services;;
  lb_info <- set_up_load_balancer;;
  alb_dns <- idx lb_info "alb_dns";;
  dns_info <- configure_dns domain_name alb_dns;;
  frontend_info <- deploy_frontend;;
  lambda_info <- create_lambda_functions;;
  update_infrastructure_details
    (dict [("backend_deployment", backend_info);
           ("load_balancer_config", lb_info);
           ("dns", dns_info);
           ("frontend", frontend_info);
           ("lambda", lambda_info)]);;
  print [JStr "Deployment completed successfully!"];;
  print [JStr "Your application should be accessible at: http://";
         JStr domain_name];;
  print [JStr "Note: DNS propagation may take up to 48 hours to complete."];;
  alb_dns <- idx lb_info "alb_dns";;
  print [JStr "In the meantime, you can access the application via the ALB DNS: ";
         alb_dns].

(** The whole script: the load at import time, then [main]. *)
Definition script : M unit := load;; main.

Definition stages : list (string * string) :=
  [("deploy_backend_services", "backend_deployment");
   ("set_up_load_balancer", "load_balancer_config");
   ("configure_dns", "dns");
   ("deploy_frontend", "frontend");
   ("create_lambda_functions", "lambda")].

End Deploy.

(** ** lambda-backup-script.py *)

Module Backup.

Definition backup_config_file : string := "backup_config.json".

Definition create_db_backup_lambda : M Json :=
  def "create_db_backup_lambda" (
  print [JStr "Setting up database backup infrastructure..."];;
  hex <- uuid4_hex;;
  let bucket_name := "project-orc-db-backups-" +:+ String.substring 0 8 hex in
  failed <- try_except (Deploy.create_backup_bucket bucket_name;; ret None)
    (fun e =>
       print [JStr "Error creating S3 bucket: "; JStr (str e)];;
       ret (Some (dict [("error", JStr (str e))])));;
  match failed with
  | Some record => ret record
  | None =>
      role <- Deploy.create_lambda_role "ProjectOrc-Lambda-Backup-Role";;
      let '(lambda_role_name, lambda_role_arn) := role in
      lambda_response <- call "lambda" "create_function"
        [("FunctionName", JStr "ProjectOrc-DB-Backup");
         ("Runtime", JStr "python3.9"); ("Role", lambda_role_arn);
         ("Handler", JStr "lambda_function.lambda_handler");
         ("Timeout", JNum 300); ("MemorySize", JNum 256);
         ("Environment",
          dict [("Variables",
                 dict [("DB_INSTANCE_ID", JStr "project-orc-db");
                       ("S3_BUCKET", JStr bucket_name);
                       ("LAMBDA_ROLE_ARN", lambda_role_arn)])])];;
      lambda_function_arn <- idx lambda_response "FunctionArn";;
      print [JStr "Created Lambda function: "; lambda_function_arn];;
      Deploy.schedule_backup "ProjectOrc-Daily-DB-Backup" "cron(0 3 * * ? *)"
        "AllowCloudWatchEvents" "ProjectOrc-DB-Backup-Target"
        lambda_function_arn [];;
      print [JStr "Scheduled daily database backups at 3 AM UTC"];;
      Deploy.schedule_backup "ProjectOrc-Weekly-Full-DB-Backup"
        "cron(0 1 ? * SUN *)" "AllowWeeklyCloudWatchEvents"
        "ProjectOrc-Weekly-DB-Backup-Target" lambda_function_arn
        [("Input", dict [("full_backup", JBool true)])];;
      print [JStr "Scheduled weekly full database backups at 1 AM UTC on Sundays"];;
      let backup_config :=
        dict [("lambda_role_name", lambda_role_name);
              ("lambda_role_arn", lambda_role_arn);
              ("lambda_function_name", JStr "ProjectOrc-DB-Backup");
              ("lambda_function_arn", lambda_function_arn);
              ("s3_bucket", JStr bucket_name);
              ("daily_cloudwatch_rule", JStr "ProjectOrc-Daily-DB-Backup");
              ("weekly_cloudwatch_rule",
               JStr "ProjectOrc-Weekly-Full-DB-Backup")] in
      write_json backup_config_file backup_config;;
      print [JStr "Backup configuration saved to backup_config.json"];;
      ret backup_config
  end).

(** The line feed the script opens a print with. *)
Definition line_feed : string := String (Ascii.ascii_of_nat 10) "".

Definition main : M unit :=
  print [JStr "Setting up AWS Lambda for database backups with timestamping..."];;
  backup_config <- create_db_backup_lambda;;
  print [JStr (line_feed +:+ "Lambda deployment completed successfully!")];;
  s3_bucket <- idx backup_config "s3_bucket";;
  print [JStr "Database backups will be stored in S3 bucket: "; s3_bucket];;
  print [JStr "Daily backups will run at 3 AM UTC"];;
  print [JStr "Weekly full backups will run at 1 AM UTC on Sundays"].

(** [os.environ[name]] *)
Definition getenv (environ : gmap string string) (name : string) : M string :=
  match environ !! name with
  | Some v => ret v
  | None => raise (KeyError name)
  end.

(** The wait in the backup function: thirty seconds between probes, sixty
    attempts. *)
Definition snapshot_wait_config : WaiterConfig :=
  {| Delay := Some 30%Z; MaxAttempts := Some 60 |}.

(** The function the script uploads ([db_backup_code]).  [region] is the
    region the session of the function is configured with, if any;
    [timestamp] is what [datetime.now().strftime(...)] gives at the call; a
    [body] holds the document whose JSON text the function returns there. *)
Definition lambda_handler (region : option string)
    (environ : gmap string string) (timestamp : string)
    : M Json := def "lambda_handler" (
  boto3_client region "rds";;
  boto3_client region "s3";;
  db_instance_identifier <- getenv environ "DB_INSTANCE_ID";;
  s3_bucket <- getenv environ "S3_BUCKET";;
  let snapshot_id :=
    "backup-" +:+ db_instance_identifier +:+ "-" +:+ timestamp in
  try_except
    (print [JStr "Creating snapshot "; JStr snapshot_id];;
     response <- call "rds" "create_db_snapshot"
       [("DBSnapshotIdentifier", JStr snapshot_id);
        ("DBInstanceIdentifier", JStr db_instance_identifier)];;
     snapshot <- idx response "DBSnapshot";;
     snapshot_arn <- idx snapshot "DBSnapshotArn";;
     print [JStr "Created snapshot with ARN: "; snapshot_arn];;
     print [JStr "Waiting for snapshot to complete..."];;
     waiter_wait "rds" "db_snapshot_available"
       [("DBSnapshotIdentifier", JStr snapshot_id)] snapshot_wait_config;;
     print [JStr "Snapshot completed successfully"];;
     try_except
       (let export_task_id := "export-" +:+ timestamp in
        let s3_prefix :=
          "backups/" +:+ db_instance_identifier +:+ "/" +:+ timestamp in
        let backup_location := "s3://" +:+ s3_bucket +:+ "/" +:+ s3_prefix in
        role_arn <- getenv environ "LAMBDA_ROLE_ARN";;
        call "rds" "start_export_task"
          [("ExportTaskIdentifier", JStr export_task_id);
           ("SourceArn", snapshot_arn); ("S3BucketName", JStr s3_bucket);
           ("IamRoleArn", JStr role_arn); ("KmsKeyId", JStr "alias/aws/s3");
           ("S3Prefix", JStr s3_prefix)];;
        print [JStr "Started export task: "; JStr export_task_id];;
        print [JStr "Backup will be stored at: "; JStr backup_location];;
        call "s3" "put_object"
          [("Bucket", JStr s3_bucket);
           ("Key", JStr ("backups/" +:+ db_instance_identifier
                         +:+ "/metadata/" +:+ timestamp +:+ "-metadata.json"));
           ("Body", dict [("timestamp", JStr timestamp);
                          ("db_instance", JStr db_instance_identifier);
                          ("snapshot_id", JStr snapshot_id);
                          ("export_task_id", JStr export_task_id);
                          ("backup_location", JStr backup_location)])];;
        ret (dict [("statusCode", JNum 200);
                   ("body",
                    dict [("message",
                           JStr "Database backup completed successfully");
                          ("snapshot_id", JStr snapshot_id);
                          ("export_task_id", JStr export_task_id);
                          ("backup_location", JStr backup_location)])]))
       (fun export_error =>
          print [JStr "Error exporting snapshot to S3: ";
                 JStr (str export_error)];;
          ret (dict [("statusCode", JNum 500);
                     ("body",
                      dict [("message",
                             JStr ("Snapshot created but export to S3 failed: "
                                   +:+ str export_error));
                            ("snapshot_id", JStr snapshot_id)])])))
    (fun e =>
       print [JStr "Error during backup process: "; JStr (str e)];;
       ret (dict [("statusCode", JNum 500);
                  ("body",
                   dict [("message",
                          JStr ("Backup failed: " +:+ str e))])]))).

End Backup.

(** ** The function uploaded by complete-deployment-script.py *)

Module DeployLambda.

(** The function [create_lambda_functions] uploads ([db_backup_code]);
    [region] is the region the session of the function is configured with,
    if any, [timestamp] is what [datetime.now().strftime(...)] gives at the
    call and [invoked_function_arn] is [context.invoked_function_arn]; a
    [body] holds the document whose JSON text the function returns there. *)
Definition lambda_handler (region : option string)
    (environ : gmap string string) (timestamp : string)
    (invoked_function_arn : Json) : M Json := def "lambda_handler" (
  boto3_client region "rds";;
  boto3_client region "s3";;
  db_instance_identifier <- Backup.getenv environ "DB_INSTANCE_ID";;
  s3_bucket <- Backup.getenv environ "S3_BUCKET";;
  let snapshot_id :=
    "backup-" +:+ db_instance_identifier +:+ "-" +:+ timestamp in
  try_except
    (print [JStr "Creating snapshot "; JStr snapshot_id];;
     call "rds" "create_db_snapshot"
       [("DBSnapshotIdentifier", JStr snapshot_id);
        ("DBInstanceIdentifier", JStr db_instance_identifier)];;
     print [JStr "Waiting for snapshot to complete..."];;
     waiter_wait "rds" "db_snapshot_available"
       [("DBSnapshotIdentifier", JStr snapshot_id)] default_config;;
     let export_task_id := "export-" +:+ timestamp in
     snapshots <- call "rds" "describe_db_snapshots"
       [("DBSnapshotIdentifier", JStr snapshot_id)];;
     items <- idx snapshots "DBSnapshots";;
     item <- nth_ items 0;;
     snapshot_arn <- idx item "DBSnapshotArn";;
     let s3_prefix :=
       "backups/" +:+ db_instance_identifier +:+ "/" +:+ timestamp in
     call "rds" "start_export_task"
       [("ExportTaskIdentifier", JStr export_task_id);
        ("SourceArn", snapshot_arn); ("S3BucketName", JStr s3_bucket);
        ("IamRoleArn", invoked_function_arn);
        ("KmsKeyId", JStr "alias/aws/s3"); ("S3Prefix", JStr s3_prefix)];;
     ret (dict [("statusCode", JNum 200);
                ("body",
                 dict [("message",
                        JStr ("Backup initiated with task ID: "
                              +:+ export_task_id));
                       ("snapshotId", JStr snapshot_id);
                       ("s3Location",
                        JStr ("s3://" +:+ s3_bucket +:+ "/" +:+ s3_prefix))])]))
    (fun e =>
       print [JStr "Error creating backup: "; JStr (str e)];;
       ret (dict [("statusCode", JNum 500);
                  ("body",
                   dict [("message",
                          JStr ("Error creating backup: " +:+ str e))])]))).

End DeployLambda.

(** ** Sample worlds

    A remote that accepts every call and answers with every field the
    scripts read, one that rejects a chosen operation, and worlds built on
    them.  They are the concrete inputs of the examples below. *)

Module Sample.

(** The response to the [n]-th event of a run. *)
Definition response (n : nat) : Json :=
  let id (prefix : string) := JStr (prefix +:+ "-" +:+ pretty n) in
  dict [("Vpc", dict [("VpcId", id "vpc")]);
        ("State", JStr "available");
        ("InternetGateway", dict [("InternetGatewayId", id "igw")]);
        ("AvailabilityZones",
         JList [dict [("ZoneName", JStr "us-west-1a")];
                dict [("ZoneName", JStr "us-west-1b")]]);
        ("Subnet", dict [("SubnetId", id "subnet")]);
        ("RouteTable", dict [("RouteTableId", id "rtb")]);
        ("AllocationId", id "eipalloc");
        ("NatGateway", dict [("NatGatewayId", id "nat")]);
        ("GroupId", id "sg");
        ("Role", dict [("RoleName", id "role"); ("Arn", id "arn:role")]);
        ("InstanceProfile", dict [("Arn", id "arn:profile")]);
        ("LaunchTemplate",
         dict [("LaunchTemplateId", id "lt");
               ("LatestVersionNumber", JNum 1)]);
        ("LoadBalancers",
         JList [dict [("LoadBalancerArn", id "arn:alb");
                      ("DNSName", JStr "alb.us-west-1.elb.example.com")]]);
        ("TargetGroups", JList [dict [("TargetGroupArn", id "arn:tg")]]);
        ("Listeners", JList [dict [("ListenerArn", id "arn:listener")]]);
        ("HostedZones", JList []);
        ("HostedZone", dict [("Id", JStr "/hostedzone/Z0123456789")]);
        ("FunctionArn", id "arn:lambda");
        ("RuleArn", id "arn:rule");
        ("DBSnapshot", dict [("DBSnapshotArn", id "arn:snapshot")])].

Definition accepting : list Event -> string -> string -> Kwargs -> Answer :=
  fun history _ _ _ => inr (response (length history)).

(** Rejects every call of one operation, accepts the rest. *)
Definition rejecting (svc op msg : string)
    : list Event -> string -> string -> Kwargs -> Answer :=
  fun history svc' op' kwargs =>
    if bool_decide (svc' = svc) && bool_decide (op' = op) then inl msg
    else accepting history svc' op' kwargs.

(** Resources are reported available at the first probe... *)
Definition prompt (svc name : string) : WaiterModel :=
  {| probe_op := "describe_" +:+ name;
     target := fun j => match getitem j "State" with
                        | inr state => Deploy.is_str state "available"
                        | inl _ => false
                        end;
     failed := fun j => match getitem j "State" with
                        | inr state => Deploy.is_str state "failed"
                        | inl _ => false
                        end;
     delay := 15; max_attempts := 40 |}.

(** ...or never. *)
Definition never (svc name : string) : WaiterModel :=
  {| probe_op := "describe_" +:+ name;
     target := fun _ => false;
     failed := fun _ => false;
     delay := 15; max_attempts := 40 |}.

Definition world (remote : list Event -> string -> string -> Kwargs -> Answer)
    (fs : gmap string FileState) (gs : gmap string Json)
    (kill : option nat) : World :=
  {| cloud := remote; waiters := prompt;
     entropy := fun _ => "0123456789abcdef0123456789abcdef"; draws := 0;
     files := fs; globals := gs; trace := []; kill_after := kill |}.

(** A ledger as the first script leaves it. *)
Definition ledger : gmap string Json :=
  list_to_map
    [("vpc", dict [("vpc_id", JStr "vpc-1");
                   ("subnets", dict [("public", JList [JStr "subnet-1";
                                                       JStr "subnet-2"]);
                                     ("private", JList [JStr "subnet-3";
                                                        JStr "subnet-4"])])]);
     ("iam", dict [("instance_profile_name",
                    JStr "ProjectOrc-EC2-ECR-Profile")]);
     ("load_balancer", dict [("alb_arn", JStr "arn:alb-1");
                             ("alb_dns", JStr "alb.us-west-1.elb.example.com")]);
     ("auto_scaling_group", dict [("asg_name", JStr "ProjectOrc-Backend-ASG")])].

(** The first script in a process that is killed forty effects in: the
    opening print and the thirty-nine effects of [create_vpc] have
    happened, [create_security_groups] has been entered. *)
Definition killed_in_second_stage : World :=
  world accepting ∅ ∅ (Some 40).

(** A world for the second script: the ledger file is there. *)
Definition resumed (remote : list Event -> string -> string -> Kwargs -> Answer)
    (kill : option nat) : World :=
  world remote {[ ledger_file := Complete (JDict ledger) ]} ∅ kill.

(** The first script against a remote that rejects the creation of the
    load balancer. *)
Definition load_balancer_rejected : World :=
  world (rejecting "elbv2" "create_load_balancer" "AccessDenied") ∅ ∅ None.

(** A ledger that already holds every key the second script writes. *)
Definition ledger_of_earlier_run : gmap string Json :=
  list_to_map
    [("backend_deployment", dict [("status", JStr "configured")]);
     ("load_balancer_config", dict [("alb_arn", JStr "arn:alb-1")]);
     ("dns", dict [("domain_name", JStr "project-orc.example.com")]);
     ("frontend", dict [("frontend_asg_name", JStr "ProjectOrc-Frontend-ASG")]);
     ("lambda", dict [("s3_bucket", JStr "project-orc-db-backups-01234567")])]
  ∪ ledger.

Definition rerun : World :=
  world accepting {[ ledger_file := Complete (JDict ledger_of_earlier_run) ]}
    ∅ None.



(** The second script on a ledger file that holds an empty object. *)
Definition empty_ledger : World :=
  world accepting {[ ledger_file := Complete (JDict ∅) ]} ∅ None.

(** A process that holds a good ledger, in the file and in the global, and
    is killed after one more effect. *)
Definition killed_in_flush : World :=
  world accepting {[ ledger_file := Complete (JDict ledger) ]}
    {[ "infrastructure" := JDict ledger ]} (Some 1).

(** The process of [rerun] as the load leaves it: the global
    [infrastructure] holds the ledger of the earlier run and the global
    [vpc_id] its [vpc.vpc_id]. *)
Definition rerun_loaded : World :=
  world accepting {[ ledger_file := Complete (JDict ledger_of_earlier_run) ]}
    {[ "infrastructure" := JDict ledger_of_earlier_run;
       "vpc_id" := JStr "vpc-1" ]} None.

(** A process that holds the ledger of an earlier run, in the file and in
    the global. *)
Definition holding_earlier_run : World :=
  world accepting {[ ledger_file := Complete (JDict ledger_of_earlier_run) ]}
    {[ "infrastructure" := JDict ledger_of_earlier_run ]} None.

(** A remote whose resources never become available. *)
Definition never_available : World :=
  {| cloud := accepting; waiters := never;
     entropy := fun _ => "0123456789abcdef0123456789abcdef"; draws := 0;
     files := ∅; globals := ∅; trace := []; kill_after := None |}.

(** A process in which nothing has assigned [vpc_id]. *)
Definition fresh : World := world accepting ∅ ∅ None.

(** A remote that rejects the creation of the bucket. *)
Definition bucket_rejected : World :=
  world (rejecting "s3" "create_bucket" "BucketAlreadyExists") ∅ ∅ None.

(** A new process on the files a crash in the flush left behind. *)
Definition after_crash_in_flush : World :=
  world accepting
    (files (Deploy.update_infrastructure_details
              (JDict ledger_of_earlier_run) killed_in_flush).2)
    ∅ None.

(** The variables [create_db_backup_lambda] gives its function. *)
Definition environ : gmap string string :=
  list_to_map [("DB_INSTANCE_ID", "project-orc-db");
               ("S3_BUCKET", "project-orc-db-backups-01234567");
               ("LAMBDA_ROLE_ARN", "arn:role-1")].

(** A remote on which the hosted zone of the domain exists already. *)
Definition existing_zone : Json :=
  dict [("Name", JStr "project-orc.example.com.");
        ("Id", JStr "/hostedzone/ZEXISTING")].

Definition zone_exists : World :=
  world (fun history svc op kwargs =>
           if bool_decide (op = "list_hosted_zones_by_name")
           then inr (dict [("HostedZones", JList [existing_zone])])
           else accepting history svc op kwargs)
    ∅ ∅ None.

(** A remote that gives every call the same answer. *)
Definition steady : World :=
  world (fun _ _ _ _ => inr (response 0)) ∅ ∅ None.

End Sample.

(** ** What is read off a trace *)

(** The effects a stage has on the remote and the terminal, as opposed to
    the call markers and the file events. *)
Definition plain (e : Event) : Prop :=
  match e with
  | Print _ | Call _ _ _ _ | Sleep _ => True
  | _ => False
  end.

(** The defs entered, in order. *)
Fixpoint entered (evs : list Event) : list string :=
  match evs with
  | [] => []
  | Enter fn :: rest => fn :: entered rest
  | _ :: rest => entered rest
  end.

(** The defs that returned, each with its value, in order. *)
Fixpoint returned (evs : list Event) : list (string * Json) :=
  match evs with
  | [] => []
  | Leave fn v :: rest => (fn, v) :: returned rest
  | _ :: rest => returned rest
  end.

(** The file events, in order. *)
Fixpoint file_events (evs : list Event) : list Event :=
  match evs with
  | [] => []
  | Truncate p :: rest => Truncate p :: file_events rest
  | Dump p d :: rest => Dump p d :: file_events rest
  | Close p :: rest => Close p :: file_events rest
  | _ :: rest => file_events rest
  end.

(** The probes and sleeps of a wait. *)
Fixpoint probes (evs : list Event) : nat :=
  match evs with
  | [] => 0
  | Call _ _ _ _ :: rest => S (probes rest)
  | _ :: rest => probes rest
  end.

Fixpoint sleeps (evs : list Event) : list Z :=
  match evs with
  | [] => []
  | Sleep s :: rest => s :: sleeps rest
  | _ :: rest => sleeps rest
  end.

(** The status the process ends with: zero at the end of the script, the
    argument of [exit], one for an exception nobody caught, and the shell's
    128 + 9 for a kill. *)
Definition exit_status {A} (r : Result A) : Z :=
  match r with
  | Return _ => 0
  | Raise (SystemExit code) => code
  | Raise _ => 1
  | Killed => 137
  end.

(** [w'] is [w] after the events [evs]: the remote, the waiters and the
    entropy are who they were and the trace has grown by [evs]. *)
Record extends (w : World) (evs : list Event) (w' : World) : Prop := {
  ext_cloud : cloud w' = cloud w;
  ext_waiters : waiters w' = waiters w;
  ext_entropy : entropy w' = entropy w;
  ext_trace : trace w' = trace w ++ evs
}.

(** What a step that is off the files and the globals does to the world:
    it leaves plain events, raises only exceptions in [Q], and ends
    [Killed] only in a process that can be killed. *)
Record tamed {A} (Q : Exn -> Prop) (w : World) (r : Result A) (w' : World)
    : Prop := {
  tamed_files : files w' = files w;
  tamed_globals : globals w' = globals w;
  tamed_events : exists evs, extends w evs w' /\ Forall plain evs;
  tamed_raise : forall e, r = Raise e -> Q e;
  tamed_alive : kill_after w = None -> kill_after w' = None /\ r <> Killed
}.

(** A computation all of whose runs are such steps, wherever the globals
    satisfy [G]. *)
Definition tame {A} (G : gmap string Json -> Prop) (Q : Exn -> Prop)
    (m : M A) : Prop :=
  forall w r w', G (globals w) -> m w = (r, w') -> tamed Q w r w'.

(** A computation that returns only values in [R]. *)
Definition returns {A} (R : A -> Prop) (m : M A) : Prop :=
  forall w v w', m w = (Return v, w') -> R v.

(** The events a def leaves around those of its body. *)
Definition framed (fn : string) (evs : list Event) (r : Result Json)
    : list Event :=
  Enter fn :: evs ++ match r with Return v => [Leave fn v] | _ => [] end.

(** A run of a def whose body is tame and returns values in [R]. *)
Record stage_run (fn : string) (Q : Exn -> Prop) (R : Json -> Prop)
    (w : World) (r : Result Json) (w' : World) : Prop := {
  stage_files : files w' = files w;
  stage_globals : globals w' = globals w;
  stage_events :
    exists evs, extends w (framed fn evs r) w' /\ Forall plain evs;
  stage_raise : forall e, r = Raise e -> Q e;
  stage_alive : kill_after w = None -> kill_after w' = None /\ r <> Killed;
  stage_value : forall v, r = Return v -> R v
}.

(** The exceptions a subscript, an iteration or a method call on a value of
    the wrong shape raises. *)
Definition lookup_error (e : Exn) : Prop :=
  match e with
  | KeyError _ | IndexError | TypeError | AttributeError => True
  | _ => False
  end.

Definition anything (_ : gmap string Json) : Prop := True.
Definition any_exn (_ : Exn) : Prop := True.
Definition no_exn (_ : Exn) : Prop := False.
Definition caught (e : Exn) : Prop := is_Exception e = true.

(** The top-level code has assigned [vpc_id]. *)
Definition vpc_id_assigned (g : gmap string Json) : Prop :=
  is_Some (g !! "vpc_id").

Definition not_NameError (e : Exn) : Prop := forall n, e <> NameError n.

(** A dict with at least these keys. *)
Definition has_keys (keys : list string) (v : Json) : Prop :=
  exists d, v = JDict d /\ Forall (fun k => is_Some (d !! k)) keys.

(** The trace without its plain events: the call markers and the file
    events, in order. *)
Fixpoint skeleton (evs : list Event) : list Event :=
  match evs with
  | [] => []
  | (Print _ | Call _ _ _ _ | Sleep _) :: rest => skeleton rest
  | e :: rest => e :: skeleton rest
  end.

(** The call markers. *)
Definition marker (e : Event) : Prop :=
  match e with
  | Enter _ | Leave _ _ => True
  | _ => False
  end.

(** What the file events of a trace do to the files. *)
Definition replay_event (fs : gmap string FileState) (e : Event)
    : gmap string FileState :=
  match e with
  | Truncate p => <[p := Truncated]> fs
  | Dump p doc => <[p := Writing doc]> fs
  | Close p => match fs !! p with
               | Some (Writing doc) => <[p := Complete doc]> fs
               | _ => fs
               end
  | _ => fs
  end.

Definition replay (fs : gmap string FileState) (evs : list Event)
    : gmap string FileState :=
  foldl replay_event fs evs.

(** The markers of defs that ran to their return, one after the other. *)
Definition completed (done : list (string * Json)) : list Event :=
  flat_map (fun '(fn, v) => [Enter fn; Leave fn v]) done.

(** The skeleton of a whole run of a def that writes the ledger. *)
Definition flush_events (fn : string) (doc : Json) : list Event :=
  [Enter fn; Truncate ledger_file; Dump ledger_file doc; Close ledger_file;
   Leave fn JNull].

(** The skeleton of a whole run of a pipeline script: the stages in their
    order, each returning its value, then the def that writes the ledger. *)
Definition pipeline (stages : list (string * string)) (values : list Json)
    (flush : string) (doc : Json) : list Event :=
  completed (zip stages.*1 values) ++ flush_events flush doc.

(** The ledger a run builds from the values of its stages. *)
Definition outputs (stages : list (string * string)) (values : list Json)
    : gmap string Json :=
  list_to_map (zip stages.*2 values).

(** How far a script has got: the files are untouched, and the skeleton of
    the trace so far is [sk]. *)
Definition progress (w : World) (sk : list Event) (w1 : World) : Prop :=
  files w1 = files w /\
  (kill_after w = None -> kill_after w1 = None) /\
  exists evs, extends w evs w1 /\ skeleton evs = sk.

(** A run of a pipeline script, by its skeleton: it is the first [n] events
    of the skeleton of a whole run.  A run that returns has them all; a run
    that raises stopped inside a stage; a run that is killed did not stop
    between the return of a stage and the call of the next def. *)
Definition pipeline_run (stages : list (string * string)) (flush : string)
    (doc_of : list Json -> Json) (w : World) (r : Result unit) (w' : World)
    : Prop :=
  exists evs values n,
    length values = length stages /\
    extends w evs w' /\
    files w' = replay (files w) evs /\
    skeleton evs = take n (pipeline stages values flush (doc_of values)) /\
    match r with
    | Return _ => n = 2 * length stages + 5
    | Raise _ => exists k, n = 2 * k + 1 /\ k < length stages
    | Killed =>
        kill_after w <> None /\ n <= 2 * length stages + 5 /\
        forall k, 1 <= k <= length stages -> n <> 2 * k
    end.

(** A run of such a def: it got through [n] events of that skeleton. *)
Definition flush_run (fn : string) (doc : Json) (w : World)
    (r : Result Json) (w' : World) : Prop :=
  (kill_after w = None -> kill_after w' = None) /\
  exists evs n,
    1 <= n /\ extends w evs w' /\
    skeleton evs = take n (flush_events fn doc) /\
    files w' = replay (files w) evs /\
    match r with
    | Return v => n = 5 /\ v = JNull
    | Raise _ => False
    | Killed => n < 5 /\ kill_after w <> None
    end.

(** ** Statements about the ledger file *)

(** Every stage that has returned has its value under its key in the
    ledger file: what a checkpoint after every stage would give at every
    point a run can stop at. *)
Definition checkpointed (stages : list (string * string)) (w' : World)
    : Prop :=
  forall fn key v, (fn, key) ∈ stages -> (fn, v) ∈ returned (trace w') ->
    exists d, files w' !! ledger_file = Some (Complete (JDict d)) /\
              d !! key = Some v.

(** What the scripts do instead: a run leaves the files alone until every
    stage has returned, writes the ledger file at most once, and when it
    returns the file holds the value of every stage under its key. *)
Definition flushed_at_end (stages : list (string * string)) (w : World)
    (r : Result unit) (w' : World) : Prop :=
  exists evs,
    trace w' = trace w ++ evs /\
    (files w' <> files w ->
     forall fn key, (fn, key) ∈ stages -> exists v, (fn, v) ∈ returned evs) /\
    (exists doc, file_events evs `prefix_of`
       [Truncate ledger_file; Dump ledger_file doc; Close ledger_file]) /\
    (r = Return tt ->
     exists d, files w' = <[ledger_file := Complete (JDict d)]> (files w) /\
       forall fn key, (fn, key) ∈ stages ->
         exists v, (fn, v) ∈ returned evs /\ d !! key = Some v).

(** What the load leaves behind when it returns: the ledger [d] it read
    from the file is the global [infrastructure], and the files are
    untouched. *)
Record loaded (d : gmap string Json) (w w1 : World) : Prop := {
  loaded_file : files w !! ledger_file = Some (Complete (JDict d));
  loaded_global : globals w1 !! "infrastructure" = Some (JDict d);
  loaded_files : files w1 = files w;
  loaded_events : exists evs, extends w evs w1 /\ Forall plain evs;
  loaded_alive : kill_after w = None -> kill_after w1 = None
}.

(** A run that stops before any def is entered and leaves the files
    alone. *)
Definition stopped_early (w : World) (w' : World) : Prop :=
  files w' = files w /\ exists evs, extends w evs w' /\ Forall plain evs.

(** A run that stopped inside a stage: the stages before it have returned,
    it was entered and did not return, no later def was entered, and the
    files are as they were. *)
Definition aborted_in_stage (stages : list (string * string)) (w w' : World)
    : Prop :=
  files w' = files w /\
  exists evs done failing rest,
    trace w' = trace w ++ evs /\
    stages.*1 = done.*1 ++ failing :: rest /\
    skeleton evs = completed done ++ [Enter failing].

(** What flushing on abort would give: when a run ends with an exception,
    the ledger file holds the value of every stage that had returned. *)
Definition progress_kept_on_abort (stages : list (string * string))
    (r : Result unit) (w' : World) : Prop :=
  (exists e, r = Raise e) -> checkpointed stages w'.

(** The defs of a run are entered in the order of the script, none twice
    and none out of turn: the stages, then the def that writes the ledger.
    A run that returns has entered every one of them. *)
Definition in_script_order (stages : list (string * string)) (flush : string)
    (w : World) (r : Result unit) (w' : World) : Prop :=
  exists evs,
    trace w' = trace w ++ evs /\
    entered evs `prefix_of` stages.*1 ++ [flush] /\
    (r = Return tt -> entered evs = stages.*1 ++ [flush]).

(** The defs of a script in its order: the stages, then the def that
    writes the ledger. *)
Definition script_order (stages : list (string * string)) (flush : string)
    : list string :=
  stages.*1 ++ [flush].

(** Every def of the script runs once, in the script's order, as long as
    the run lasts.  A run that returns has entered every def, each once
    and in that order, and every one of them has returned.  A run that
    raises has ended inside a def of the script: that def and the ones
    before it were entered, each once and in order, the ones before it
    have returned, and no later def was entered.  A run cut short by the
    end of the process has entered the first defs of the order, each
    once. *)
Definition runs_every_def_in_order (stages : list (string * string))
    (flush : string) (w : World) (r : Result unit) (w' : World) : Prop :=
  exists evs,
    trace w' = trace w ++ evs /\
    match r with
    | Return _ =>
        entered evs = script_order stages flush /\
        (returned evs).*1 = script_order stages flush
    | Raise _ =>
        exists k, k < length (script_order stages flush) /\
          entered evs = take (S k) (script_order stages flush) /\
          (returned evs).*1 = take k (script_order stages flush)
    | Killed =>
        kill_after w <> None /\
        entered evs `prefix_of` script_order stages flush
    end.

(** A ledger that has what the load reads: an object with [vpc.vpc_id]. *)
Definition has_vpc_id (d : gmap string Json) : Prop :=
  exists vpc vpc_id, d !! "vpc" = Some vpc /\ getitem vpc "vpc_id" = inr vpc_id.

(** The record a def returns for the exception it has caught. *)
Definition error_record (e : Exn) : Json := dict [("error", JStr (str e))].



(** The exit the spec gives the second script: non-zero before any stage
    when the ledger file is missing, zero whenever it is there. *)
Definition exit_decided_by_ledger_file (w : World) (r : Result unit)
    (w' : World) : Prop :=
  match files w !! ledger_file with
  | None => exit_status r <> 0%Z /\ entered (trace w') = entered (trace w)
  | Some _ => exit_status r = 0%Z
  end.

(** What the code gives when the file is there: a run that returns, and so
    exits zero, has entered every stage and the def that writes the
    ledger; a run that raises ends with an uncaught exception, not the
    [exit(1)] of the missing file, and the status one. *)
Definition exit_decided_by_stages (w : World) (r : Result unit)
    (w' : World) : Prop :=
  exists evs,
    trace w' = trace w ++ evs /\
    match r with
    | Return _ =>
        entered evs = Deploy.stages.*1 ++ ["update_infrastructure_details"]
    | Raise e => caught e /\ exit_status r = 1%Z
    | Killed => False
    end.

(** What an atomic flush would keep: a ledger file that was whole before
    the flush is whole after it, however the flush ends. *)
Definition flush_is_atomic (w w' : World) : Prop :=
  forall old, files w !! ledger_file = Some (Complete old) ->
    exists doc, files w' !! ledger_file = Some (Complete doc).

(** What a flush of [doc] does: it writes the ledger file in place.  When
    it returns the file holds [doc]; a flush cut short by the end of the
    process leaves the file as it was, or empty, or with text not yet
    closed, or written.  Of a flush that raises nothing is said: the
    errors of the file system are not part of the model. *)
Definition written_in_place (doc : Json) (w : World) (r : Result Json)
    (w' : World) : Prop :=
  match r with
  | Return v => v = JNull /\ files w' = <[ledger_file := Complete doc]> (files w)
  | Raise _ => True
  | Killed =>
      kill_after w <> None /\
      (files w' = files w \/
       files w' = <[ledger_file := Truncated]> (files w) \/
       files w' = <[ledger_file := Writing doc]> (files w) \/
       files w' = <[ledger_file := Complete doc]> (files w))
  end.

(** [m] is [d] with the top-level keys of [n] put over it: a key of [n]
    has in [m] the value [n] gives it, whatever [d] held there, and every
    other key has what it has in [d]. *)
Definition shallow_overwrite (n d m : gmap string Json) : Prop :=
  (forall k v, n !! k = Some v -> m !! k = Some v) /\
  (forall k, n !! k = None -> m !! k = d !! k).

(** A probe the remote always answers, and never with the state the
    waiter waits for. *)
Definition never_ready (w : World) (svc op : string) (kwargs : Kwargs)
    (target_predicate : Json -> bool) : Prop :=
  forall history, exists v,
    cloud w history svc op kwargs = inr v /\ target_predicate v = false.

(** The events of a wait, from its probes: the first probe, and before
    every further probe a sleep of [interval]. *)
Fixpoint polling (interval : Z) (answered : list Event) : list Event :=
  match answered with
  | [] => []
  | [p] => [p]
  | p :: rest => p :: Sleep interval :: polling interval rest
  end.

(** A probe that was answered, and not with the state waited for. *)
Definition unready_probe (svc op : string) (kwargs : Kwargs)
    (target_predicate : Json -> bool) (e : Event) : Prop :=
  exists v, e = Call svc op kwargs (inr v) /\ target_predicate v = false.

(** A wait that took exactly [attempts] probes, none of them answered with
    the state waited for, with a sleep of [interval] between one probe and
    the next, and nothing else. *)
Definition polled (svc op : string) (kwargs : Kwargs)
    (target_predicate : Json -> bool) (interval : Z) (attempts : nat)
    (w w' : World) : Prop :=
  exists answered,
    length answered = attempts /\
    Forall (unready_probe svc op kwargs target_predicate) answered /\
    trace w' = trace w ++ polling interval answered.

(** A computation that does not return, wherever the globals satisfy
    [G]: every run of it ends with an exception or with the process. *)
Definition never_returns {A} (G : gmap string Json -> Prop) (m : M A)
    : Prop :=
  forall w r w', G (globals w) -> m w = (r, w') -> forall v, r <> Return v.

(** The top-level code has not assigned [vpc_id]. *)
Definition vpc_id_unassigned (g : gmap string Json) : Prop :=
  g !! "vpc_id" = None.

(** The remote rejects the operation with [msg] when asked after
    [history], whatever the arguments. *)
Definition rejects (w : World) (history : list Event) (svc op msg : string)
    : Prop :=
  forall kwargs, cloud w history svc op kwargs = inl msg.

(** A run of the backup set-up [fn] in which only the bucket was asked
    for: the one client call is the rejected [create_bucket], the def
    printed the error and returned, and no file was touched. *)
Definition only_bucket_attempted (fn opening msg : string) (w w' : World)
    : Prop :=
  files w' = files w /\
  exists kwargs,
    trace w' = trace w ++
      [Enter fn; Print [JStr opening];
       Call "s3" "create_bucket" kwargs (inl msg);
       Print [JStr "Error creating S3 bucket: "; JStr msg];
       Leave fn (error_record (ClientError msg))].

(** ** Statements about the helpers of the stages *)

(** A hosted zone named like the domain, with or without the final dot;
    and one with a name that is neither. *)
Definition zone_matches (domain_name : string) (zone : Json) : Prop :=
  getitem zone "Name" = inr (JStr (domain_name +:+ ".")) \/
  getitem zone "Name" = inr (JStr domain_name).

Definition zone_differs (domain_name : string) (zone : Json) : Prop :=
  exists name, getitem zone "Name" = inr name /\
    name <> JStr (domain_name +:+ ".") /\ name <> JStr domain_name.

(** A string without a slash. *)
Fixpoint no_slash (s : string) : Prop :=
  match s with
  | EmptyString => True
  | String c rest => String c "" <> "/" /\ no_slash rest
  end.

(** A value that is not a str. *)
Definition not_a_str (j : Json) : Prop := forall s, j <> JStr s.

(** ** Invariants of a run *)

(** Every event a computation leaves satisfies [P], and it keeps the
    invariant [G] of the globals. *)
Definition emits {A} (G : gmap string Json -> Prop) (P : Event -> Prop)
    (m : M A) : Prop :=
  forall w r w', G (globals w) -> m w = (r, w') ->
    G (globals w') /\
    exists evs, trace w' = trace w ++ evs /\ Forall P evs.

(** Every def returns a value in [R]. *)
Definition leaves (R : string -> Json -> Prop) (e : Event) : Prop :=
  match e with Leave fn v => R fn v | _ => True end.

(** [j[k1][k2]...] *)
Fixpoint get_path (j : Json) (path : list string) : Exn + Json :=
  match path with
  | [] => inr j
  | key :: rest =>
      match getitem j key with
      | inl e => inl e
      | inr v => get_path v rest
      end
  end.

Definition has_path (j : Json) (path : list string) : Prop :=
  exists v, get_path j path = inr v.

(** The subscripts at which complete-deployment-script.py reads the ledger
    that boto3-iac-script.py wrote. *)
Definition ledger_reads : list (list string) :=
  [["vpc"; "vpc_id"];
   ["auto_scaling_group"; "asg_name"];
   ["load_balancer"; "alb_arn"];
   ["load_balancer"; "alb_dns"];
   ["iam"; "instance_profile_name"];
   ["vpc"; "subnets"; "public"]].

(** What is read of the value of the stage [fn] of the first script. *)
Definition paths_read (fn : string) : list (list string) :=
  flat_map (fun '(f, key) =>
    if bool_decide (f = fn)
    then omap (fun path =>
                 match path with
                 | k :: rest => if bool_decide (k = key) then Some rest else None
                 | [] => None
                 end) ledger_reads
    else []) Iac.stages.

Definition read_later (fn : string) (v : Json) : Prop :=
  Forall (has_path v) (paths_read fn).

(** A call that asks for a target group asks for it in the VPC [g]. *)
Definition target_group_in (g : Json) (e : Event) : Prop :=
  forall kwargs a,
    e = Call "elbv2" "create_target_group" kwargs a -> ("VpcId", g) ∈ kwargs.

(** A def that keeps off the files and the globals. *)
Definition keeps_off_files_and_globals {A} (m : M A) : Prop :=
  forall w r w', m w = (r, w') ->
    files w' = files w /\ globals w' = globals w /\
    exists evs, trace w' = trace w ++ evs /\ file_events evs = [].

(** The answer of a backup function: a status code, 200 or 500, and a
    body. *)
Definition status_record (v : Json) : Prop :=
  exists code body,
    v = dict [("statusCode", JNum code); ("body", body)] /\
    (code = 200 \/ code = 500)%Z.

(** What the backup functions do before their [try] has failed: the
    session has no region for the two clients, or one of the two variables
    read there is not set. *)
Definition missing_variable (region : option string)
    (environ : gmap string string) (e : Exn) : Prop :=
  (e = NoRegionError /\ region = None) \/
  exists name, e = KeyError name /\
    (name = "DB_INSTANCE_ID" \/ name = "S3_BUCKET") /\ environ !! name = None.

(** What an invocation of a backup function comes to: it answers with a
    status record whatever the remote does, raises only for what is
    missing before its [try], and writes no file. *)
Definition answers_with_status (region : option string)
    (environ : gmap string string) (m : M Json) : Prop :=
  forall w r w', m w = (r, w') ->
    files w' = files w /\
    match r with
    | Return v => status_record v
    | Raise e => missing_variable region environ e
    | Killed => kill_after w <> None
    end.

(** What a computation does to the files, by how it ends: [F] relates the
    files before and after a run that returns, a run that raises leaves
    the files as they were, and only a process that can be killed ends
    killed. *)
Definition filed {A} (F : A -> gmap string FileState ->
                          gmap string FileState -> Prop) (m : M A) : Prop :=
  forall w r w', m w = (r, w') ->
    (kill_after w = None -> kill_after w' = None) /\
    match r with
    | Return a => F a (files w) (files w')
    | Raise _ => files w' = files w
    | Killed => kill_after w <> None
    end.

(** The backup set-up either gave up on its bucket, returned the error
    record and wrote nothing, or returned its configuration, with the
    bucket in it, and left exactly that in [backup_config.json]. *)
Definition config_or_error (v : Json) (fs fs' : gmap string FileState)
    : Prop :=
  (exists e, v = error_record e /\ fs' = fs) \/
  (is_Some (match v with JDict d => d !! "s3_bucket" | _ => None end) /\
   fs' = <[Backup.backup_config_file := Complete v]> fs).

(** A record of [create_vpc] with two public and two private subnets. *)
Definition two_subnets_each (v : Json) : Prop :=
  exists public private,
    get_path v ["subnets"; "public"] = inr (JList public) /\
    get_path v ["subnets"; "private"] = inr (JList private) /\
    length public = 2 /\ length private = 2.

(** The one exception [create_vpc] raises itself. *)
Definition too_few_zones (e : Exn) : Prop :=
  forall msg, e = PlainException msg ->
    msg = "Need at least 2 availability zones".

(** * Properties *)

(** ** Computations that stay off the files and the globals *)

Lemma extends_refl w : extends w [] w.
Proof. split; auto. now rewrite app_nil_r. Qed.

Lemma extends_trans w1 w2 w3 evs1 evs2 :
  extends w1 evs1 w2 -> extends w2 evs2 w3 -> extends w1 (evs1 ++ evs2) w3.
Proof.
  intros [] []; split; try congruence.
  rewrite app_assoc. congruence.
Qed.

Lemma tick_inv w w1 :
  tick w = Some w1 ->
  extends w [] w1 /\ files w1 = files w /\ globals w1 = globals w /\
  (kill_after w = None -> kill_after w1 = None).
Proof.
  unfold tick. destruct (kill_after w) as [[|n]|] eqn:E;
    intros H; inversion H; subst;
    (split; [split; simpl; auto using app_nil_r | auto]).
  repeat split; auto. discriminate.
Qed.

Lemma tick_alive w : kill_after w = None -> tick w = Some w.
Proof. unfold tick. now intros ->. Qed.

Lemma extends_logs w w1 evs :
  extends w [] w1 -> extends w evs (logs evs w1).
Proof.
  intros [Hc Hw He Ht]; split; simpl; try congruence.
  rewrite Ht, app_nil_r. auto.
Qed.

Lemma tamed_here {A} Q w (r : Result A) :
  (forall e, r = Raise e -> Q e) -> r <> Killed -> tamed Q w r w.
Proof.
  intros HQ Hk. split; auto.
  exists []. split; [apply extends_refl | constructor].
Qed.

Lemma tamed_killed {A} Q w : kill_after w <> None -> tamed Q w (@Killed A) w.
Proof.
  intros Hk. split; auto; try discriminate; try contradiction.
  exists []. split; [apply extends_refl | constructor].
Qed.

Lemma tamed_then {A B} Q Q' w1 (a : A) w2 (r : Result B) w3 :
  tamed Q' w1 (Return a) w2 -> tamed Q w2 r w3 -> tamed Q w1 r w3.
Proof.
  intros [Hf Hg (evs & He & Hp) _ Ha] [Hf' Hg' (evs' & He' & Hp') Hq' Ha'].
  split; try congruence; try exact Hq'.
  - exists (evs ++ evs'). split; [eapply extends_trans; eauto|].
    apply Forall_app; auto.
  - intros Hk. destruct (Ha Hk) as [Hk1 _]. auto.
Qed.

Lemma tamed_stop {A B} Q w (r : Result A) (r' : Result B) w' :
  tamed Q w r w' ->
  match r, r' with
  | Raise e, Raise e' => e = e'
  | Killed, Killed => True
  | _, _ => False
  end ->
  tamed Q w r' w'.
Proof.
  intros [Hf Hg He Hq Ha] Hr. split; auto.
  - intros e' ->. destruct r; try contradiction. subst. now apply Hq.
  - intros Hk. destruct (Ha Hk) as [Hk' Hn]. split; [auto|].
    destruct r, r'; try contradiction; try discriminate; congruence.
Qed.

Lemma tamed_weaken {A} (Q Q' : Exn -> Prop) w (r : Result A) w' :
  (forall e, Q e -> Q' e) -> tamed Q w r w' -> tamed Q' w r w'.
Proof. intros HQ []. split; auto. Qed.

Lemma tamed_returned {A B} Q Q' w (r : Result A) (b : B) w' :
  tamed Q' w r w' -> r <> Killed -> tamed Q w (Return b) w'.
Proof.
  intros [Hf Hg He Hq Ha] Hr. split; auto; [discriminate|].
  intros Hk. split; [now apply Ha | discriminate].
Qed.

Lemma tamed_dead {A B} Q Q' w w' :
  tamed Q' w (@Killed A) w' -> tamed Q w (@Killed B) w'.
Proof.
  intros [Hf Hg He Hq Ha]. split; auto; [discriminate|].
  intros Hk. now destruct (Ha Hk).
Qed.

Section Tame.
Context (G : gmap string Json -> Prop) (Q : Exn -> Prop).

Lemma tame_ret {A} (a : A) : tame G Q (ret a).
Proof.
  intros w r w' _ [= <- <-]. apply tamed_here; discriminate.
Qed.

Lemma tame_raise {A} e : Q e -> tame G Q (@raise A e).
Proof.
  intros HQ w r w' _ [= <- <-]. apply tamed_here; [|discriminate].
  now intros e' [= <-].
Qed.

Lemma tame_bind {A B} (m : M A) (k : A -> M B) :
  tame G Q m -> (forall a, tame G Q (k a)) -> tame G Q (bind m k).
Proof.
  intros Hm Hk w r w' HG H. unfold bind in H.
  destruct (m w) as [[a|e|] w1] eqn:E; pose proof (Hm _ _ _ HG E) as H1.
  - eapply tamed_then; [exact H1|].
    apply (Hk a); [|exact H]. now rewrite (tamed_globals _ _ _ _ H1).
  - injection H as <- <-. eapply tamed_stop; [exact H1 | reflexivity].
  - injection H as <- <-. eapply tamed_stop; [exact H1 | exact I].
Qed.

Lemma tame_lift {A} (x : Exn + A) :
  (forall e, x = inl e -> Q e) -> tame G Q (lift x).
Proof.
  destruct x; simpl; intros H; [apply tame_raise | apply tame_ret]; auto.
Qed.

Lemma tamed_tick {A} w w1 ev (r : Result A) :
  tick w = Some w1 -> plain ev -> (forall e, r = Raise e -> Q e) ->
  r <> Killed -> tamed Q w r (logs [ev] w1).
Proof.
  intros E Hp HQ Hr. destruct (tick_inv _ _ E) as (He & Hf & Hg & Hk).
  split; auto.
  exists [ev]. split; [now apply extends_logs | repeat constructor; auto].
Qed.

Lemma tamed_no_tick {A} w : tick w = None -> tamed Q w (@Killed A) w.
Proof.
  intros E. apply tamed_killed. intros Hk. now rewrite (tick_alive _ Hk) in E.
Qed.

Lemma tame_effect ev : plain ev -> tame G Q (effect ev).
Proof.
  intros Hp w r w' _ H. unfold effect in H.
  destruct (tick w) as [w1|] eqn:E; injection H as <- <-.
  - apply tamed_tick; auto; discriminate.
  - now apply tamed_no_tick.
Qed.

Lemma tame_print parts : tame G Q (print parts).
Proof. apply tame_effect. exact I. Qed.

Lemma tame_sleep s : tame G Q (sleep s).
Proof. apply tame_effect. exact I. Qed.

Lemma tame_call svc op kwargs :
  (forall msg, Q (ClientError msg)) -> tame G Q (call svc op kwargs).
Proof.
  intros HQ w r w' _ H. unfold call in H.
  destruct (tick w) as [w1|] eqn:E.
  - destruct (cloud w (trace w) svc op kwargs) as [msg|v];
      injection H as <- <-; (apply tamed_tick; [auto | exact I | | discriminate]).
    + now intros e [= <-].
    + discriminate.
  - injection H as <- <-. now apply tamed_no_tick.
Qed.

Lemma tame_uuid4_hex : tame G Q uuid4_hex.
Proof.
  intros w r w' _ [= <- <-]. split; auto; try discriminate.
  all: try (exists []; split; [| constructor]; split; simpl;
            auto using app_nil_r).
  all: try (intros Hk; split; [exact Hk | discriminate]).
Qed.

Lemma tame_uuid4_str : tame G Q uuid4_str.
Proof. apply tame_bind; [apply tame_uuid4_hex | intros; apply tame_ret]. Qed.

Lemma tame_read_global name :
  (forall g, G g -> g !! name = None -> Q (NameError name)) ->
  tame G Q (read_global name).
Proof.
  intros HQ w r w' HG H. unfold read_global in H.
  destruct (globals w !! name) eqn:E; injection H as <- <-;
    apply tamed_here; try discriminate.
  intros e [= <-]. eauto.
Qed.

Lemma tame_try_catch {A} catches (m : M A) h (Q' : Exn -> Prop) :
  tame G Q' m -> (forall e, tame G Q (h e)) ->
  (forall e, Q' e -> catches e = false -> Q e) ->
  tame G Q (try_catch catches m h).
Proof.
  intros Hm Hh Hc w r w' HG H. unfold try_catch in H.
  destruct (m w) as [[a|e|] w1] eqn:E; pose proof (Hm _ _ _ HG E) as H1.
  - injection H as <- <-. eapply tamed_returned; [exact H1 | discriminate].
  - destruct (catches e) eqn:Ec.
    + destruct H1 as [Hf Hg (evs & He & Hp) Hq Ha].
      assert (H2 : tamed Q w1 r w')
        by (apply (Hh e); [now rewrite Hg | exact H]).
      destruct H2 as [Hf' Hg' (evs' & He' & Hp') Hq' Ha'].
      split; try congruence; try exact Hq'.
      * exists (evs ++ evs'). split; [eapply extends_trans; eauto|].
        apply Forall_app; auto.
      * intros Hk. destruct (Ha Hk) as [Hk1 _]. auto.
    + injection H as <- <-. destruct H1 as [Hf Hg He Hq Ha]. split; auto.
      intros e0 [= <-]. apply Hc; auto.
  - injection H as <- <-. eapply tamed_dead; exact H1.
Qed.

Lemma tame_for_each {A} (xs : list A) body :
  (forall x, tame G Q (body x)) -> tame G Q (for_each xs body).
Proof.
  intros Hb. induction xs as [|x xs IH]; simpl.
  - apply tame_ret.
  - apply tame_bind; auto.
Qed.

Lemma tame_for_fold {A S} (xs : list A) (s : S) body :
  (forall x s, tame G Q (body x s)) -> tame G Q (for_fold xs s body).
Proof.
  intros Hb. revert s. induction xs as [|x xs IH]; simpl; intros s.
  - apply tame_ret.
  - apply tame_bind; auto.
Qed.

Lemma tame_wait_until check_fn target_predicate interval attempts
    (Q' : Exn -> Prop) :
  tame G Q' check_fn ->
  tame G Q (wait_until check_fn target_predicate interval attempts).
Proof.
  intros Hc. induction attempts as [|n IH]; simpl.
  - apply tame_ret.
  - intros w r w' HG H.
    destruct (check_fn w) as [[v|e|] w1] eqn:E;
      pose proof (Hc _ _ _ HG E) as H1.
    + assert (Hv : forall o : WaitOutcome, tamed Q w (Return o) w1)
        by (intros o; eapply tamed_returned; [exact H1 | discriminate]).
      destruct (target_predicate v); [injection H as <- <-; apply Hv|].
      destruct n; [injection H as <- <-; apply Hv|].
      eapply tamed_then; [apply (Hv Ready)|].
      assert (Hr : tame G Q (sleep interval;;
                   wait_until check_fn target_predicate interval (S n)))
        by (apply tame_bind; [apply tame_sleep | intros; apply IH]).
      apply Hr; [|exact H]. now rewrite (tamed_globals _ _ _ _ H1).
    + injection H as <- <-. eapply tamed_returned; [exact H1 | discriminate].
    + injection H as <- <-. eapply tamed_dead; exact H1.
Qed.

End Tame.

Lemma tame_waiter_wait G Q svc name kwargs cfg :
  (forall msg, Q (WaiterError msg)) ->
  tame G Q (waiter_wait svc name kwargs cfg).
Proof.
  intros HQ w r w' HG H. unfold waiter_wait in H.
  revert H. generalize (waiters w svc name). intros model H.
  assert (Ht : tame G Q
    (o <- wait_until (probe svc model kwargs) (target model)
            (default (delay model) (Delay cfg))
            (default (max_attempts model) (MaxAttempts cfg));;
     match o with
     | Ready => ret tt
     | TimedOut => raise (WaiterError "Max attempts exceeded")
     | RemoteError reason => raise (WaiterError reason)
     end)).
  { apply tame_bind.
    - apply tame_wait_until with (Q' := any_exn).
      apply tame_bind; [now apply tame_call|].
      intros response.
      destruct (failed model response); [now apply tame_raise | apply tame_ret].
    - intros []; [apply tame_ret | apply tame_raise | apply tame_raise]; auto. }
  exact (Ht _ _ _ HG H).
Qed.

Lemma def_stage fn body G Q R :
  tame G Q body -> returns R body -> forall w r w', G (globals w) ->
  def fn body w = (r, w') -> stage_run fn Q R w r w'.
Proof.
  intros Hb Hr w r w' HG H. unfold def in H.
  destruct (body (logs [Enter fn] w)) as [r0 w1] eqn:E.
  destruct (Hb (logs [Enter fn] w) _ _ HG E)
    as [Hf Hg (evs & [Hc Hw He Ht] & Hpl) Hq Ha].
  simpl in *.
  assert (Hx : forall tail, trace w1 ++ tail = trace w ++ Enter fn :: evs ++ tail).
  { intros tail. rewrite Ht, <- !app_assoc. reflexivity. }
  destruct r0 as [v|e|]; injection H as <- <-; split; simpl; auto;
    try discriminate.
  all: try (intros v' [= <-]; eapply Hr; eauto).
  all: try (intros Hk; destruct (Ha Hk); split; [assumption | discriminate]).
  all: exists evs; (split; [|assumption]); split; simpl; auto;
    unfold framed; rewrite <- ?Hx, ?app_nil_r; auto.
Qed.

(** ** Computations by the values they return *)

Lemma returns_ret {A} (R : A -> Prop) a : R a -> returns R (ret a).
Proof. intros HR w v w' [= <- <-]. exact HR. Qed.

Lemma returns_raise {A} (R : A -> Prop) e : returns R (raise e).
Proof. intros w v w' [=]. Qed.

Lemma returns_bind {A B} (R : B -> Prop) (m : M A) k :
  (forall a, returns R (k a)) -> returns R (bind m k).
Proof.
  intros Hk w v w' H. unfold bind in H.
  destruct (m w) as [[a|e|] w1]; try discriminate. eapply Hk; eauto.
Qed.

Lemma returns_try_catch {A} (R : A -> Prop) catches m h :
  returns R m -> (forall e, returns R (h e)) ->
  returns R (try_catch catches m h).
Proof.
  intros Hm Hh w v w' H. unfold try_catch in H.
  destruct (m w) as [[a|e|] w1] eqn:E; try discriminate.
  - injection H as <- <-. eapply Hm; eauto.
  - destruct (catches e); [eapply Hh; eauto | discriminate].
Qed.

Lemma returns_any {A} (m : M A) : returns (fun _ => True) m.
Proof. now intros w v w' _. Qed.

Lemma has_keys_idx keys v k :
  has_keys keys v -> k ∈ keys -> exists x, idx v k = ret x.
Proof.
  intros (d & -> & Hd) Hk. rewrite Forall_forall in Hd.
  destruct (Hd _ Hk) as [x Hx]. exists x. unfold idx, getitem.
  now rewrite Hx.
Qed.

(** ** Subscripts raise lookup errors only *)

Lemma getitem_error j k e : getitem j k = inl e -> lookup_error e.
Proof. destruct j; simpl; try destruct (_ !! _); intros [= <-]; exact I. Qed.

Lemma getindex_error j i e : getindex j i = inl e -> lookup_error e.
Proof. destruct j; simpl; try destruct (_ !! _); intros [= <-]; exact I. Qed.

Lemma iterate_error j e : iterate j = inl e -> lookup_error e.
Proof. destruct j; simpl; intros [= <-]; exact I. Qed.

Lemma each_item_error xs k e : each_item xs k = inl e -> lookup_error e.
Proof.
  induction xs as [|x xs IH]; simpl; [discriminate|].
  destruct (getitem x k) eqn:E; [intros [= <-]; eauto using getitem_error|].
  destruct (each_item xs k); [intros [= <-]; auto | discriminate].
Qed.

Lemma join_strs_error sep xs e : join_strs sep xs = inl e -> lookup_error e.
Proof.
  induction xs as [|x xs IH]; simpl; [discriminate|].
  destruct x; try (intros [= <-]; exact I).
  destruct xs; [discriminate|].
  destruct (join_strs sep (j :: xs)); [intros [= <-]; auto | discriminate].
Qed.

Lemma join_error sep j e : join sep j = inl e -> lookup_error e.
Proof.
  unfold join.
  destruct (iterate j) eqn:E; [intros [= <-]; eauto using iterate_error|].
  apply join_strs_error.
Qed.

Lemma find_zone_error zones d e :
  Deploy.find_zone zones d = inl e -> lookup_error e.
Proof.
  induction zones as [|z zs IH]; simpl; [discriminate|].
  destruct (getitem z "Name") eqn:E; [intros [= <-]; eauto using getitem_error|].
  destruct (_ || _); [discriminate | auto].
Qed.

Lemma last_segment_error j e : Deploy.last_segment j = inl e -> lookup_error e.
Proof. destruct j; simpl; intros [= <-]; exact I. Qed.

Lemma get_or_error j k f e : Deploy.get_or j k f = inl e -> lookup_error e.
Proof. destruct j; simpl; intros [= <-]; exact I. Qed.

Lemma as_str_error j e : Deploy.as_str j = inl e -> lookup_error e.
Proof. destruct j; simpl; intros [= <-]; exact I. Qed.

Create HintDb lookups.
#[export] Hint Resolve getitem_error getindex_error iterate_error
  each_item_error join_error find_zone_error last_segment_error get_or_error
  as_str_error : lookups.

Lemma tame_lookup {A} G Q (x : Exn + A) :
  (forall e, x = inl e -> lookup_error e) ->
  (forall e, lookup_error e -> Q e) -> tame G Q (lift x).
Proof. intros Hx HQ. apply tame_lift. auto. Qed.

Lemma tame_getenv G Q environ name :
  (forall e, lookup_error e -> Q e) -> tame G Q (Backup.getenv environ name).
Proof.
  intros HQ. unfold Backup.getenv. destruct (environ !! name);
    [apply tame_ret | apply tame_raise, HQ; exact I].
Qed.

(** ** The stages, one by one *)

Ltac tame_step :=
  lazymatch goal with
  | |- tame _ _ (bind _ _) => apply tame_bind; [ | intros ? ]
  | |- tame _ _ (ret _) => apply tame_ret
  | |- tame _ _ (raise _) => apply tame_raise
  | |- tame _ _ (print _) => apply tame_print
  | |- tame _ _ (sleep _) => apply tame_sleep
  | |- tame _ _ (call _ _ _) => apply tame_call
  | |- tame _ _ (idx _ _) => apply tame_lookup; [eauto with lookups | ]
  | |- tame _ _ (nth_ _ _) => apply tame_lookup; [eauto with lookups | ]
  | |- tame _ _ (lift _) => apply tame_lookup; [eauto with lookups | ]
  | |- tame _ _ (Backup.getenv _ _) => apply tame_getenv
  | |- tame _ _ uuid4_hex => apply tame_uuid4_hex
  | |- tame _ _ uuid4_str => apply tame_uuid4_str
  | |- tame _ _ (read_global _) => apply tame_read_global
  | |- tame _ _ (waiter_wait _ _ _ _) => apply tame_waiter_wait
  | |- tame _ _ (for_each _ _) => apply tame_for_each; intros ?
  | |- tame _ _ (for_fold _ _ _) =>
      apply tame_for_fold; intros ? ?;
      repeat match goal with p : (_ * _)%type |- _ => destruct p end;
      cbv beta iota
  | |- tame _ _ (try_except _ _) =>
      apply tame_try_catch with (Q' := caught);
      [ | intros ? | intros ? ? ?; hnf in *; congruence ]
  | |- tame _ _ (Deploy.ledger_get _ _) => unfold Deploy.ledger_get
  | |- tame _ _ (Deploy.create_backup_bucket _) =>
      unfold Deploy.create_backup_bucket
  | |- tame _ _ (Deploy.create_lambda_role _) =>
      unfold Deploy.create_lambda_role
  | |- tame _ _ (Deploy.schedule_backup _ _ _ _ _ _) =>
      unfold Deploy.schedule_backup
  | |- tame _ _ (Deploy.configure_dns_try _ _) =>
      unfold Deploy.configure_dns_try
  | |- tame _ _ (match ?x with _ => _ end) => destruct x
  | |- tame _ _ _ => progress cbv zeta
  end.

Ltac tame_side :=
  try solve
    [ intros; hnf; intros;
      first [exact I | reflexivity | discriminate | contradiction]
    | intros [] ?; hnf in *; intros;
      first [exact I | reflexivity | discriminate | contradiction]
    | intros ? [? ?] ?; congruence ].

Ltac tame_tac := repeat tame_step; tame_side.

Ltac returns_step :=
  lazymatch goal with
  | |- returns _ (bind _ _) => apply returns_bind; intros ?
  | |- returns _ (raise _) => apply returns_raise
  | |- returns _ (match ?x with _ => _ end) => destruct x
  | |- returns _ _ => progress cbv zeta
  end.

Ltac has_keys_tac :=
  eexists; split; [reflexivity|];
  repeat constructor; eexists; vm_compute; reflexivity.

Ltac returns_tac :=
  repeat returns_step; try (apply returns_ret; has_keys_tac).

Lemma create_vpc_run w r w' :
  Iac.create_vpc w = (r, w') ->
  stage_run "create_vpc" not_NameError (has_keys ["vpc_id"; "subnets"]) w r w'.
Proof.
  apply (def_stage _ _ anything); [tame_tac | returns_tac | exact I].
Qed.

Lemma create_security_groups_run vpc_id w r w' :
  Iac.create_security_groups vpc_id w = (r, w') ->
  stage_run "create_security_groups" not_NameError
    (has_keys ["alb_sg_id"; "backend_sg_id"]) w r w'.
Proof.
  apply (def_stage _ _ anything); [tame_tac | returns_tac | exact I].
Qed.

Lemma create_iam_role_run w r w' :
  Iac.create_iam_role w = (r, w') ->
  stage_run "create_iam_role" not_NameError
    (has_keys ["instance_profile_name"]) w r w'.
Proof.
  apply (def_stage _ _ anything); [tame_tac | returns_tac | exact I].
Qed.

Lemma create_launch_template_run a b w r w' :
  Iac.create_launch_template a b w = (r, w') ->
  stage_run "create_launch_template" not_NameError (has_keys ["lt_id"])
    w r w'.
Proof.
  apply (def_stage _ _ anything); [tame_tac | returns_tac | exact I].
Qed.

Lemma create_load_balancer_run a b w r w' :
  vpc_id_assigned (globals w) ->
  Iac.create_load_balancer a b w = (r, w') ->
  stage_run "create_load_balancer" not_NameError
    (has_keys ["hello_tg_arn"; "profile_tg_arn"]) w r w'.
Proof.
  intros HG.
  apply (def_stage _ _ vpc_id_assigned); [tame_tac | returns_tac | exact HG].
Qed.

Lemma create_auto_scaling_group_run a b c w r w' :
  Iac.create_auto_scaling_group a b c w = (r, w') ->
  stage_run "create_auto_scaling_group" not_NameError (fun _ => True) w r w'.
Proof.
  apply (def_stage _ _ anything); [tame_tac | apply returns_any | exact I].
Qed.

Lemma deploy_backend_services_run w r w' :
  Deploy.deploy_backend_services w = (r, w') ->
  stage_run "deploy_backend_services" caught (fun _ => True) w r w'.
Proof.
  apply (def_stage _ _ anything); [tame_tac | apply returns_any | exact I].
Qed.

Lemma set_up_load_balancer_run w r w' :
  Deploy.set_up_load_balancer w = (r, w') ->
  stage_run "set_up_load_balancer" caught (has_keys ["alb_dns"]) w r w'.
Proof.
  apply (def_stage _ _ anything); [tame_tac | returns_tac | exact I].
Qed.

Lemma configure_dns_run domain_name alb_dns w r w' :
  Deploy.configure_dns domain_name alb_dns w = (r, w') ->
  stage_run "configure_dns" no_exn (fun _ => True) w r w'.
Proof.
  apply (def_stage _ _ anything); [tame_tac | apply returns_any | exact I].
Qed.

Lemma deploy_frontend_run w r w' :
  Deploy.deploy_frontend w = (r, w') ->
  stage_run "deploy_frontend" caught (fun _ => True) w r w'.
Proof.
  apply (def_stage _ _ anything); [tame_tac | apply returns_any | exact I].
Qed.

Lemma create_lambda_functions_run w r w' :
  Deploy.create_lambda_functions w = (r, w') ->
  stage_run "create_lambda_functions" caught (fun _ => True) w r w'.
Proof.
  apply (def_stage _ _ anything); [tame_tac | apply returns_any | exact I].
Qed.

(** ** Skeletons and replays *)

Lemma skeleton_app evs1 evs2 :
  skeleton (evs1 ++ evs2) = skeleton evs1 ++ skeleton evs2.
Proof.
  induction evs1 as [|[] evs1 IH]; simpl; auto; now rewrite IH.
Qed.

Lemma skeleton_plain evs : Forall plain evs -> skeleton evs = [].
Proof.
  induction 1 as [|[] evs Hp _ IH]; simpl; auto; contradiction.
Qed.

Lemma replay_app fs evs1 evs2 :
  replay fs (evs1 ++ evs2) = replay (replay fs evs1) evs2.
Proof. apply foldl_app. Qed.

Lemma replay_plain fs evs : Forall plain evs -> replay fs evs = fs.
Proof.
  intros H. revert fs.
  induction H as [|[] evs Hp _ IH]; simpl; auto; contradiction.
Qed.

Lemma replay_skeleton fs evs : replay fs (skeleton evs) = replay fs evs.
Proof.
  revert fs. induction evs as [|[] evs IH]; simpl; auto.
Qed.

Lemma replay_flush fs p doc :
  replay fs [Truncate p; Dump p doc; Close p] = <[p := Complete doc]> fs.
Proof.
  unfold replay; simpl. rewrite lookup_insert_eq.
  now rewrite !insert_insert_eq.
Qed.

Lemma entered_app evs1 evs2 : entered (evs1 ++ evs2) = entered evs1 ++ entered evs2.
Proof. induction evs1 as [|[] evs1 IH]; simpl; auto; now rewrite IH. Qed.

Lemma returned_app evs1 evs2 :
  returned (evs1 ++ evs2) = returned evs1 ++ returned evs2.
Proof. induction evs1 as [|[] evs1 IH]; simpl; auto; now rewrite IH. Qed.

Lemma file_events_app evs1 evs2 :
  file_events (evs1 ++ evs2) = file_events evs1 ++ file_events evs2.
Proof. induction evs1 as [|[] evs1 IH]; simpl; auto; now rewrite IH. Qed.

Lemma entered_skeleton evs : entered (skeleton evs) = entered evs.
Proof. induction evs as [|[] evs IH]; simpl; auto; now rewrite IH. Qed.

Lemma returned_skeleton evs : returned (skeleton evs) = returned evs.
Proof. induction evs as [|[] evs IH]; simpl; auto; now rewrite IH. Qed.

Lemma file_events_skeleton evs : file_events (skeleton evs) = file_events evs.
Proof. induction evs as [|[] evs IH]; simpl; auto; now rewrite IH. Qed.

(** ** Writing a file, effect by effect *)

(** A run of [write_json]: it stops after [n] of its three effects, and
    only a process that can be killed stops early. *)
Lemma write_json_run path doc w r w' :
  write_json path doc w = (r, w') ->
  globals w' = globals w /\
  (kill_after w = None -> kill_after w' = None) /\
  exists n,
    extends w (take n [Truncate path; Dump path doc; Close path]) w' /\
    files w' = replay (files w) (take n [Truncate path; Dump path doc; Close path]) /\
    match r with
    | Return _ => n = 3
    | Raise _ => False
    | Killed => n < 3 /\ kill_after w <> None
    end.
Proof.
  unfold write_json, bind, open_w, json_dump, close, tick.
  destruct (kill_after w) as [[|[|[|k]]]|] eqn:E; simpl;
    repeat (progress (rewrite ?E; simpl));
    rewrite ?lookup_insert_eq; intros [= <- <-]; simpl;
    (split; [reflexivity|]); (split; [try discriminate; auto|]).
  - exists 0. repeat split; simpl; auto using app_nil_r; try lia; discriminate.
  - exists 1. repeat split; simpl; auto; try lia; discriminate.
  - exists 2. repeat split; simpl; rewrite <- ?app_assoc; auto; try lia; discriminate.
  - exists 3. repeat split; simpl; rewrite <- ?app_assoc; auto.
    unfold replay; simpl. now rewrite lookup_insert_eq.
  - exists 3. repeat split; simpl; rewrite <- ?app_assoc; auto.
    unfold replay; simpl. now rewrite lookup_insert_eq.
Qed.

(** ** Stepping through a script *)

Lemma bind_inv {A B} (m : M A) (k : A -> M B) w r w' :
  bind m k w = (r, w') ->
  (exists a w1, m w = (Return a, w1) /\ k a w1 = (r, w')) \/
  (exists e, m w = (Raise e, w') /\ r = Raise e) \/
  (m w = (Killed, w') /\ r = Killed).
Proof.
  unfold bind. destruct (m w) as [[a|e|] w1]; intros H.
  - left. eauto.
  - injection H as <- <-. right. left. eauto.
  - injection H as <- <-. right. right. eauto.
Qed.

Lemma progress_start w : progress w [] w.
Proof.
  split; [reflexivity|]. split; [auto|].
  exists []. split; [apply extends_refl | reflexivity].
Qed.

Lemma progress_tamed {A} Q w sk w1 (r : Result A) w2 :
  progress w sk w1 -> tamed Q w1 r w2 -> progress w sk w2.
Proof.
  intros (Hf & Hk & evs & He & Hs) [Hf' Hg' (evs' & He' & Hp') _ Ha'].
  split; [congruence|]. split.
  - intros H. now apply Ha', Hk.
  - exists (evs ++ evs'). split; [eapply extends_trans; eauto|].
    rewrite skeleton_app, (skeleton_plain _ Hp'), app_nil_r. exact Hs.
Qed.

Lemma progress_global w sk w1 name v :
  progress w sk w1 -> progress w sk (set_global name v w1).
Proof.
  intros (Hf & Hk & evs & [Hc Hw He Ht] & Hs).
  split; [exact Hf|]. split; [exact Hk|].
  exists evs. split; [split; simpl; auto | exact Hs].
Qed.

Lemma skeleton_framed fn evs r :
  Forall plain evs ->
  skeleton (framed fn evs r)
  = Enter fn :: match r with Return v => [Leave fn v] | _ => [] end.
Proof.
  intros Hp. unfold framed. simpl. rewrite skeleton_app, (skeleton_plain _ Hp).
  destruct r; reflexivity.
Qed.

Lemma progress_stage fn Q R w sk w1 r w2 :
  progress w sk w1 -> stage_run fn Q R w1 r w2 ->
  progress w
    (sk ++ Enter fn :: match r with Return v => [Leave fn v] | _ => [] end)
    w2.
Proof.
  intros (Hf & Hk & evs & He & Hs) [Hf' Hg' (evs' & He' & Hp') _ Ha' _].
  split; [congruence|]. split.
  - intros H. now apply Ha', Hk.
  - eexists. split; [eapply extends_trans; eauto|].
    rewrite skeleton_app, skeleton_framed, Hs; auto.
Qed.

Lemma progress_files w sk w1 :
  progress w sk w1 -> Forall (fun e => file_events [e] = []) sk ->
  files w1 = replay (files w) sk.
Proof.
  intros (Hf & _) Hs. rewrite Hf. clear Hf. generalize (files w).
  induction Hs as [|e sk He _ IH]; intros fs; [reflexivity|].
  unfold replay in *. simpl. rewrite <- IH. destruct e; simpl in *; auto; discriminate.
Qed.

(** ** The defs that write the ledger *)

Lemma print_tamed parts w r w' :
  print parts w = (r, w') -> tamed no_exn w r w'.
Proof. intros H. exact (tame_print anything no_exn parts w r w' I H). Qed.

Lemma flush_body_run fn path doc msg w r w' :
  (write_json path doc;; print msg;; ret JNull) (logs [Enter fn] w) = (r, w') ->
  (kill_after w = None -> kill_after w' = None) /\
  exists evs n,
    n <= 3 /\
    extends w (Enter fn :: evs) w' /\
    skeleton evs = take n [Truncate path; Dump path doc; Close path] /\
    files w' = replay (files w) evs /\
    match r with
    | Return v => n = 3 /\ v = JNull
    | Raise _ => False
    | Killed => kill_after w <> None
    end.
Proof.
  intros H. apply bind_inv in H.
  assert (Hx : forall w1 evs, extends (logs [Enter fn] w) evs w1 ->
               extends w (Enter fn :: evs) w1).
  { intros w1 evs [Hc Hw He Ht]. split; auto.
    rewrite Ht. simpl. now rewrite <- app_assoc. }
  destruct H as [(a & w1 & E & H) | [(e & E & ->) | (E & ->)]];
    apply write_json_run in E; destruct E as (Hg & Hk & n & He & Hf & Hr);
    try contradiction.
  - subst n. apply bind_inv in H.
    assert (Hy : forall (r0 : Result unit) w2,
      tamed no_exn w1 r0 w2 ->
      (kill_after w = None -> kill_after w2 = None /\ r0 <> Killed) /\
      exists evs,
        extends w (Enter fn :: evs) w2 /\
        skeleton evs = take 3 [Truncate path; Dump path doc; Close path] /\
        files w2 = replay (files w) evs).
    { intros r0 w2 [Hf' Hg' (evs' & He' & Hp') Hq' Ha']. split.
      - intros Hn. now apply Ha', Hk.
      - exists (take 3 [Truncate path; Dump path doc; Close path] ++ evs').
        split; [apply Hx; eapply extends_trans; eauto|].
        split; [rewrite skeleton_app, (skeleton_plain _ Hp'); reflexivity|].
        rewrite replay_app, (replay_plain _ _ Hp'). simpl in *. congruence. }
    destruct H as [(a' & w2 & E & H) | [(e & E & ->) | (E & ->)]];
      pose proof (print_tamed _ _ _ _ E) as Ht;
      destruct (Hy _ _ Ht) as (Hn & evs & Hev & Hsk & Hfi).
    + injection H as <- <-. split; [intros; now apply Hn|].
      exists evs, 3. split; [lia|]. now repeat (split; [assumption|]).
    + destruct Ht as [_ _ _ Hq _]. destruct (Hq e eq_refl).
    + split; [intros; now apply Hn|].
      exists evs, 3. split; [lia|]. repeat (split; [assumption|]).
      intros Hnone. destruct (Hn Hnone) as [_ Hd]. now apply Hd.
  - split; [auto|]. exists (take n [Truncate path; Dump path doc; Close path]), n.
    split; [lia|]. split; [apply Hx; exact He|].
    split; [|split; [exact Hf | tauto]].
    destruct n as [|[|[|n]]]; try reflexivity. lia.
Qed.

Lemma flush_def_run fn doc msg w r w' :
  def fn (write_json ledger_file doc;; print msg;; ret JNull) w = (r, w') ->
  flush_run fn doc w r w'.
Proof.
  unfold def. intros H.
  destruct ((write_json ledger_file doc;; print msg;; ret JNull)
              (logs [Enter fn] w)) as [r0 w1] eqn:E.
  apply flush_body_run in E.
  destruct E as (Hk & evs & n & Hn & He & Hs & Hf & Hr).
  destruct r0 as [v|e|]; try contradiction; injection H as <- <-.
  - destruct Hr as [-> ->]. split; [exact Hk|].
    exists (Enter fn :: evs ++ [Leave fn JNull]), 5. split; [lia|].
    split; [|split; [|split; [|auto]]].
    + destruct He as [Hc Hw Hen Ht]. split; simpl; auto.
      rewrite Ht. now rewrite <- app_assoc.
    + simpl. rewrite skeleton_app, Hs. reflexivity.
    + simpl. rewrite Hf. unfold replay. simpl. now rewrite foldl_app.
  - split; [exact Hk|]. exists (Enter fn :: evs), (S n).
    split; [lia|]. split; [exact He|].
    split; [simpl; rewrite Hs; destruct n as [|[|[|[|n]]]]; try reflexivity; lia|].
    split; [exact Hf|]. split; [lia | exact Hr].
Qed.

Lemma save_infrastructure_details_run doc w r w' :
  Iac.save_infrastructure_details doc w = (r, w') ->
  flush_run "save_infrastructure_details" doc w r w'.
Proof. apply flush_def_run. Qed.

(** ** Runs of a pipeline script *)

Lemma length_completed done : length (completed done) = 2 * length done.
Proof.
  induction done as [|[fn v] done IH]; simpl; [reflexivity|].
  rewrite IH. lia.
Qed.

Lemma completed_markers done : Forall marker (completed done).
Proof.
  induction done as [|[fn v] done IH]; simpl; repeat constructor; auto.
Qed.

Lemma replay_markers fs sk : Forall marker sk -> replay fs sk = fs.
Proof.
  induction 1 as [|[] sk Hm _ IH]; simpl; auto; contradiction.
Qed.

Lemma length_stage_values (stages : list (string * string))
    (values : list Json) :
  length values = length stages ->
  length (completed (zip stages.*1 values)) = 2 * length stages.
Proof.
  intros H. rewrite length_completed, length_zip_with, length_fmap. lia.
Qed.

Lemma pipeline_prefix_markers stages values flush doc n :
  length values = length stages -> n <= 2 * length stages + 1 ->
  Forall marker (take n (pipeline stages values flush doc)).
Proof.
  intros Hl Hn. unfold pipeline. rewrite take_app.
  rewrite (length_stage_values _ _ Hl). apply Forall_app. split.
  - apply Forall_take, completed_markers.
  - assert (n - 2 * length stages = 0 \/ n - 2 * length stages = 1)
      as [-> | ->] by lia; simpl; repeat constructor.
Qed.

Lemma pipeline_stopped stages flush doc_of w (r : Result unit) w' sk values n :
  progress w sk w' -> length values = length stages ->
  sk = take n (pipeline stages values flush (doc_of values)) ->
  n <= 2 * length stages + 1 ->
  match r with
  | Return _ => False
  | Raise _ => exists k, n = 2 * k + 1 /\ k < length stages
  | Killed => kill_after w <> None /\
              forall k, 1 <= k <= length stages -> n <> 2 * k
  end ->
  pipeline_run stages flush doc_of w r w'.
Proof.
  intros (Hf & Hk & evs & He & Hs) Hl -> Hn Hr.
  exists evs, values, n. split; [exact Hl|]. split; [exact He|].
  split; [|split; [exact Hs|]].
  - rewrite Hf, <- replay_skeleton, Hs.
    symmetry. now apply replay_markers, pipeline_prefix_markers.
  - destruct r; [contradiction | exact Hr |].
    destruct Hr as [Hr1 Hr2]. split; [exact Hr1|]. split; [lia | exact Hr2].
Qed.

Lemma pipeline_flush stages flush doc_of w values w1 r1 w2 :
  progress w (completed (zip stages.*1 values)) w1 ->
  length values = length stages ->
  flush_run flush (doc_of values) w1 r1 w2 ->
  (kill_after w = None -> kill_after w2 = None) /\
  exists evs n,
    1 <= n /\ extends w evs w2 /\
    skeleton evs
    = take (2 * length stages + n)
        (pipeline stages values flush (doc_of values)) /\
    files w2 = replay (files w) evs /\
    match r1 with
    | Return v => n = 5 /\ v = JNull
    | Raise _ => False
    | Killed => n < 5 /\ kill_after w <> None
    end.
Proof.
  intros (Hf & Hk & evs & He & Hs) Hl (Hk' & evs' & n & Hn & He' & Hs' & Hf' & Hr).
  split; [auto|]. exists (evs ++ evs'), n. split; [exact Hn|].
  split; [eapply extends_trans; eauto|]. split; [|split].
  - rewrite skeleton_app, Hs, Hs'. unfold pipeline.
    pose proof (length_stage_values _ _ Hl) as Hc.
    rewrite take_app.
    rewrite (take_ge (completed (zip stages.*1 values))) by (rewrite Hc; lia).
    rewrite Hc.
    f_equal. f_equal. lia.
  - rewrite replay_app, Hf', Hf. f_equal.
    rewrite <- replay_skeleton, Hs. symmetry.
    apply replay_markers, completed_markers.
  - destruct r1; auto. destruct Hr as [Hr1 Hr2]. split; [exact Hr1|].
    intros Hnone. apply Hr2. auto.
Qed.

Lemma pipeline_finished stages flush doc_of w values w1 w2 (r : Result unit) w' :
  progress w (completed (zip stages.*1 values)) w1 ->
  length values = length stages ->
  flush_run flush (doc_of values) w1 (Return JNull) w2 ->
  tamed no_exn w2 r w' ->
  pipeline_run stages flush doc_of w r w'.
Proof.
  intros P Hl F [Hf' Hg' (evs' & He' & Hp') Hq' Ha'].
  destruct (pipeline_flush _ _ _ _ _ _ _ _ P Hl F)
    as (Hk & evs & n & Hn & He & Hs & Hf & [-> _]).
  exists (evs ++ evs'), values, (2 * length stages + 5).
  split; [exact Hl|]. split; [eapply extends_trans; eauto|].
  split; [|split].
  - rewrite replay_app, (replay_plain _ _ Hp'). congruence.
  - now rewrite skeleton_app, (skeleton_plain _ Hp'), app_nil_r.
  - destruct r as [?|e|]; [reflexivity | destruct (Hq' e eq_refl) |].
    split; [|split; [lia | intros k Hk'; lia]].
    intros Hnone. destruct (Ha' (Hk Hnone)) as [_ Hd]. now apply Hd.
Qed.

Lemma pipeline_flush_killed stages flush doc_of w values w1 w' :
  progress w (completed (zip stages.*1 values)) w1 ->
  length values = length stages ->
  flush_run flush (doc_of values) w1 Killed w' ->
  pipeline_run stages flush doc_of w Killed w'.
Proof.
  intros P Hl F.
  destruct (pipeline_flush _ _ _ _ _ _ _ _ P Hl F)
    as (Hk & evs & n & Hn & He & Hs & Hf & Hn' & Hnone).
  exists evs, values, (2 * length stages + n).
  split; [exact Hl|]. split; [exact He|]. split; [exact Hf|].
  split; [exact Hs|]. split; [exact Hnone|]. split; [lia|].
  intros k Hk'. lia.
Qed.

Lemma step_tamed {A B} Q (m : M A) (k : A -> M B) w0 sk w r w' :
  tame anything Q m -> progress w0 sk w -> bind m k w = (r, w') ->
  (exists a w1, progress w0 sk w1 /\ globals w1 = globals w /\
                k a w1 = (r, w')) \/
  (exists e, r = Raise e /\ Q e /\ progress w0 sk w') \/
  (r = Killed /\ kill_after w0 <> None /\ progress w0 sk w').
Proof.
  intros Hm P H. apply bind_inv in H.
  destruct H as [(a & w1 & E & H) | [(e & E & ->) | (E & ->)]];
    pose proof (Hm _ _ _ I E) as T;
    pose proof (progress_tamed _ _ _ _ _ _ P T) as P1.
  - left. exists a, w1. split; [exact P1|]. split; [apply T | exact H].
  - right. left. exists e. split; [reflexivity|]. split; [now apply T | exact P1].
  - right. right. split; [reflexivity|]. split; [|exact P1].
    intros Hn. destruct P as (_ & Hk & _).
    destruct (tamed_alive _ _ _ _ T (Hk Hn)) as [_ Hd]. now apply Hd.
Qed.

Lemma step_stage fn Q R (m : M Json) {B} (k : Json -> M B) w0 sk w r w' :
  (forall r1 w1, m w = (r1, w1) -> stage_run fn Q R w r1 w1) ->
  progress w0 sk w -> bind m k w = (r, w') ->
  (exists v w1, R v /\ progress w0 (sk ++ [Enter fn; Leave fn v]) w1 /\
                globals w1 = globals w /\ k v w1 = (r, w')) \/
  (exists e, r = Raise e /\ Q e /\ progress w0 (sk ++ [Enter fn]) w') \/
  (r = Killed /\ kill_after w0 <> None /\ progress w0 (sk ++ [Enter fn]) w').
Proof.
  intros Hm P H. apply bind_inv in H.
  destruct H as [(a & w1 & E & H) | [(e & E & ->) | (E & ->)]];
    pose proof (Hm _ _ E) as T;
    pose proof (progress_stage _ _ _ _ _ _ _ _ P T) as P1.
  - left. exists a, w1. split; [now apply T|]. split; [exact P1|].
    split; [apply T | exact H].
  - right. left. exists e. split; [reflexivity|]. split; [now apply T | exact P1].
  - right. right. split; [reflexivity|]. split; [|exact P1].
    intros Hn. destruct P as (_ & Hk & _).
    destruct (stage_alive _ _ _ _ _ _ T (Hk Hn)) as [_ Hd]. now apply Hd.
Qed.

Lemma step_idx {B} keys v key (k : Json -> M B) w r w' :
  has_keys keys v -> key ∈ keys -> bind (idx v key) k w = (r, w') ->
  exists x, getitem v key = inr x /\ k x w = (r, w').
Proof.
  intros (d & -> & Hd) Hk H. rewrite Forall_forall in Hd.
  destruct (Hd _ Hk) as [x Hx]. exists x.
  unfold bind, idx, getitem in *. rewrite Hx in *. simpl in H. auto.
Qed.

Lemma step_write_global {B} name v (k : unit -> M B) w r w' :
  bind (write_global name v) k w = (r, w') ->
  k tt (set_global name v w) = (r, w').
Proof. exact (fun H => H). Qed.

Lemma step_read_global {B} name v (k : Json -> M B) w r w' :
  globals w !! name = Some v -> bind (read_global name) k w = (r, w') ->
  k v w = (r, w').
Proof. unfold bind, read_global. now intros ->. Qed.

Ltac stopped P vals n :=
  eapply (pipeline_stopped _ _ _ _ _ _ _ vals n);
  [ exact P | reflexivity | reflexivity | simpl; lia | ].

Ltac in_keys := simpl; rewrite ?elem_of_cons; auto 10.

Ltac stop_raise P vals n k := stopped P vals n; exists k; simpl; lia.

Ltac stop_kill P vals n :=
  stopped P vals n; split; [assumption | intros ? ?; simpl in *; lia].

(** One stage of a script: either it returns and the script goes on, or the
    run stops in it, after [n] events of the skeleton. *)
Ltac stage_step lemma P H vals n k v w1 R1 P1 G1 H1 :=
  destruct (step_stage _ _ _ _ _ _ _ _ _ _ lemma P H)
    as [(v & w1 & R1 & P1 & G1 & H1) | [(? & -> & ? & P1) | (-> & ? & P1)]];
  [ clear H P
  | first [ split; [stop_raise P1 vals n k
                   | intros ? [= <-]; first [assumption | contradiction]]
          | stop_raise P1 vals n k ]
  | first [ split; [stop_kill P1 vals n | discriminate]
          | stop_kill P1 vals n ] ].

Ltac idx_step R key H x Hx H1 :=
  destruct (step_idx _ _ key _ _ _ _ R ltac:(in_keys) H) as (x & Hx & H1);
  clear H.

Lemma Iac_main_run w r w' :
  Iac.main w = (r, w') ->
  pipeline_run Iac.stages "save_infrastructure_details"
    (fun values => JDict (outputs Iac.stages values)) w r w' /\
  (forall e, r = Raise e -> not_NameError e).
Proof.
  intros H. unfold Iac.main in H. pose proof (progress_start w) as P.
  destruct (step_tamed no_exn _ _ _ _ _ _ _ (tame_print _ _ _) P H)
    as [(a & w0 & P0 & G0 & H0) | [(e & -> & [] & _) | (-> & Hk & P0)]];
    clear H P.
  2:{ split; [|discriminate].
      stopped P0 [JNull; JNull; JNull; JNull; JNull; JNull] 0.
      split; [exact Hk | intros k Hk'; simpl in *; lia]. }
  stage_step (create_vpc_run w0) P0 H0
    [JNull; JNull; JNull; JNull; JNull; JNull] 1 0 v1 w1 R1 P1 G1 H1.
  idx_step R1 "vpc_id" H1 vpc_id Hvpc H2.
  apply step_write_global in H2.
  apply (step_read_global _ vpc_id) in H2; [|apply lookup_insert_eq].
  apply (progress_global _ _ _ "vpc_id" vpc_id) in P1.
  stage_step (create_security_groups_run vpc_id (set_global "vpc_id" vpc_id w1))
    P1 H2 [v1; JNull; JNull; JNull; JNull; JNull] 3 1 v2 w2 R2 P2 G2 H3.
  stage_step (create_iam_role_run w2) P2 H3
    [v1; v2; JNull; JNull; JNull; JNull] 5 2 v3 w3 R3 P3 G3 H4.
  idx_step R2 "backend_sg_id" H4 backend_sg_id Hb H5.
  idx_step R3 "instance_profile_name" H5 profile_name Hp H6.
  stage_step (create_launch_template_run backend_sg_id profile_name w3) P3 H6
    [v1; v2; v3; JNull; JNull; JNull] 7 3 v4 w4 R4 P4 G4 H7.
  idx_step R1 "subnets" H7 subnets Hs H8.
  idx_step R2 "alb_sg_id" H8 alb_sg_id Ha H9.
  assert (HG : vpc_id_assigned (globals w4)).
  { rewrite G4, G3, G2. simpl. exists vpc_id. apply lookup_insert_eq. }
  stage_step (fun r1 w1 => create_load_balancer_run subnets alb_sg_id w4 r1 w1 HG)
    P4 H9 [v1; v2; v3; v4; JNull; JNull] 9 4 v5 w5 R5 P5 G5 H10.
  idx_step R4 "lt_id" H10 lt_id Hl H11.
  idx_step R1 "subnets" H11 subnets' Hs' H12.
  idx_step R5 "hello_tg_arn" H12 hello Hh H13.
  idx_step R5 "profile_tg_arn" H13 profile Hpr H14.
  stage_step (create_auto_scaling_group_run lt_id subnets'
                (JList [hello; profile]) w5) P5 H14
    [v1; v2; v3; v4; v5; JNull] 11 5 v6 w6 R6 P6 G6 H15.
  apply step_write_global in H15.
  apply (progress_global _ _ _ "infrastructure"
           (dict [("vpc", v1); ("security_groups", v2); ("iam", v3);
                  ("launch_template", v4); ("load_balancer", v5);
                  ("auto_scaling_group", v6)])) in P6.
  apply bind_inv in H15.
  destruct H15 as [(a' & w7 & E & H) | [(e & E & ->) | (E & ->)]];
    apply save_infrastructure_details_run in E.
  - assert (a' = JNull) as -> by (now destruct E as (_ & ? & ? & _ & _ & _ & _ & _ & ?)).
    split.
    + eapply (pipeline_finished _ _ _ _ [v1; v2; v3; v4; v5; v6]);
        [exact P6 | reflexivity | exact E | exact (print_tamed _ _ _ _ H)].
    + intros e ->. destruct (tamed_raise _ _ _ _ (print_tamed _ _ _ _ H) e eq_refl).
  - now destruct E as (_ & ? & ? & _ & _ & _ & _ & ?).
  - split; [|discriminate].
    eapply (pipeline_flush_killed _ _ _ _ [v1; v2; v3; v4; v5; v6]);
      [exact P6 | reflexivity | exact E].
Qed.

Lemma flush_run_from fn doc w0 w r w' :
  cloud w0 = cloud w -> waiters w0 = waiters w -> entropy w0 = entropy w ->
  trace w0 = trace w -> files w0 = files w -> kill_after w0 = kill_after w ->
  flush_run fn doc w0 r w' -> flush_run fn doc w r w'.
Proof.
  intros Hc Hw He Ht Hf Hk (Ha & evs & n & Hn & [Hc' Hw' He' Ht'] & Hs & Hf' & Hr).
  split; [now rewrite <- Hk|]. exists evs, n. split; [exact Hn|].
  split; [split; congruence|]. split; [exact Hs|]. split; [congruence|].
  destruct r; auto. now rewrite <- Hk.
Qed.

Lemma update_infrastructure_details_run n d w r w' :
  globals w !! "infrastructure" = Some (JDict d) ->
  Deploy.update_infrastructure_details (JDict n) w = (r, w') ->
  flush_run "update_infrastructure_details" (JDict (n ∪ d)) w r w' /\
  globals w' = <["infrastructure" := JDict (n ∪ d)]> (globals w).
Proof.
  intros Hg H.
  assert (E : Deploy.update_infrastructure_details (JDict n) w
    = def "update_infrastructure_details"
        (write_json ledger_file (JDict (n ∪ d));;
         print [JStr "Updated infrastructure details saved to infrastructure_details.json"];;
         ret JNull)
        (set_global "infrastructure" (JDict (n ∪ d)) w)).
  { unfold Deploy.update_infrastructure_details, def, bind, read_global,
      write_global. simpl. rewrite Hg. simpl. rewrite lookup_insert_eq.
    reflexivity. }
  rewrite E in H. split.
  - apply flush_def_run in H.
    eapply flush_run_from; [..|exact H]; reflexivity.
  - unfold def in H.
    destruct ((write_json ledger_file (JDict (n ∪ d));;
         print [JStr "Updated infrastructure details saved to infrastructure_details.json"];;
         ret JNull)
        (logs [Enter "update_infrastructure_details"]
           (set_global "infrastructure" (JDict (n ∪ d)) w))) as [r0 w1] eqn:E1.
    assert (Hw1 : globals w1 = <["infrastructure" := JDict (n ∪ d)]> (globals w)).
    { apply bind_inv in E1.
      destruct E1 as [(a & w2 & E2 & E1) | [(e & E2 & ->) | (E2 & ->)]];
        apply write_json_run in E2; destruct E2 as (Hg2 & _); simpl in Hg2;
        [|exact Hg2..].
      apply bind_inv in E1.
      destruct E1 as [(a' & w3 & E3 & E1) | [(e & E3 & ->) | (E3 & ->)]];
        apply print_tamed in E3; destruct E3 as [_ Hg3 _ _ _].
      - injection E1 as <- <-. congruence.
      - congruence.
      - congruence. }
    destruct r0; injection H as <- <-; exact Hw1.
Qed.

Lemma Deploy_main_run d w r w' :
  globals w !! "infrastructure" = Some (JDict d) ->
  Deploy.main w = (r, w') ->
  pipeline_run Deploy.stages "update_infrastructure_details"
    (fun values => JDict (outputs Deploy.stages values ∪ d)) w r w' /\
  (forall e, r = Raise e -> caught e).
Proof.
  intros Hd H. unfold Deploy.main in H. pose proof (progress_start w) as P.
  destruct (step_tamed no_exn _ _ _ _ _ _ _ (tame_print _ _ _) P H)
    as [(a & w0 & P0 & G0 & H0) | [(e & -> & [] & _) | (-> & Hk & P0)]];
    clear H P.
  2:{ split; [|discriminate].
      stopped P0 [JNull; JNull; JNull; JNull; JNull] 0.
      split; [exact Hk | intros k Hk'; simpl in *; lia]. }
  stage_step (deploy_backend_services_run w0) P0 H0
    [JNull; JNull; JNull; JNull; JNull] 1 0 v1 w1 R1 P1 G1 H1.
  stage_step (set_up_load_balancer_run w1) P1 H1
    [v1; JNull; JNull; JNull; JNull] 3 1 v2 w2 R2 P2 G2 H2.
  idx_step R2 "alb_dns" H2 alb_dns Ha H3.
  stage_step (configure_dns_run Deploy.domain_name alb_dns w2) P2 H3
    [v1; v2; JNull; JNull; JNull] 5 2 v3 w3 R3 P3 G3 H4.
  stage_step (deploy_frontend_run w3) P3 H4
    [v1; v2; v3; JNull; JNull] 7 3 v4 w4 R4 P4 G4 H5.
  stage_step (create_lambda_functions_run w4) P4 H5
    [v1; v2; v3; v4; JNull] 9 4 v5 w5 R5 P5 G5 H6.
  assert (Hd5 : globals w5 !! "infrastructure" = Some (JDict d))
    by (rewrite G5, G4, G3, G2, G1, G0; exact Hd).
  apply bind_inv in H6.
  destruct H6 as [(a' & w6 & E & H) | [(e & E & ->) | (E & ->)]];
    apply (update_infrastructure_details_run _ d) in E; try exact Hd5;
    destruct E as [E _].
  - assert (a' = JNull) as ->
      by (now destruct E as (_ & ? & ? & _ & _ & _ & _ & _ & ?)).
    destruct (has_keys_idx _ _ "alb_dns" R2 ltac:(in_keys)) as [x Hx].
    rewrite Hx in H.
    assert (T : tamed no_exn w6 r w')
      by (refine ((_ : tame anything no_exn _) _ _ _ I H); tame_tac).
    split.
    + eapply (pipeline_finished _ _ _ _ [v1; v2; v3; v4; v5]);
        [exact P5 | reflexivity | exact E | exact T].
    + intros e ->. destruct (tamed_raise _ _ _ _ T e eq_refl).
  - now destruct E as (_ & ? & ? & _ & _ & _ & _ & ?).
  - split; [|discriminate].
    eapply (pipeline_flush_killed _ _ _ _ [v1; v2; v3; v4; v5]);
      [exact P5 | reflexivity | exact E].
Qed.

(** ** The ledger is written once, at the end *)

Lemma file_events_take n sk :
  file_events (take n sk) `prefix_of` file_events sk.
Proof.
  exists (file_events (drop n sk)).
  now rewrite <- file_events_app, take_drop.
Qed.

Lemma entered_take n sk : entered (take n sk) `prefix_of` entered sk.
Proof.
  exists (entered (drop n sk)). now rewrite <- entered_app, take_drop.
Qed.

Lemma file_events_markers sk : Forall marker sk -> file_events sk = [].
Proof. induction 1 as [|[] sk Hm _ IH]; simpl; auto; contradiction. Qed.

Lemma entered_completed done : entered (completed done) = done.*1.
Proof.
  induction done as [|[fn v] done IH]; simpl; [reflexivity|].
  now rewrite IH.
Qed.

Lemma returned_completed done : returned (completed done) = done.
Proof.
  induction done as [|[fn v] done IH]; simpl; [reflexivity|].
  now rewrite IH.
Qed.

Lemma file_events_pipeline stages values flush doc :
  file_events (pipeline stages values flush doc)
  = [Truncate ledger_file; Dump ledger_file doc; Close ledger_file].
Proof.
  unfold pipeline. rewrite file_events_app.
  now rewrite (file_events_markers _ (completed_markers _)).
Qed.

Lemma entered_pipeline stages values flush doc :
  length values = length stages ->
  entered (pipeline stages values flush doc) = stages.*1 ++ [flush].
Proof.
  intros Hl. unfold pipeline. rewrite entered_app, entered_completed.
  rewrite fst_zip by (rewrite length_fmap; lia). reflexivity.
Qed.

Lemma replay_pipeline fs stages values flush doc :
  replay fs (pipeline stages values flush doc)
  = <[ledger_file := Complete doc]> fs.
Proof.
  unfold pipeline. rewrite replay_app.
  rewrite (replay_markers _ _ (completed_markers _)).
  apply (replay_flush fs ledger_file doc).
Qed.

Lemma replay_no_file_events fs evs :
  file_events evs = [] -> replay fs evs = fs.
Proof.
  revert fs. induction evs as [|[] evs IH]; simpl; intros fs H; auto;
    discriminate.
Qed.

(** Past the markers of the stages, every stage has returned. *)
Lemma returned_pipeline_take stages values flush doc n :
  length values = length stages -> 2 * length stages <= n ->
  zip stages.*1 values `prefix_of`
    returned (take n (pipeline stages values flush doc)).
Proof.
  intros Hl Hn. unfold pipeline. pose proof (length_stage_values _ _ Hl) as Hc.
  rewrite take_app, (take_ge (completed _)) by lia.
  rewrite returned_app, returned_completed. now eexists.
Qed.

(** A stage and its key meet the same value. *)
Lemma stage_key_value (stages : list (string * string)) (values : list Json)
    fn key :
  (fn, key) ∈ stages -> length values = length stages ->
  exists v, (fn, v) ∈ zip stages.*1 values /\ (key, v) ∈ zip stages.*2 values.
Proof.
  revert values. induction stages as [|[fn' key'] stages IH];
    intros [|v values] Hin Hl; try discriminate.
  - now apply elem_of_nil in Hin.
  - apply elem_of_cons in Hin as [[= <- <-]|Hin].
    + exists v. split; left.
    + destruct (IH values Hin) as (v' & H1 & H2); [simpl in Hl; lia|].
      exists v'. split; right; assumption.
Qed.

Lemma outputs_lookup (stages : list (string * string)) (values : list Json)
    key v :
  NoDup stages.*2 -> length values = length stages ->
  (key, v) ∈ zip stages.*2 values -> outputs stages values !! key = Some v.
Proof.
  intros Hn Hl Hin. apply elem_of_list_to_map_1; [|exact Hin].
  rewrite fst_zip by (rewrite length_fmap; lia). exact Hn.
Qed.

Lemma pipeline_run_flushed stages flush d_of w r w' :
  NoDup stages.*2 ->
  (forall values key v, outputs stages values !! key = Some v ->
                        d_of values !! key = Some v) ->
  pipeline_run stages flush (fun values => JDict (d_of values)) w r w' ->
  flushed_at_end stages w r w'.
Proof.
  intros Hnd Hd (evs & values & n & Hl & He & Hf & Hs & Hr).
  exists evs. split; [apply He|].
  assert (Hret : 2 * length stages <= n -> forall fn key,
    (fn, key) ∈ stages ->
    exists v, (fn, v) ∈ returned evs /\ d_of values !! key = Some v).
  { intros Hn fn key Hin.
    destruct (stage_key_value _ _ _ _ Hin Hl) as (v & H1 & H2).
    exists v. split.
    - rewrite <- returned_skeleton, Hs.
      destruct (returned_pipeline_take stages values flush
                  (JDict (d_of values)) n Hl Hn) as [rest ->].
      apply elem_of_app. now left.
    - now apply Hd, outputs_lookup. }
  split; [|split].
  - intros Hne fn key Hin.
    destruct (decide (2 * length stages <= n)) as [Hn|Hn].
    + destruct (Hret Hn fn key Hin) as (v & Hv & _). now exists v.
    + exfalso. apply Hne. rewrite Hf.
      apply replay_no_file_events.
      rewrite <- file_events_skeleton, Hs.
      apply file_events_markers, pipeline_prefix_markers; [exact Hl | lia].
  - exists (JDict (d_of values)).
    rewrite <- file_events_skeleton, Hs.
    rewrite <- (file_events_pipeline stages values flush (JDict (d_of values))).
    apply file_events_take.
  - intros ->. subst n. exists (d_of values). split.
    + rewrite Hf, <- replay_skeleton, Hs.
      rewrite take_ge.
      * apply replay_pipeline.
      * unfold pipeline. rewrite length_app, (length_stage_values _ _ Hl).
        simpl. lia.
    + apply Hret. lia.
Qed.

(** ** The load at the top of the second script *)

Lemma stopped_early_refl w : stopped_early w w.
Proof.
  split; [reflexivity|]. exists []. split; [apply extends_refl | constructor].
Qed.

Lemma load_body_run w r w' :
  (infrastructure <- read_json ledger_file;;
   write_global "infrastructure" infrastructure;;
   print [JStr "Loaded existing infrastructure details"];;
   infrastructure <- read_global "infrastructure";;
   vpc <- idx infrastructure "vpc";;
   vpc_id <- idx vpc "vpc_id";;
   write_global "vpc_id" vpc_id) w = (r, w') ->
  stopped_early w w' /\
  (kill_after w = None -> kill_after w' = None /\ r <> Killed) /\
  match r with
  | Return _ => exists d, loaded d w w'
  | Raise e =>
      caught e /\
      if is_FileNotFoundError e
      then files w !! ledger_file = None /\ w' = w
      else is_Some (files w !! ledger_file)
  | Killed => is_Some (files w !! ledger_file)
  end.
Proof.
  intros H. apply bind_inv in H.
  destruct H as [(doc & w1 & E & H) | [(e & E & ->) | (E & ->)]];
    unfold read_json in E;
    destruct (files w !! ledger_file) as [[doc'| |]|] eqn:Ef;
    try discriminate; injection E as E1 E2;
    try subst doc'; try subst w1; try subst e; try subst w'.
  2-4: (split; [apply stopped_early_refl|]; split;
        [intros Hn; split; [exact Hn | discriminate]|];
        split; [reflexivity|]; simpl; eauto).
  apply step_write_global in H. apply bind_inv in H.
  set (w1 := set_global "infrastructure" doc w) in *.
  assert (Hw1 : forall evs w2, extends w1 evs w2 -> extends w evs w2).
  { intros evs w2 [Hc Hw He Ht]. split; auto. }
  assert (Hs : forall (r0 : Result unit) w2,
            tamed no_exn w1 r0 w2 ->
            stopped_early w w2 /\
            (kill_after w = None -> kill_after w2 = None /\ r0 <> Killed) /\
            globals w2 = <["infrastructure" := doc]> (globals w)).
  { intros r0 w2 [Hf Hg (evs & He & Hp) _ Ha]. split; [|split].
    - split; [exact Hf|]. exists evs. split; [now apply Hw1 | exact Hp].
    - exact Ha.
    - exact Hg. }
  destruct H as [(a & w2 & E & H) | [(e & E & ->) | (E & ->)]];
    apply print_tamed in E; pose proof (Hs _ _ E) as (Hse & Hal & Hgl).
  2:{ destruct (tamed_raise _ _ _ _ E e eq_refl). }
  2:{ split; [exact Hse|]. split; [exact Hal | eauto]. }
  apply (step_read_global _ doc) in H;
    [|rewrite Hgl; apply lookup_insert_eq].
  unfold bind, idx, lift in H.
  destruct (getitem doc "vpc") as [e|vpc] eqn:Ev.
  { injection H as <- <-. split; [exact Hse|]. split.
    - intros Hn. split; [now apply Hal | discriminate].
    - pose proof (getitem_error _ _ _ Ev) as Hle.
      split; [destruct e; try reflexivity; contradiction|].
      destruct e; simpl; eauto; contradiction. }
  simpl in H. destruct (getitem vpc "vpc_id") as [e|vpc_id] eqn:Ei.
  { injection H as <- <-. split; [exact Hse|]. split.
    - intros Hn. split; [now apply Hal | discriminate].
    - pose proof (getitem_error _ _ _ Ei) as Hle.
      split; [destruct e; try reflexivity; contradiction|].
      destruct e; simpl; eauto; contradiction. }
  simpl in H. injection H as <- <-. 
  destruct Hse as (Hf & evs & He & Hp). split; [|split].
  - split; [exact Hf|]. exists evs. split; [|exact Hp].
    destruct He as [Hc Hw Hen Ht]. split; auto.
  - intros Hn. split; [now apply Hal | discriminate].
  - destruct doc as [| | | | |d]; try discriminate. exists d. split.
    + exact Ef.
    + simpl. rewrite lookup_insert_ne by discriminate.
      rewrite Hgl. apply lookup_insert_eq.
    + exact Hf.
    + exists evs. split; [|exact Hp].
      destruct He as [Hc Hw Hen Ht]. split; auto.
    + intros Hn. now apply Hal.
Qed.

Lemma load_run w r w' :
  Deploy.load w = (r, w') ->
  stopped_early w w' /\
  (kill_after w = None -> kill_after w' = None /\ r <> Killed) /\
  match r with
  | Return _ => exists d, loaded d w w'
  | Raise e =>
      if decide (files w !! ledger_file = None) then e = SystemExit 1
      else caught e
  | Killed => True
  end.
Proof.
  unfold Deploy.load, try_catch. intros H.
  destruct ((infrastructure <- read_json ledger_file;;
   write_global "infrastructure" infrastructure;;
   print [JStr "Loaded existing infrastructure details"];;
   infrastructure <- read_global "infrastructure";;
   vpc <- idx infrastructure "vpc";;
   vpc_id <- idx vpc "vpc_id";;
   write_global "vpc_id" vpc_id) w) as [r0 w1] eqn:E.
  apply load_body_run in E. destruct E as (Hse & Hal & Hr).
  destruct r0 as [a|e|].
  - injection H as <- <-. auto.
  - destruct Hr as [Hc Hr]. destruct (is_FileNotFoundError e).
    + destruct Hr as [Hn ->]. apply bind_inv in H.
      destruct H as [(a & w2 & E & H) | [(e' & E & ->) | (E & ->)]];
        apply print_tamed in E.
      * injection H as <- <-.
        destruct E as [Hf Hg He _ Ha]. split; [split; auto|].
        split; [intros Hk; split; [now apply Ha | discriminate]|].
        destruct (decide _); [reflexivity | contradiction].
      * destruct (tamed_raise _ _ _ _ E e' eq_refl).
      * destruct E as [Hf Hg He _ Ha]. split; [split; auto|]. auto.
    + injection H as <- <-. split; [exact Hse|]. split; [exact Hal|].
      destruct (decide _) as [Hn|]; [|exact Hc].
      rewrite Hn in Hr. now destruct Hr.
  - injection H as <- <-. auto.
Qed.

Lemma Deploy_script_run w r w' :
  Deploy.script w = (r, w') ->
  (stopped_early w w' /\ r <> Return tt /\
   (kill_after w = None -> r <> Killed) /\
   forall e, r = Raise e ->
     if decide (files w !! ledger_file = None) then e = SystemExit 1
     else caught e) \/
  (exists d w1, loaded d w w1 /\ Deploy.main w1 = (r, w')).
Proof.
  intros H. apply bind_inv in H.
  destruct H as [(a & w1 & E & H) | [(e & E & ->) | (E & ->)]];
    apply load_run in E; destruct E as (Hse & Hal & Hr).
  - right. destruct Hr as [d Hd]. eauto.
  - left. split; [exact Hse|]. split; [discriminate|].
    split; [discriminate|]. now intros ? [= <-].
  - left. split; [exact Hse|]. split; [discriminate|].
    split; [intros Hn; now apply Hal | discriminate].
Qed.

Lemma returned_plain evs : Forall plain evs -> returned evs = [].
Proof. intros H. now rewrite <- returned_skeleton, (skeleton_plain _ H). Qed.

Lemma entered_plain evs : Forall plain evs -> entered evs = [].
Proof. intros H. now rewrite <- entered_skeleton, (skeleton_plain _ H). Qed.

Lemma file_events_plain evs : Forall plain evs -> file_events evs = [].
Proof. intros H. now rewrite <- file_events_skeleton, (skeleton_plain _ H). Qed.

Lemma flushed_at_end_early stages w (r : Result unit) w' :
  stopped_early w w' -> r <> Return tt -> flushed_at_end stages w r w'.
Proof.
  intros (Hf & evs & He & Hp) Hr. exists evs. split; [apply He|].
  split; [intros Hn; now destruct Hn|]. split; [|intros ->; now destruct Hr].
  exists JNull. rewrite (file_events_plain _ Hp). apply prefix_nil.
Qed.

Lemma flushed_at_end_loaded stages d w w1 r w' :
  loaded d w w1 -> flushed_at_end stages w1 r w' ->
  flushed_at_end stages w r w'.
Proof.
  intros [_ _ Hf (evs1 & He1 & Hp1) _] (evs & Ht & Hch & Hpre & Hret).
  exists (evs1 ++ evs). rewrite Hf in *.
  rewrite returned_app, (returned_plain _ Hp1),
    file_events_app, (file_events_plain _ Hp1). simpl.
  split; [|auto]. rewrite Ht, (ext_trace _ _ _ He1). now rewrite app_assoc.
Qed.

Lemma Iac_keys_NoDup : NoDup Iac.stages.*2.
Proof. apply (bool_decide_unpack _). vm_compute. exact I. Qed.

Lemma Deploy_keys_NoDup : NoDup Deploy.stages.*2.
Proof. apply (bool_decide_unpack _). vm_compute. exact I. Qed.

(** C1, as amended.  Neither script writes the ledger after each stage:
    whatever the remote answers and wherever the process is killed, a run
    leaves the files as they were until every stage has returned, writes
    the ledger file at most once (one [open] for writing, one [json.dump],
    one close, of that file and no other), and a run that returns leaves
    in it the value of every stage under the stage's key. *)
Theorem ledger_written_once_after_last_stage :
  (forall w r w', Iac.main w = (r, w') -> flushed_at_end Iac.stages w r w') /\
  (forall w r w', Deploy.script w = (r, w') ->
                  flushed_at_end Deploy.stages w r w').
Proof.
  split; intros w r w' H.
  - apply Iac_main_run in H as [H _].
    eapply pipeline_run_flushed; [apply Iac_keys_NoDup | | exact H]. auto.
  - apply Deploy_script_run in H as [(Hs & Hr & _)|(d & w1 & Hl & H)].
    + now apply flushed_at_end_early.
    + apply (Deploy_main_run d) in H as [H _]; [|apply Hl].
      eapply flushed_at_end_loaded; [exact Hl|].
      eapply (pipeline_run_flushed _ _
                (fun values => outputs Deploy.stages values ∪ d));
        [apply Deploy_keys_NoDup | | exact H].
      intros values key v Hv. now apply lookup_union_Some_l.
Qed.

Lemma ledger_written_once_after_last_stage_witness :
  flushed_at_end Iac.stages (Sample.world Sample.accepting ∅ ∅ None)
    (Iac.main (Sample.world Sample.accepting ∅ ∅ None)).1
    (Iac.main (Sample.world Sample.accepting ∅ ∅ None)).2 /\
  flushed_at_end Deploy.stages (Sample.resumed Sample.accepting None)
    (Deploy.script (Sample.resumed Sample.accepting None)).1
    (Deploy.script (Sample.resumed Sample.accepting None)).2.
Proof.
  split.
  - apply (proj1 ledger_written_once_after_last_stage). apply surjective_pairing.
  - apply (proj2 ledger_written_once_after_last_stage). apply surjective_pairing.
Defined.

(** C1, the claim as stated, fails.  The first script with a remote that
    accepts every call, in a process killed forty effects in:
    [create_vpc] has returned and [create_security_groups] has been
    entered, and there is no ledger file, so the value [create_vpc] returned
    is nowhere on disk. *)
Lemma no_checkpoint_between_stages :
  (Iac.main Sample.killed_in_second_stage).1 = Killed /\
  entered (trace (Iac.main Sample.killed_in_second_stage).2)
  = ["create_vpc"; "create_security_groups"] /\
  (returned (trace (Iac.main Sample.killed_in_second_stage).2)).*1
  = ["create_vpc"] /\
  files (Iac.main Sample.killed_in_second_stage).2 !! ledger_file = None /\
  ~ checkpointed Iac.stages (Iac.main Sample.killed_in_second_stage).2.
Proof.
  assert (E : exists v,
    returned (trace (Iac.main Sample.killed_in_second_stage).2)
    = [("create_vpc", v)]) by (vm_compute; eexists; reflexivity).
  assert (F : files (Iac.main Sample.killed_in_second_stage).2 !! ledger_file
              = None) by (vm_compute; reflexivity).
  split; [vm_compute; reflexivity|]. split; [vm_compute; reflexivity|].
  split; [vm_compute; reflexivity|]. split; [exact F|].
  intros H. destruct E as [v E].
  destruct (H "create_vpc" "vpc" v) as (d & Hd & _).
  - left.
  - rewrite E. left.
  - rewrite F in Hd. discriminate.
Qed.

(** ** A stage that raises ends the run *)

Lemma run_eq {A} (m : M A) w r : (m w).1 = r -> m w = (r, (m w).2).
Proof. intros <-. apply surjective_pairing. Qed.

Lemma take_odd_completed done k rest :
  k < length done ->
  exists fn v, done !! k = Some (fn, v) /\
    take (2 * k + 1) (completed done ++ rest)
    = completed (take k done) ++ [Enter fn].
Proof.
  revert k. induction done as [|[fn v] done IH]; intros k Hk;
    [simpl in Hk; lia|].
  destruct k as [|k].
  - exists fn, v. split; reflexivity.
  - destruct (IH k) as (fn' & v' & Hl & Ht); [simpl in Hk; lia|].
    exists fn', v'. split; [exact Hl|].
    replace (2 * S k + 1) with (S (S (2 * k + 1))) by lia.
    simpl. now rewrite <- Ht.
Qed.

Lemma pipeline_run_aborted stages flush doc_of w e w' :
  pipeline_run stages flush doc_of w (Raise e) w' ->
  aborted_in_stage stages w w'.
Proof.
  intros (evs & values & n & Hl & He & Hf & Hs & k & -> & Hk).
  assert (Hz : length (zip stages.*1 values) = length stages)
    by (rewrite length_zip_with, length_fmap; lia).
  destruct (take_odd_completed (zip stages.*1 values) k
              (flush_events flush (doc_of values)))
    as (fn & v & Hlk & Ht); [lia|].
  fold (pipeline stages values flush (doc_of values)) in Ht.
  rewrite Ht in Hs. split.
  - rewrite Hf. apply replay_no_file_events.
    rewrite <- file_events_skeleton, Hs, file_events_app.
    now rewrite (file_events_markers _ (completed_markers _)).
  - exists evs, (take k (zip stages.*1 values)), fn,
      (drop (S k) (zip stages.*1 values)).*1.
    split; [apply He|]. split; [|exact Hs].
    rewrite <- (fst_zip stages.*1 values) at 1 by (rewrite length_fmap; lia).
    rewrite <- (take_drop_middle _ _ _ Hlk) at 1.
    now rewrite fmap_app.
Qed.

(** C2, as amended.  An exception in a stage of the first script is caught
    nowhere: the run ends with it at once, inside that stage, with every
    earlier stage returned and no later def entered; and nothing is
    flushed, the files are exactly as they were before the run. *)
Theorem exception_ends_run_without_flush w e w' :
  Iac.main w = (Raise e, w') -> aborted_in_stage Iac.stages w w'.
Proof.
  intros H. apply Iac_main_run in H as [H _].
  now apply pipeline_run_aborted in H.
Qed.

Lemma exception_ends_run_without_flush_witness :
  aborted_in_stage Iac.stages Sample.load_balancer_rejected
    (Iac.main Sample.load_balancer_rejected).2.
Proof.
  assert (R : (Iac.main Sample.load_balancer_rejected).1
              = Raise (ClientError "AccessDenied"))
    by (vm_compute; reflexivity).
  exact (exception_ends_run_without_flush Sample.load_balancer_rejected
           (ClientError "AccessDenied") _
           (run_eq Iac.main Sample.load_balancer_rejected _ R)).
Defined.

(** C2, the claim as stated, fails.  The first script with a remote that
    rejects [create_load_balancer]: four stages have returned, the fifth
    raises, the run ends with its exception, and there is no ledger file:
    nothing of the four values is on disk. *)
Lemma abort_loses_progress :
  (Iac.main Sample.load_balancer_rejected).1
  = Raise (ClientError "AccessDenied") /\
  (returned (trace (Iac.main Sample.load_balancer_rejected).2)).*1
  = ["create_vpc"; "create_security_groups"; "create_iam_role";
     "create_launch_template"] /\
  files (Iac.main Sample.load_balancer_rejected).2 !! ledger_file = None /\
  ~ progress_kept_on_abort Iac.stages
      (Iac.main Sample.load_balancer_rejected).1
      (Iac.main Sample.load_balancer_rejected).2.
Proof.
  assert (E : exists v rest,
    returned (trace (Iac.main Sample.load_balancer_rejected).2)
    = ("create_vpc", v) :: rest) by (vm_compute; do 2 eexists; reflexivity).
  assert (F : files (Iac.main Sample.load_balancer_rejected).2 !! ledger_file
              = None) by (vm_compute; reflexivity).
  assert (R : (Iac.main Sample.load_balancer_rejected).1
              = Raise (ClientError "AccessDenied"))
    by (vm_compute; reflexivity).
  split; [exact R|]. split; [vm_compute; reflexivity|]. split; [exact F|].
  intros H. destruct E as (v & rest & E).
  destruct (H (ex_intro _ _ R) "create_vpc" "vpc" v) as (d & Hd & _).
  - left.
  - rewrite E. left.
  - rewrite F in Hd. discriminate.
Qed.

(** ** The order of the stages *)

Lemma pipeline_run_in_order stages flush doc_of w r w' :
  pipeline_run stages flush doc_of w r w' ->
  in_script_order stages flush w r w'.
Proof.
  intros (evs & values & n & Hl & He & Hf & Hs & Hr).
  exists evs. split; [apply He|].
  rewrite <- entered_skeleton, Hs.
  rewrite <- (entered_pipeline stages values flush (doc_of values) Hl).
  split; [apply entered_take|]. intros ->. subst n.
  rewrite take_ge; [reflexivity|].
  unfold pipeline. rewrite length_app, (length_stage_values _ _ Hl).
  simpl. lia.
Qed.

Lemma in_script_order_early stages flush w (r : Result unit) w' :
  stopped_early w w' -> r <> Return tt -> in_script_order stages flush w r w'.
Proof.
  intros (Hf & evs & He & Hp) Hr. exists evs. split; [apply He|].
  rewrite (entered_plain _ Hp). split; [apply prefix_nil|].
  intros ->. now destruct Hr.
Qed.

Lemma in_script_order_loaded stages flush d w w1 r w' :
  loaded d w w1 -> in_script_order stages flush w1 r w' ->
  in_script_order stages flush w r w'.
Proof.
  intros [_ _ Hf (evs1 & He1 & Hp1) _] (evs & Ht & Hpre & Hret).
  exists (evs1 ++ evs). rewrite entered_app, (entered_plain _ Hp1). simpl.
  split; [|auto]. rewrite Ht, (ext_trace _ _ _ He1). now rewrite app_assoc.
Qed.

Lemma Deploy_script_in_order w r w' :
  Deploy.script w = (r, w') ->
  in_script_order Deploy.stages "update_infrastructure_details" w r w'.
Proof.
  intros H.
  apply Deploy_script_run in H as [(Hs & Hr & _)|(d & w1 & Hl & H)].
  - now apply in_script_order_early.
  - apply (Deploy_main_run d) in H as [H _]; [|apply Hl].
    eapply in_script_order_loaded; [exact Hl|].
    now apply pipeline_run_in_order in H.
Qed.

Lemma pipeline_run_every_def stages flush doc_of w r w' :
  pipeline_run stages flush doc_of w r w' ->
  runs_every_def_in_order stages flush w r w'.
Proof.
  intros (evs & values & n & Hl & He & Hf & Hs & Hr).
  assert (Hz : length (zip stages.*1 values) = length stages)
    by (rewrite length_zip_with, length_fmap; lia).
  assert (Hn : (zip stages.*1 values).*1 = stages.*1)
    by (apply fst_zip; rewrite length_fmap; lia).
  exists evs. split; [apply He|].
  rewrite <- entered_skeleton, <- returned_skeleton, Hs.
  unfold script_order.
  destruct r as [[]|e|].
  - subst n. rewrite take_ge.
    2:{ unfold pipeline. rewrite length_app, (length_stage_values _ _ Hl).
        simpl. lia. }
    split; [now apply entered_pipeline|].
    unfold pipeline. rewrite returned_app, returned_completed, fmap_app, Hn.
    reflexivity.
  - destruct Hr as (k & -> & Hk). exists k.
    destruct (take_odd_completed (zip stages.*1 values) k
                (flush_events flush (doc_of values)))
      as (fn & v & Hlk & Ht); [lia|].
    fold (pipeline stages values flush (doc_of values)) in Ht. rewrite Ht.
    rewrite length_app, length_fmap. simpl.
    split; [lia|].
    rewrite entered_app, returned_app, entered_completed, returned_completed.
    simpl. rewrite app_nil_r.
    rewrite !take_app_le by (rewrite length_fmap; lia).
    set (done := zip stages.*1 values) in *.
    rewrite <- Hn, <- !fmap_take. split; [|reflexivity].
    rewrite (take_S_r _ _ _ Hlk), fmap_app. reflexivity.
  - destruct Hr as (Hk & _). split; [exact Hk|].
    rewrite <- (entered_pipeline stages values flush (doc_of values) Hl).
    apply entered_take.
Qed.

Lemma runs_every_def_loaded stages flush d w w1 r w' :
  loaded d w w1 -> runs_every_def_in_order stages flush w1 r w' ->
  runs_every_def_in_order stages flush w r w'.
Proof.
  intros [_ _ Hf (evs1 & He1 & Hp1) Hal] (evs & Ht & Hr).
  exists (evs1 ++ evs).
  rewrite entered_app, returned_app, (entered_plain _ Hp1),
    (returned_plain _ Hp1). simpl.
  split; [rewrite Ht, (ext_trace _ _ _ He1); now rewrite app_assoc|].
  destruct r as [[]|e|]; try exact Hr.
  destruct Hr as [Hk Hpre]. split; [|exact Hpre].
  intros Hn. apply Hk. now apply Hal.
Qed.

Lemma load_of_good_ledger w d e w1 :
  files w !! ledger_file = Some (Complete (JDict d)) -> has_vpc_id d ->
  Deploy.load w <> (Raise e, w1).
Proof.
  intros Hf (vpc & vpc_id & Hd & Hv).
  unfold Deploy.load, try_catch, bind, read_json, write_global, print, effect,
    read_global, idx, lift, tick.
  rewrite Hf. cbn [kill_after set_global logs globals].
  destruct (kill_after w) as [[|n]|];
    cbn [kill_after set_global logs globals set_kill];
    try rewrite lookup_insert_eq; cbn [getitem]; try rewrite Hd;
    unfold ret; cbn beta iota; try rewrite Hv; discriminate.
Qed.

Lemma Deploy_script_every_def w d r w' :
  files w !! ledger_file = Some (Complete (JDict d)) -> has_vpc_id d ->
  Deploy.script w = (r, w') ->
  runs_every_def_in_order Deploy.stages "update_infrastructure_details"
    w r w'.
Proof.
  intros Hf Hd H. apply bind_inv in H.
  destruct H as [(a & w1 & E & H) | [(e & E & ->) | (E & ->)]].
  - apply load_run in E as (_ & _ & d' & Hl).
    apply (Deploy_main_run d') in H as [H _]; [|apply Hl].
    eapply runs_every_def_loaded; [exact Hl|].
    now apply pipeline_run_every_def in H.
  - now destruct (load_of_good_ledger w d e w' Hf Hd).
  - apply load_run in E as ((_ & evs & He & Hp) & Hal & _).
    exists evs. split; [apply He|]. split.
    + intros Hn. now destruct (Hal Hn).
    + rewrite (entered_plain _ Hp). apply prefix_nil.
Qed.

(** C6.  Every run of either script executes its stage functions in the
    one order the script gives, each once and none out of turn, whatever
    the remote answers and whatever the ledger already holds: no stage
    looks for its output key to skip itself.  A run that returns has
    entered every stage and then the def that writes the ledger, each
    once and in that order, and each has returned.  The only thing that
    keeps a stage from running is the end of the run before it: a run
    that raises has ended inside the def it entered last, with the defs
    before it returned.  So for the first script, for the top-level code
    of the second script on any ledger, and for the second script from a
    ledger file that has [vpc.vpc_id]. *)
Theorem stages_run_in_script_order :
  (forall w r w', Iac.main w = (r, w') ->
     runs_every_def_in_order Iac.stages "save_infrastructure_details"
       w r w') /\
  (forall w d r w', globals w !! "infrastructure" = Some (JDict d) ->
     Deploy.main w = (r, w') ->
     runs_every_def_in_order Deploy.stages "update_infrastructure_details"
       w r w') /\
  (forall w d r w',
     files w !! ledger_file = Some (Complete (JDict d)) -> has_vpc_id d ->
     Deploy.script w = (r, w') ->
     runs_every_def_in_order Deploy.stages "update_infrastructure_details"
       w r w').
Proof.
  split; [|split].
  - intros w r w' H. apply Iac_main_run in H as [H _].
    now apply pipeline_run_every_def in H.
  - intros w d r w' Hg H. apply (Deploy_main_run d) in H as [H _]; [|exact Hg].
    now apply pipeline_run_every_def in H.
  - intros w d r w' Hf Hd H. now apply (Deploy_script_every_def w d).
Qed.

(** Three runs that return: the first script against a remote that accepts
    every call, and the second script, its top-level code alone and with
    the load before it, on a ledger that already holds all five output
    keys of the second script; every stage runs again. *)
Lemma stages_run_in_script_order_witness :
  runs_every_def_in_order Iac.stages "save_infrastructure_details"
    Sample.fresh (Return tt) (Iac.main Sample.fresh).2 /\
  runs_every_def_in_order Deploy.stages "update_infrastructure_details"
    Sample.rerun_loaded (Return tt) (Deploy.main Sample.rerun_loaded).2 /\
  runs_every_def_in_order Deploy.stages "update_infrastructure_details"
    Sample.rerun (Return tt) (Deploy.script Sample.rerun).2.
Proof.
  assert (R1 : (Iac.main Sample.fresh).1 = Return tt)
    by (vm_compute; reflexivity).
  assert (R2 : (Deploy.main Sample.rerun_loaded).1 = Return tt)
    by (vm_compute; reflexivity).
  assert (R3 : (Deploy.script Sample.rerun).1 = Return tt)
    by (vm_compute; reflexivity).
  split; [|split].
  - exact (proj1 stages_run_in_script_order Sample.fresh _ _
             (run_eq Iac.main Sample.fresh _ R1)).
  - apply (proj1 (proj2 stages_run_in_script_order) Sample.rerun_loaded
             Sample.ledger_of_earlier_run).
    + vm_compute. reflexivity.
    + exact (run_eq Deploy.main Sample.rerun_loaded _ R2).
  - apply (proj2 (proj2 stages_run_in_script_order) Sample.rerun
             Sample.ledger_of_earlier_run).
    + vm_compute. reflexivity.
    + exists (dict [("vpc_id", JStr "vpc-1");
                    ("subnets", dict [("public", JList [JStr "subnet-1";
                                                        JStr "subnet-2"]);
                                      ("private", JList [JStr "subnet-3";
                                                         JStr "subnet-4"])])]),
        (JStr "vpc-1").
      split; vm_compute; reflexivity.
    + exact (run_eq Deploy.script Sample.rerun _ R3).
Defined.

(** ** A stage that records its failure *)












(** ** The exit of the second script *)

Lemma exit_status_caught {A} e : caught e -> exit_status (@Raise A e) = 1%Z.
Proof. destruct e; simpl; try reflexivity. discriminate. Qed.

(** C3, as amended.  Without a ledger file the second script prints its
    diagnostic and exits with status one, before any def is entered.  With
    the file there the exit is not decided by that: a run that returns,
    and so exits zero, has entered every stage and the def that writes
    the ledger; a run that raises ends with an uncaught exception and
    status one; and on a ledger that has no key [vpc] the load itself
    raises [KeyError], right after it has printed that the ledger is
    loaded and before any def is entered.  (All three for a process that
    is not killed.) *)
Theorem missing_ledger_exits_one_present_ledger_exits_by_stages :
  (forall w, kill_after w = None -> files w !! ledger_file = None ->
     Deploy.script w
     = (Raise (SystemExit 1),
        logs [Print [JStr "No existing infrastructure details found, please run the VPC setup script first"]] w)) /\
  (forall w r w', kill_after w = None -> is_Some (files w !! ledger_file) ->
     Deploy.script w = (r, w') -> exit_decided_by_stages w r w') /\
  (forall w d, kill_after w = None ->
     files w !! ledger_file = Some (Complete (JDict d)) ->
     d !! "vpc" = None ->
     Deploy.script w
     = (Raise (KeyError "vpc"),
        logs [Print [JStr "Loaded existing infrastructure details"]]
          (set_global "infrastructure" (JDict d) w))).
Proof.
  split; [|split].
  - intros w Hk Hf.
    unfold Deploy.script, Deploy.load, bind, try_catch, read_json, print,
      effect, tick.
    rewrite Hf. simpl. rewrite Hk. reflexivity.
  - intros w r w' Hk Hf H.
    pose proof (Deploy_script_in_order w r w' H) as (evs & Ht & _ & Hret).
    exists evs. split; [exact Ht|].
    apply Deploy_script_run in H as [(Hs & Hr & Ha & He)|(d & w1 & Hl & H)].
    + destruct r as [[]|e|]; [now destruct Hr | | now destruct (Ha Hk)].
      specialize (He e eq_refl).
      destruct (decide (files w !! ledger_file = None)) as [Hn|_].
      { rewrite Hn in Hf. now destruct Hf. }
      split; [exact He | now apply exit_status_caught].
    + apply (Deploy_main_run d) in H as [H Hc]; [|apply Hl].
      destruct r as [[]|e|].
      * now apply Hret.
      * split; [now apply Hc | apply exit_status_caught; now apply Hc].
      * destruct H as (_ & _ & _ & _ & _ & _ & _ & Hkill & _).
        apply Hkill. apply (loaded_alive _ _ _ Hl Hk).
  - intros w d Hk Hf Hd.
    unfold Deploy.script, Deploy.load, bind, try_catch, read_json, print,
      effect, tick, write_global, read_global, idx, lift, getitem.
    rewrite Hf. simpl. rewrite Hk. simpl.
    rewrite lookup_insert_eq. rewrite Hd. reflexivity.
Qed.

Lemma missing_ledger_exits_one_present_ledger_exits_by_stages_witness :
  Deploy.script (Sample.world Sample.accepting ∅ ∅ None)
  = (Raise (SystemExit 1),
     logs [Print [JStr "No existing infrastructure details found, please run the VPC setup script first"]]
       (Sample.world Sample.accepting ∅ ∅ None)) /\
  exit_decided_by_stages (Sample.resumed Sample.accepting None)
    (Deploy.script (Sample.resumed Sample.accepting None)).1
    (Deploy.script (Sample.resumed Sample.accepting None)).2 /\
  Deploy.script Sample.empty_ledger
  = (Raise (KeyError "vpc"),
     logs [Print [JStr "Loaded existing infrastructure details"]]
       (set_global "infrastructure" (JDict ∅) Sample.empty_ledger)).
Proof.
  split; [|split].
  - apply (proj1 missing_ledger_exits_one_present_ledger_exits_by_stages);
      reflexivity.
  - apply (proj1 (proj2
             missing_ledger_exits_one_present_ledger_exits_by_stages)).
    + reflexivity.
    + eexists. reflexivity.
    + apply surjective_pairing.
  - apply (proj2 (proj2
             missing_ledger_exits_one_present_ledger_exits_by_stages));
      reflexivity.
Defined.

(** C3, the claim as stated, fails in its second half.  With the ledger
    file there the run need not proceed nor exit zero: on a file that holds
    an empty object the load itself raises [KeyError], no stage is entered
    and the process exits with status one. *)
Lemma present_ledger_does_not_decide_exit :
  is_Some (files Sample.empty_ledger !! ledger_file) /\
  (Deploy.script Sample.empty_ledger).1 = Raise (KeyError "vpc") /\
  exit_status (Deploy.script Sample.empty_ledger).1 = 1%Z /\
  entered (trace (Deploy.script Sample.empty_ledger).2) = [] /\
  ~ exit_decided_by_ledger_file Sample.empty_ledger
      (Deploy.script Sample.empty_ledger).1
      (Deploy.script Sample.empty_ledger).2.
Proof.
  assert (R1 : (Deploy.script Sample.empty_ledger).1 = Raise (KeyError "vpc"))
    by (vm_compute; reflexivity).
  assert (F1 : files Sample.empty_ledger !! ledger_file
               = Some (Complete (JDict ∅))) by (vm_compute; reflexivity).
  split; [rewrite F1; eexists; reflexivity|].
  split; [exact R1|]. split; [rewrite R1; reflexivity|].
  split; [vm_compute; reflexivity|].
  unfold exit_decided_by_ledger_file; rewrite F1, R1; discriminate.
Qed.

(** ** The ledger file is written in place *)

Lemma flush_run_in_place fn doc w r w' :
  flush_run fn doc w r w' -> written_in_place doc w r w'.
Proof.
  intros (_ & evs & n & Hn & _ & Hs & Hf & Hr).
  rewrite <- replay_skeleton, Hs in Hf.
  assert (H4 : replay (files w) [Enter fn; Truncate ledger_file;
                                 Dump ledger_file doc; Close ledger_file]
               = <[ledger_file := Complete doc]> (files w))
    by apply (replay_flush (files w) ledger_file doc).
  assert (H5 : replay (files w) (flush_events fn doc)
               = <[ledger_file := Complete doc]> (files w))
    by apply (replay_flush (files w) ledger_file doc).
  destruct r as [v|e|]; simpl.
  - destruct Hr as [-> ->]. split; [reflexivity|]. now rewrite Hf.
  - exact I.
  - destruct Hr as [Hlt Hk]. split; [exact Hk|].
    destruct n as [|[|[|[|[|n]]]]]; try lia.
    + left. exact Hf.
    + right; left. exact Hf.
    + right; right; left. rewrite Hf. apply insert_insert_eq.
    + right; right; right. now rewrite Hf.
Qed.

(** C5, as amended.  Both defs that write the ledger write it in place,
    with [open(..., 'w')] and [json.dump]: there is no temporary file and
    no rename.  When the def returns the file holds the new ledger; but a
    process that dies in it leaves the file as it was, or truncated, or
    half written, or written. *)
Theorem ledger_is_written_in_place :
  (forall doc w r w', Iac.save_infrastructure_details doc w = (r, w') ->
     written_in_place doc w r w') /\
  (forall n d w r w', globals w !! "infrastructure" = Some (JDict d) ->
     Deploy.update_infrastructure_details (JDict n) w = (r, w') ->
     written_in_place (JDict (n ∪ d)) w r w').
Proof.
  split.
  - intros doc w r w' H. apply save_infrastructure_details_run in H.
    now apply flush_run_in_place in H.
  - intros n d w r w' Hg H.
    apply (update_infrastructure_details_run n d) in H as [H _]; [|exact Hg].
    now apply flush_run_in_place in H.
Qed.

Lemma ledger_is_written_in_place_witness :
  written_in_place (JDict Sample.ledger_of_earlier_run)
    (Sample.resumed Sample.accepting None)
    (Iac.save_infrastructure_details (JDict Sample.ledger_of_earlier_run)
       (Sample.resumed Sample.accepting None)).1
    (Iac.save_infrastructure_details (JDict Sample.ledger_of_earlier_run)
       (Sample.resumed Sample.accepting None)).2 /\
  written_in_place (JDict (Sample.ledger_of_earlier_run ∪ Sample.ledger))
    Sample.killed_in_flush
    (Deploy.update_infrastructure_details
       (JDict Sample.ledger_of_earlier_run) Sample.killed_in_flush).1
    (Deploy.update_infrastructure_details
       (JDict Sample.ledger_of_earlier_run) Sample.killed_in_flush).2.
Proof.
  split.
  - apply (proj1 ledger_is_written_in_place). apply surjective_pairing.
  - apply (proj2 ledger_is_written_in_place).
    + reflexivity.
    + apply surjective_pairing.
Defined.

(** C5, the claim as stated, fails.  A process that holds a good ledger
    file and is killed between the [open] and the [json.dump] of the flush
    leaves the file empty: the previous ledger is gone and the new one is
    not there.  So for both defs. *)
Lemma crash_in_flush_loses_previous_ledger :
  files Sample.killed_in_flush !! ledger_file
  = Some (Complete (JDict Sample.ledger)) /\
  (Iac.save_infrastructure_details (JDict Sample.ledger_of_earlier_run)
     Sample.killed_in_flush).1 = Killed /\
  files (Iac.save_infrastructure_details (JDict Sample.ledger_of_earlier_run)
           Sample.killed_in_flush).2 !! ledger_file = Some Truncated /\
  ~ flush_is_atomic Sample.killed_in_flush
      (Iac.save_infrastructure_details (JDict Sample.ledger_of_earlier_run)
         Sample.killed_in_flush).2 /\
  (Deploy.update_infrastructure_details (JDict Sample.ledger_of_earlier_run)
     Sample.killed_in_flush).1 = Killed /\
  files (Deploy.update_infrastructure_details
           (JDict Sample.ledger_of_earlier_run)
           Sample.killed_in_flush).2 !! ledger_file = Some Truncated /\
  ~ flush_is_atomic Sample.killed_in_flush
      (Deploy.update_infrastructure_details
         (JDict Sample.ledger_of_earlier_run) Sample.killed_in_flush).2.
Proof.
  assert (F : files Sample.killed_in_flush !! ledger_file
              = Some (Complete (JDict Sample.ledger)))
    by (vm_compute; reflexivity).
  assert (F1 : files (Iac.save_infrastructure_details
                        (JDict Sample.ledger_of_earlier_run)
                        Sample.killed_in_flush).2 !! ledger_file
               = Some Truncated) by (vm_compute; reflexivity).
  assert (F2 : files (Deploy.update_infrastructure_details
                        (JDict Sample.ledger_of_earlier_run)
                        Sample.killed_in_flush).2 !! ledger_file
               = Some Truncated) by (vm_compute; reflexivity).
  split; [exact F|]. split; [vm_compute; reflexivity|]. split; [exact F1|].
  split; [intros H; destruct (H _ F) as [doc Hd]; rewrite F1 in Hd;
          discriminate|].
  split; [vm_compute; reflexivity|]. split; [exact F2|].
  intros H. destruct (H _ F) as [doc Hd]. rewrite F2 in Hd. discriminate.
Qed.

(** ** The merge into the ledger *)

Lemma shallow_overwrite_union (n d : gmap string Json) :
  shallow_overwrite n d (n ∪ d).
Proof.
  split.
  - intros k v Hk. now apply lookup_union_Some_l.
  - intros k Hk. now apply lookup_union_r.
Qed.

(** C7.  [update_infrastructure_details] puts the new records over the
    ledger key by key at the top level: a key of the new details gets the
    new record whole, whatever record it had, and every other key keeps
    its record.  So in the global ledger however the def ends, and in the
    ledger file once the def has returned. *)
Theorem update_is_shallow_overwrite n d w r w' :
  globals w !! "infrastructure" = Some (JDict d) ->
  Deploy.update_infrastructure_details (JDict n) w = (r, w') ->
  exists m,
    shallow_overwrite n d m /\
    globals w' !! "infrastructure" = Some (JDict m) /\
    (forall v, r = Return v ->
       files w' !! ledger_file = Some (Complete (JDict m))).
Proof.
  intros Hg H. exists (n ∪ d).
  apply (update_infrastructure_details_run n d) in H as [H Hg']; [|exact Hg].
  split; [apply shallow_overwrite_union|]. split.
  - rewrite Hg'. apply lookup_insert_eq.
  - intros v ->. apply flush_run_in_place in H as [_ ->].
    apply lookup_insert_eq.
Qed.

(** An error record put under [dns] over the ledger of an earlier run
    replaces the record that was there. *)
Lemma update_is_shallow_overwrite_witness :
  exists m,
    shallow_overwrite
      {[ "dns" := error_record (ClientError "AccessDenied") ]}
      Sample.ledger_of_earlier_run m /\
    globals (Deploy.update_infrastructure_details
               (JDict {[ "dns" := error_record (ClientError "AccessDenied") ]})
               Sample.holding_earlier_run).2 !! "infrastructure"
    = Some (JDict m) /\
    (forall v,
       (Deploy.update_infrastructure_details
          (JDict {[ "dns" := error_record (ClientError "AccessDenied") ]})
          Sample.holding_earlier_run).1 = Return v ->
       files (Deploy.update_infrastructure_details
                (JDict {[ "dns" := error_record (ClientError "AccessDenied") ]})
                Sample.holding_earlier_run).2 !! ledger_file
       = Some (Complete (JDict m))).
Proof.
  apply (update_is_shallow_overwrite _ Sample.ledger_of_earlier_run
           Sample.holding_earlier_run).
  - reflexivity.
  - apply surjective_pairing.
Defined.

(** ** The readiness waiter *)

Lemma wait_until_never_ready svc op kwargs target_predicate interval attempts w :
  kill_after w = None ->
  never_ready w svc op kwargs target_predicate ->
  exists w',
    wait_until (call svc op kwargs) target_predicate interval attempts w
    = (Return TimedOut, w') /\
    polled svc op kwargs target_predicate interval attempts w w' /\
    cloud w' = cloud w /\ kill_after w' = None.
Proof.
  revert w. induction attempts as [|n IH]; intros w Hk Hp.
  - exists w. split; [reflexivity|]. split; [|auto].
    exists []. split; [reflexivity|]. split; [constructor|].
    simpl. now rewrite app_nil_r.
  - destruct (Hp (trace w)) as (v & Hv & Ht).
    assert (Hu : unready_probe svc op kwargs target_predicate
                   (Call svc op kwargs (inr v))) by (exists v; auto).
    cbn [wait_until]. unfold call at 1, tick. rewrite Hk, Hv, Ht.
    destruct n as [|n].
    + eexists. split; [reflexivity|]. split; [|auto].
      exists [Call svc op kwargs (inr v)]. auto.
    + unfold bind, sleep, effect, tick. cbn [kill_after logs]. rewrite Hk.
      set (w2 := logs [Sleep interval] (logs [Call svc op kwargs (inr v)] w)).
      destruct (IH w2 Hk Hp)
        as (w' & E & (answered & Hlen & Hun & Ht') & Hc & Hk').
      rewrite E. exists w'. split; [reflexivity|]. split; [|auto].
      exists (Call svc op kwargs (inr v) :: answered).
      split; [simpl; now rewrite Hlen|]. split; [now constructor|].
      destruct answered as [|p answered]; [discriminate|].
      rewrite Ht'. simpl. now rewrite <- !app_assoc.
Qed.

(** C8.  A wait whose probe never reports the target state ends, in a
    process that is not killed, with [TimedOut] after exactly the
    configured number of probes, with a sleep of the one configured
    interval between every probe and the next and nothing else: the wait
    does not go on for ever. *)
Theorem waiter_times_out_after_configured_attempts
    svc op kwargs target_predicate interval attempts w :
  kill_after w = None ->
  never_ready w svc op kwargs target_predicate ->
  exists w',
    wait_until (call svc op kwargs) target_predicate interval attempts w
    = (Return TimedOut, w') /\
    polled svc op kwargs target_predicate interval attempts w w'.
Proof.
  intros Hk Hp.
  destruct (wait_until_never_ready svc op kwargs target_predicate interval
              attempts w Hk Hp) as (w' & E & H & _).
  exists w'. split; [exact E | exact H].
Qed.

(** Sixty attempts at thirty seconds, the configuration of the wait in
    the backup function, against a remote whose snapshot never becomes
    available. *)
Lemma waiter_times_out_after_configured_attempts_witness :
  exists w',
    wait_until
      (call "rds" "describe_db_snapshots"
         [("DBSnapshotIdentifier", JStr "backup-project-orc-db-2025")])
      (fun _ => false) 30 60 Sample.never_available
    = (Return TimedOut, w') /\
    polled "rds" "describe_db_snapshots"
      [("DBSnapshotIdentifier", JStr "backup-project-orc-db-2025")]
      (fun _ => false) 30 60 Sample.never_available w'.
Proof.
  apply waiter_times_out_after_configured_attempts.
  - reflexivity.
  - intros history. eexists. split; reflexivity.
Defined.

(** ** The global read by [create_load_balancer] *)

Lemma never_returns_bind {A B} G (m : M A) (k : A -> M B) :
  tame G any_exn m -> (forall a, never_returns G (k a)) ->
  never_returns G (bind m k).
Proof.
  intros Hm Hk w r w' HG H v ->. apply bind_inv in H.
  destruct H as [(a & w1 & E & H) | [(e & E & [=]) | (E & [=])]].
  apply (Hm _ _ _ HG) in E. destruct E as [_ Hg _ _ _].
  rewrite <- Hg in HG. exact (Hk a w1 _ _ HG H v eq_refl).
Qed.

Lemma never_returns_read_global {B} name (k : Json -> M B) :
  never_returns (fun g => g !! name = None) (bind (read_global name) k).
Proof.
  intros w r w' HG H v ->. unfold bind, read_global in H.
  rewrite HG in H. discriminate.
Qed.

Lemma never_returns_def G fn body :
  never_returns G body -> never_returns G (def fn body).
Proof.
  intros Hb w r w' HG H v ->. unfold def in H.
  destruct (body (logs [Enter fn] w)) as [[a|e|] w1] eqn:E; try discriminate.
  exact (Hb (logs [Enter fn] w) _ _ HG E a eq_refl).
Qed.

Ltac never_step :=
  lazymatch goal with
  | |- never_returns _ (bind (read_global _) _) =>
      apply never_returns_read_global
  | |- never_returns _ (bind _ _) =>
      apply never_returns_bind; [tame_tac | intros ?]
  end.

Lemma create_load_balancer_never_returns subnets alb_sg_id :
  never_returns vpc_id_unassigned (Iac.create_load_balancer subnets alb_sg_id).
Proof.
  apply never_returns_def. unfold vpc_id_unassigned. repeat never_step.
Qed.

(** C9.  [create_load_balancer] takes the VPC from the module global
    [vpc_id], not from its parameters.  Where the global has not been
    assigned no call of the def returns, and a call whose load balancer is
    created ends with [NameError] for [vpc_id] right after the two prints
    that follow the creation: the load balancer exists and no target group
    was asked for.  Where the global is assigned the def raises no
    [NameError]; and [main], which assigns it before the call, never ends
    with one. *)
Theorem create_load_balancer_reads_global_vpc_id :
  (forall subnets alb_sg_id w r w' v,
     globals w !! "vpc_id" = None ->
     Iac.create_load_balancer subnets alb_sg_id w = (r, w') ->
     r <> Return v) /\
  (forall subnets alb_sg_id w public load_balancer lbs lb0 alb_arn alb_dns,
     kill_after w = None ->
     globals w !! "vpc_id" = None ->
     getitem subnets "public" = inr public ->
     cloud w (trace w ++ [Enter "create_load_balancer"])
       "elbv2" "create_load_balancer"
       [("Name", JStr "ProjectOrc-ALB"); ("Subnets", public);
        ("SecurityGroups", JList [alb_sg_id]);
        ("Scheme", JStr "internet-facing"); ("Type", JStr "application");
        ("IpAddressType", JStr "ipv4")] = inr load_balancer ->
     getitem load_balancer "LoadBalancers" = inr lbs ->
     getindex lbs 0 = inr lb0 ->
     getitem lb0 "LoadBalancerArn" = inr alb_arn ->
     getitem lb0 "DNSName" = inr alb_dns ->
     Iac.create_load_balancer subnets alb_sg_id w
     = (Raise (NameError "vpc_id"),
        logs [Print [JStr "ALB DNS Name: "; alb_dns]]
          (logs [Print [JStr "Application Load Balancer created: "; alb_arn]]
             (logs [Call "elbv2" "create_load_balancer"
                      [("Name", JStr "ProjectOrc-ALB"); ("Subnets", public);
                       ("SecurityGroups", JList [alb_sg_id]);
                       ("Scheme", JStr "internet-facing");
                       ("Type", JStr "application");
                       ("IpAddressType", JStr "ipv4")] (inr load_balancer)]
                (logs [Enter "create_load_balancer"] w))))) /\
  (forall subnets alb_sg_id w r w' name,
     is_Some (globals w !! "vpc_id") ->
     Iac.create_load_balancer subnets alb_sg_id w = (r, w') ->
     r <> Raise (NameError name)) /\
  (forall w r w' name, Iac.main w = (r, w') -> r <> Raise (NameError name)).
Proof.
  split; [|split; [|split]].
  - intros subnets alb_sg_id w r w' v Hg H.
    exact (create_load_balancer_never_returns subnets alb_sg_id w r w' Hg H v).
  - intros subnets alb_sg_id w public load_balancer lbs lb0 alb_arn alb_dns
      Hk Hg Hpub Hlb Hlbs Hlb0 Harn Hdns.
    unfold Iac.create_load_balancer, def, bind, idx, nth_, lift, call, print,
      effect, read_global, tick, ret, raise.
    repeat (cbn beta iota; cbn [kill_after logs trace cloud globals];
            first [rewrite Hk | rewrite Hpub | rewrite Hlb | rewrite Hlbs
                  | rewrite Hlb0 | rewrite Harn | rewrite Hdns | rewrite Hg]).
    reflexivity.
  - intros subnets alb_sg_id w r w' name Hg H ->.
    apply create_load_balancer_run in H; [|exact Hg].
    exact (stage_raise _ _ _ _ _ _ H _ eq_refl name eq_refl).
  - intros w r w' name H ->. apply Iac_main_run in H as [_ H].
    exact (H _ eq_refl name eq_refl).
Qed.

Lemma create_load_balancer_reads_global_vpc_id_witness :
  Iac.create_load_balancer
    (dict [("public", JList [JStr "subnet-1"; JStr "subnet-2"])])
    (JStr "sg-1") Sample.fresh
  = (Raise (NameError "vpc_id"),
     logs [Print [JStr "ALB DNS Name: ";
                  JStr "alb.us-west-1.elb.example.com"]]
       (logs [Print [JStr "Application Load Balancer created: ";
                     JStr "arn:alb-1"]]
          (logs [Call "elbv2" "create_load_balancer"
                   [("Name", JStr "ProjectOrc-ALB");
                    ("Subnets", JList [JStr "subnet-1"; JStr "subnet-2"]);
                    ("SecurityGroups", JList [JStr "sg-1"]);
                    ("Scheme", JStr "internet-facing");
                    ("Type", JStr "application");
                    ("IpAddressType", JStr "ipv4")]
                   (inr (Sample.response 1))]
             (logs [Enter "create_load_balancer"] Sample.fresh)))).
Proof.
  apply (proj1 (proj2 create_load_balancer_reads_global_vpc_id)
           _ _ _ _ _
           (JList [dict [("LoadBalancerArn", JStr "arn:alb-1");
                         ("DNSName", JStr "alb.us-west-1.elb.example.com")]])
           (dict [("LoadBalancerArn", JStr "arn:alb-1");
                  ("DNSName", JStr "alb.us-west-1.elb.example.com")]));
    vm_compute; reflexivity.
Defined.

(** ** The backup set-up without its bucket *)

Ltac run_with Hk Hr :=
  repeat (cbn beta iota;
          cbn [kill_after logs drew trace cloud globals files draws entropy];
          rewrite <- ?app_assoc; cbn [app];
          first [rewrite Hk | rewrite Hr]).

(** C10.  When the remote rejects [create_bucket], both copies of the
    backup set-up print the error and return the record
    [{'error': message}], a record with that one key.  The rejected call
    is the only call of the run: no role, no function and no rule is asked
    for, and [backup_config.json] is not written. *)
Theorem bucket_failure_ends_backup_setup :
  (forall w msg,
     kill_after w = None ->
     rejects w (trace w ++ [Enter "create_lambda_functions";
                            Print [JStr "Creating Lambda functions..."]])
       "s3" "create_bucket" msg ->
     exists w',
       Deploy.create_lambda_functions w
       = (Return (error_record (ClientError msg)), w') /\
       only_bucket_attempted "create_lambda_functions"
         "Creating Lambda functions..." msg w w') /\
  (forall w msg,
     kill_after w = None ->
     rejects w (trace w ++ [Enter "create_db_backup_lambda";
                            Print [JStr "Setting up database backup infrastructure..."]])
       "s3" "create_bucket" msg ->
     exists w',
       Backup.create_db_backup_lambda w
       = (Return (error_record (ClientError msg)), w') /\
       only_bucket_attempted "create_db_backup_lambda"
         "Setting up database backup infrastructure..." msg w w').
Proof.
  split; intros w msg Hk Hr; unfold rejects in Hr; eexists; (split; [|split]).
  - unfold Deploy.create_lambda_functions, def, bind, try_except, try_catch,
      Deploy.create_backup_bucket, bind, call, print, effect, uuid4_hex, tick,
      ret.
    run_with Hk Hr. reflexivity.
  - reflexivity.
  - eexists. cbn [trace logs drew]. rewrite <- !app_assoc. reflexivity.
  - unfold Backup.create_db_backup_lambda, def, bind, try_except, try_catch,
      Deploy.create_backup_bucket, bind, call, print, effect, uuid4_hex, tick,
      ret.
    run_with Hk Hr. reflexivity.
  - reflexivity.
  - eexists. cbn [trace logs drew]. rewrite <- !app_assoc. reflexivity.
Qed.

Lemma bucket_failure_ends_backup_setup_witness :
  (exists w',
     Deploy.create_lambda_functions Sample.bucket_rejected
     = (Return (error_record (ClientError "BucketAlreadyExists")), w') /\
     only_bucket_attempted "create_lambda_functions"
       "Creating Lambda functions..." "BucketAlreadyExists"
       Sample.bucket_rejected w') /\
  (exists w',
     Backup.create_db_backup_lambda Sample.bucket_rejected
     = (Return (error_record (ClientError "BucketAlreadyExists")), w') /\
     only_bucket_attempted "create_db_backup_lambda"
       "Setting up database backup infrastructure..." "BucketAlreadyExists"
       Sample.bucket_rejected w').
Proof.
  split.
  - apply (proj1 bucket_failure_ends_backup_setup).
    + reflexivity.
    + intros kwargs. reflexivity.
  - apply (proj2 bucket_failure_ends_backup_setup).
    + reflexivity.
    + intros kwargs. reflexivity.
Defined.

(** * Further properties of the code *)

(** ** The helpers of the stages *)

Lemma is_str_true j s : Deploy.is_str j s = true <-> j = JStr s.
Proof.
  destruct j; simpl; try (split; [discriminate | intros [=]]).
  rewrite bool_decide_eq_true. split; [now intros -> | now intros [= ->]].
Qed.

Lemma is_str_false j s : Deploy.is_str j s = false <-> j <> JStr s.
Proof.
  rewrite <- is_str_true. destruct (Deploy.is_str j s); split; try discriminate;
    auto. intros H. now destruct H.
Qed.

(** X1.  The loop over the hosted zones in [configure_dns] takes the first zone
    whose name is the domain, with or without the final dot: every zone
    before it has another name; it finds none only when every zone has
    another name; and it raises only at a zone that has no name, every zone
    before that one having another name. *)
Theorem find_zone_takes_first_match zones domain_name :
  match Deploy.find_zone zones domain_name with
  | inr (Some zone) =>
      exists before rest, zones = before ++ zone :: rest /\
        Forall (zone_differs domain_name) before /\
        zone_matches domain_name zone
  | inr None => Forall (zone_differs domain_name) zones
  | inl e =>
      exists before zone rest, zones = before ++ zone :: rest /\
        Forall (zone_differs domain_name) before /\
        getitem zone "Name" = inl e
  end.
Proof.
  induction zones as [|zone zones IH]; simpl; [constructor|].
  destruct (getitem zone "Name") as [e|name] eqn:En.
  - exists [], zone, zones. auto.
  - destruct (Deploy.is_str name (domain_name +:+ ".")) eqn:E1;
      [|destruct (Deploy.is_str name domain_name) eqn:E2]; simpl.
    + apply is_str_true in E1 as ->. exists [], zones.
      split; [reflexivity|]. split; [constructor | now left].
    + apply is_str_true in E2 as ->. exists [], zones.
      split; [reflexivity|]. split; [constructor | now right].
    + apply is_str_false in E1, E2.
      assert (Hd : zone_differs domain_name zone) by (exists name; auto).
      destruct (Deploy.find_zone zones domain_name) as [e|[found|]].
      * destruct IH as (before & z & rest & -> & Hb & Hz).
        exists (zone :: before), z, rest. auto.
      * destruct IH as (before & rest & -> & Hb & Hz).
        exists (zone :: before), rest. auto.
      * now constructor.
Qed.

Lemma append_cons c s t : String c s +:+ t = String c (s +:+ t).
Proof. reflexivity. Qed.

Lemma append_nil_l s : "" +:+ s = s.
Proof. reflexivity. Qed.

Lemma append_nil_r s : s +:+ "" = s.
Proof.
  induction s as [|c s IH]; [reflexivity|]. now rewrite append_cons, IH.
Qed.

Lemma append_assoc s1 s2 s3 : (s1 +:+ s2) +:+ s3 = s1 +:+ (s2 +:+ s3).
Proof.
  induction s1 as [|c s IH]; [reflexivity|]. now rewrite !append_cons, IH.
Qed.

Lemma no_slash_app s1 s2 : no_slash s1 -> no_slash s2 -> no_slash (s1 +:+ s2).
Proof.
  induction s1 as [|c s IH]; [auto|]. rewrite append_cons. simpl.
  intros [? ?] ?; auto.
Qed.

Lemma last_segment_from_spec s seen :
  no_slash seen ->
  no_slash (Deploy.last_segment_from s seen) /\
  (seen +:+ s = Deploy.last_segment_from s seen \/
   exists p, seen +:+ s = p +:+ "/" +:+ Deploy.last_segment_from s seen).
Proof.
  revert seen. induction s as [|c s IH]; intros seen Hs; simpl.
  - split; [exact Hs|]. left. apply append_nil_r.
  - destruct (bool_decide (String c "" = "/")) eqn:E.
    + apply bool_decide_eq_true in E. injection E as ->.
      destruct (IH "" I) as [Hn [H|[p H]]]; (split; [exact Hn|]); right;
        rewrite append_nil_l in H.
      * exists seen. now rewrite <- H.
      * exists (seen +:+ "/" +:+ p). rewrite H at 1.
        now rewrite !append_assoc.
    + apply bool_decide_eq_false in E.
      destruct (IH (seen +:+ String c "")) as [Hn H].
      { apply no_slash_app; simpl; auto. }
      split; [exact Hn|].
      rewrite append_assoc in H. exact H.
Qed.

(** X2.  [hosted_zone['Id'].split('/')[-1]]: the identifier sent to Route 53 is
    the part of the zone's [Id] after its last slash, the whole [Id] when
    it has none; an [Id] that is not a str raises. *)
Theorem last_segment_is_after_last_slash :
  (forall s,
     exists r, Deploy.last_segment (JStr s) = inr r /\ no_slash r /\
       (s = r \/ exists p, s = p +:+ "/" +:+ r)) /\
  (forall j, not_a_str j -> Deploy.last_segment j = inl AttributeError).
Proof.
  split.
  - intros s. eexists. split; [reflexivity|].
    exact (last_segment_from_spec s "" I).
  - intros [] H; try reflexivity. now destruct (H s).
Qed.

Lemma last_segment_is_after_last_slash_witness :
  (exists r, Deploy.last_segment (JStr "/hostedzone/Z0123456789") = inr r /\
     no_slash r /\
     ("/hostedzone/Z0123456789" = r \/
      exists p, "/hostedzone/Z0123456789" = p +:+ "/" +:+ r)) /\
  Deploy.last_segment JNull = inl AttributeError.
Proof.
  split.
  - apply (proj1 last_segment_is_after_last_slash).
  - apply (proj2 last_segment_is_after_last_slash). intros s. discriminate.
Defined.

Lemma join_strs_all_str sep l :
  join_strs sep (JStr <$> l) = inr (Stdlib.Strings.String.concat sep l).
Proof.
  induction l as [|s [|s' l] IH]; try reflexivity.
  change (join_strs sep (JStr <$> s :: s' :: l))
    with (match join_strs sep (JStr <$> s' :: l) with
          | inl e => inl e
          | inr t => inr (s +:+ sep +:+ t)
          end).
  now rewrite IH.
Qed.

Lemma join_strs_not_str sep xs x :
  x ∈ xs -> not_a_str x -> join_strs sep xs = inl TypeError.
Proof.
  induction xs as [|y xs IH]; intros Hin Hx; [now apply elem_of_nil in Hin|].
  apply elem_of_cons in Hin as [<-|Hin].
  - destruct x; try reflexivity. now destruct (Hx s).
  - specialize (IH Hin Hx). destruct y; try reflexivity.
    destruct xs as [|z xs]; [now apply elem_of_nil in Hin|].
    change (join_strs sep (JStr s :: z :: xs))
      with (match join_strs sep (z :: xs) with
            | inl e => inl e
            | inr t => inr (s +:+ sep +:+ t)
            end).
    now rewrite IH.
Qed.

(** X3.  [','.join(subnets)]: on a list of strs the zone identifier sent to the
    auto scaling service is the strs with the separator between them; one
    item that is not a str makes the join raise [TypeError]. *)
Theorem join_concatenates_strs :
  (forall sep l,
     join sep (JList (JStr <$> l))
     = inr (Stdlib.Strings.String.concat sep l)) /\
  (forall sep xs x, x ∈ xs -> not_a_str x ->
     join sep (JList xs) = inl TypeError).
Proof.
  split.
  - intros sep l. apply join_strs_all_str.
  - intros sep xs x Hin Hx. exact (join_strs_not_str sep xs x Hin Hx).
Qed.

Lemma join_concatenates_strs_witness :
  join "," (JList (JStr <$> ["subnet-1"; "subnet-2"]))
  = inr (Stdlib.Strings.String.concat "," ["subnet-1"; "subnet-2"]) /\
  join "," (JList [JStr "subnet-1"; JNull]) = inl TypeError.
Proof.
  split.
  - apply (proj1 join_concatenates_strs).
  - apply (proj2 join_concatenates_strs "," _ JNull).
    + right. left.
    + intros s. discriminate.
Defined.

(** X4.  [[az['ZoneName'] for az in zones]]: the comprehension gives the value
    under the key of every item, in order, or raises what the subscript
    raises at the first item that has no such value. *)
Theorem each_item_maps_subscript xs key :
  match each_item xs key with
  | inr vs => Forall2 (fun x v => getitem x key = inr v) xs vs
  | inl e =>
      exists before x rest vs, xs = before ++ x :: rest /\
        Forall2 (fun x v => getitem x key = inr v) before vs /\
        getitem x key = inl e
  end.
Proof.
  induction xs as [|x xs IH]; simpl; [constructor|].
  destruct (getitem x key) as [e|v] eqn:Ex.
  - exists [], x, xs, []. split; [reflexivity|]. split; [constructor | exact Ex].
  - destruct (each_item xs key) as [e|vs].
    + destruct IH as (before & y & rest & vs & -> & Hb & Hy).
      exists (x :: before), y, rest, (v :: vs).
      split; [reflexivity|]. split; [now constructor | exact Hy].
    + now constructor.
Qed.

(** ** Invariants of a run *)

Lemma tick_same w w1 :
  tick w = Some w1 -> trace w1 = trace w /\ globals w1 = globals w.
Proof.
  intros H. destruct (tick_inv _ _ H) as ([_ _ _ Ht] & _ & Hg & _).
  rewrite app_nil_r in Ht. auto.
Qed.

Section Emits.
Context (G : gmap string Json -> Prop) (P : Event -> Prop).

Lemma emitted_here w : G (globals w) ->
  G (globals w) /\ exists evs, trace w = trace w ++ evs /\ Forall P evs.
Proof. intros HG. split; [exact HG|]. exists []. now rewrite app_nil_r. Qed.

Lemma emitted_one w w1 ev : G (globals w) -> tick w = Some w1 -> P ev ->
  G (globals (logs [ev] w1)) /\
  exists evs, trace (logs [ev] w1) = trace w ++ evs /\ Forall P evs.
Proof.
  intros HG Ht Hp. destruct (tick_same _ _ Ht) as [Htr Hgl]. simpl.
  rewrite Hgl, Htr. split; [exact HG|]. exists [ev]. auto.
Qed.

Lemma emits_ret {A} (a : A) : emits G P (ret a).
Proof. intros w r w' HG [= <- <-]. now apply emitted_here. Qed.

Lemma emits_raise {A} e : emits G P (@raise A e).
Proof. intros w r w' HG [= <- <-]. now apply emitted_here. Qed.

Lemma emits_lift {A} (x : Exn + A) : emits G P (lift x).
Proof. destruct x; [apply emits_raise | apply emits_ret]. Qed.

Lemma emits_bind {A B} (m : M A) (k : A -> M B) :
  emits G P m -> (forall a, emits G P (k a)) -> emits G P (bind m k).
Proof.
  intros Hm Hk w r w' HG H. unfold bind in H.
  destruct (m w) as [[a|e|] w1] eqn:E;
    destruct (Hm _ _ _ HG E) as (HG1 & evs1 & Ht1 & Hp1).
  - destruct (Hk a _ _ _ HG1 H) as (HG2 & evs2 & Ht2 & Hp2).
    split; [exact HG2|]. exists (evs1 ++ evs2).
    split; [now rewrite Ht2, Ht1, app_assoc | now apply Forall_app].
  - injection H as <- <-. eauto.
  - injection H as <- <-. eauto.
Qed.

Lemma emits_effect ev : P ev -> emits G P (effect ev).
Proof.
  intros Hp w r w' HG H. unfold effect in H.
  destruct (tick w) as [w1|] eqn:E; injection H as <- <-.
  - now apply emitted_one.
  - now apply emitted_here.
Qed.

Lemma emits_print parts : P (Print parts) -> emits G P (print parts).
Proof. apply emits_effect. Qed.

Lemma emits_sleep s : P (Sleep s) -> emits G P (sleep s).
Proof. apply emits_effect. Qed.

Lemma emits_call svc op kwargs :
  (forall a, P (Call svc op kwargs a)) -> emits G P (call svc op kwargs).
Proof.
  intros Hp w r w' HG H. unfold call in H.
  destruct (tick w) as [w1|] eqn:E.
  - destruct (cloud w (trace w) svc op kwargs) as [msg|v] eqn:Ec;
      injection H as <- <-; now apply emitted_one.
  - injection H as <- <-. now apply emitted_here.
Qed.

Lemma emits_uuid4_hex : emits G P uuid4_hex.
Proof.
  intros w r w' HG [= <- <-]. simpl. split; [exact HG|].
  exists []. now rewrite app_nil_r.
Qed.

Lemma emits_uuid4_str : emits G P uuid4_str.
Proof. apply emits_bind; [apply emits_uuid4_hex | intros; apply emits_ret]. Qed.

Lemma emits_read_global name : emits G P (read_global name).
Proof.
  intros w r w' HG H. unfold read_global in H.
  destruct (globals w !! name); injection H as <- <-; now apply emitted_here.
Qed.

(** What is read from a global is what the invariant says it holds. *)
Lemma emits_read {B} name (k : Json -> M B) :
  (forall v, (exists g, G g /\ g !! name = Some v) -> emits G P (k v)) ->
  emits G P (bind (read_global name) k).
Proof.
  intros Hk w r w' HG H. unfold bind, read_global in H.
  destruct (globals w !! name) as [v|] eqn:E.
  - assert (Hv : emits G P (k v)) by (apply Hk; eauto).
    exact (Hv _ _ _ HG H).
  - injection H as <- <-. now apply emitted_here.
Qed.

Lemma emits_write_global name v :
  (forall g, G g -> G (<[name := v]> g)) -> emits G P (write_global name v).
Proof.
  intros Hg w r w' HG [= <- <-]. simpl. split; [auto|].
  exists []. now rewrite app_nil_r.
Qed.

Lemma emits_try_catch {A} catches (m : M A) h :
  emits G P m -> (forall e, emits G P (h e)) ->
  emits G P (try_catch catches m h).
Proof.
  intros Hm Hh w r w' HG H. unfold try_catch in H.
  destruct (m w) as [[a|e|] w1] eqn:E;
    destruct (Hm _ _ _ HG E) as (HG1 & evs1 & Ht1 & Hp1).
  - injection H as <- <-. eauto.
  - destruct (catches e).
    + destruct (Hh e _ _ _ HG1 H) as (HG2 & evs2 & Ht2 & Hp2).
      split; [exact HG2|]. exists (evs1 ++ evs2).
      split; [now rewrite Ht2, Ht1, app_assoc | now apply Forall_app].
    + injection H as <- <-. eauto.
  - injection H as <- <-. eauto.
Qed.

Lemma emits_for_each {A} (xs : list A) body :
  (forall x, emits G P (body x)) -> emits G P (for_each xs body).
Proof.
  intros Hb. induction xs as [|x xs IH]; simpl.
  - apply emits_ret.
  - apply emits_bind; auto.
Qed.

Lemma emits_for_fold {A S} (xs : list A) (s : S) body :
  (forall x s, emits G P (body x s)) -> emits G P (for_fold xs s body).
Proof.
  intros Hb. revert s. induction xs as [|x xs IH]; simpl; intros s.
  - apply emits_ret.
  - apply emits_bind; auto.
Qed.

Lemma emits_wait_until check_fn target_predicate interval attempts :
  emits G P check_fn -> P (Sleep interval) ->
  emits G P (wait_until check_fn target_predicate interval attempts).
Proof.
  intros Hc Hs. induction attempts as [|n IH]; simpl.
  - apply emits_ret.
  - intros w r w' HG H.
    destruct (check_fn w) as [[v|e|] w1] eqn:E;
      destruct (Hc _ _ _ HG E) as (HG1 & evs1 & Ht1 & Hp1).
    + destruct (target_predicate v); [injection H as <- <-; eauto|].
      destruct n; [injection H as <- <-; eauto|].
      assert (Hr : emits G P (sleep interval;;
                   wait_until check_fn target_predicate interval (S n)))
        by (apply emits_bind; [now apply emits_sleep | intros; apply IH]).
      destruct (Hr _ _ _ HG1 H) as (HG2 & evs2 & Ht2 & Hp2).
      split; [exact HG2|]. exists (evs1 ++ evs2).
      split; [now rewrite Ht2, Ht1, app_assoc | now apply Forall_app].
    + injection H as <- <-. eauto.
    + injection H as <- <-. eauto.
Qed.

Lemma emits_waiter_wait svc name kwargs cfg :
  (forall op a, P (Call svc op kwargs a)) -> (forall s, P (Sleep s)) ->
  emits G P (waiter_wait svc name kwargs cfg).
Proof.
  intros Hc Hs w r w' HG H. unfold waiter_wait in H.
  revert H. generalize (waiters w svc name). intros model H.
  assert (Ht : emits G P
    (o <- wait_until (probe svc model kwargs) (target model)
            (default (delay model) (Delay cfg))
            (default (max_attempts model) (MaxAttempts cfg));;
     match o with
     | Ready => ret tt
     | TimedOut => raise (WaiterError "Max attempts exceeded")
     | RemoteError reason => raise (WaiterError reason)
     end)).
  { apply emits_bind.
    - apply emits_wait_until; [|auto].
      apply emits_bind; [apply emits_call; auto|].
      intros response.
      destruct (failed model response); [apply emits_raise | apply emits_ret].
    - intros []; [apply emits_ret | apply emits_raise | apply emits_raise]. }
  exact (Ht _ _ _ HG H).
Qed.

Lemma emits_def fn body (R : Json -> Prop) :
  P (Enter fn) -> emits G P body -> returns R body ->
  (forall v, R v -> P (Leave fn v)) -> emits G P (def fn body).
Proof.
  intros He Hb Hr Hl w r w' HG H. unfold def in H.
  destruct (body (logs [Enter fn] w)) as [r0 w1] eqn:E.
  destruct (Hb (logs [Enter fn] w) _ _ HG E) as (HG1 & evs & Ht & Hp).
  simpl in Ht.
  destruct r0 as [v|e|]; injection H as <- <-; simpl.
  - split; [exact HG1|]. exists (Enter fn :: evs ++ [Leave fn v]).
    split.
    + rewrite Ht, <- !app_assoc. reflexivity.
    + constructor; [exact He|]. apply Forall_app. split; [exact Hp|].
      repeat constructor. apply Hl. exact (Hr _ _ _ E).
  - split; [exact HG1|]. exists (Enter fn :: evs).
    split; [now rewrite Ht, <- app_assoc | now constructor].
  - split; [exact HG1|]. exists (Enter fn :: evs).
    split; [now rewrite Ht, <- app_assoc | now constructor].
Qed.

Lemma emits_file_effect (m : M unit) ev f :
  (forall w,
     m w = match tick w with
           | None => (Killed, w)
           | Some w1 => (Return tt, logs [ev] (f w1))
           end) ->
  (forall w1, globals (f w1) = globals w1 /\ trace (f w1) = trace w1) ->
  P ev -> emits G P m.
Proof.
  intros Hm Hf Hp w r w' HG H. rewrite Hm in H.
  destruct (tick w) as [w1|] eqn:E; injection H as <- <-.
  - destruct (tick_same _ _ E) as [Htr Hgl].
    destruct (Hf w1) as [Hg' Ht']. simpl. rewrite Hg', Ht', Hgl, Htr.
    split; [exact HG|]. exists [ev]. auto.
  - now apply emitted_here.
Qed.

Lemma emits_write_json path doc :
  P (Truncate path) -> P (Dump path doc) -> P (Close path) ->
  emits G P (write_json path doc).
Proof.
  intros H1 H2 H3. unfold write_json.
  repeat (apply emits_bind; [|intros _]).
  - apply (emits_file_effect _ (Truncate path) (set_file path Truncated));
      auto.
  - apply (emits_file_effect _ (Dump path doc) (set_file path (Writing doc)));
      auto.
  - apply (emits_file_effect _ (Close path)
             (fun w1 => match files w1 !! path with
                        | Some (Writing doc) => set_file path (Complete doc) w1
                        | _ => w1
                        end)); auto.
    intros w1. destruct (files w1 !! path) as [[]|]; auto.
Qed.

End Emits.

Ltac emits_step side :=
  lazymatch goal with
  | |- emits _ _ (bind (read_global _) _) =>
      apply emits_read; intros ? ?
  | |- emits _ _ (bind _ _) => apply emits_bind; [ | intros ? ]
  | |- emits _ _ (ret _) => apply emits_ret
  | |- emits _ _ (raise _) => apply emits_raise
  | |- emits _ _ (print _) => apply emits_print; side
  | |- emits _ _ (sleep _) => apply emits_sleep; side
  | |- emits _ _ (call _ _ _) => apply emits_call; intros ?; side
  | |- emits _ _ (idx _ _) => apply emits_lift
  | |- emits _ _ (nth_ _ _) => apply emits_lift
  | |- emits _ _ (lift _) => apply emits_lift
  | |- emits _ _ uuid4_hex => apply emits_uuid4_hex
  | |- emits _ _ uuid4_str => apply emits_uuid4_str
  | |- emits _ _ (read_global _) => apply emits_read_global
  | |- emits _ _ (write_global _ _) => apply emits_write_global; side
  | |- emits _ _ (write_json _ _) => apply emits_write_json; side
  | |- emits _ _ (waiter_wait _ _ _ _) =>
      apply emits_waiter_wait; intros; side
  | |- emits _ _ (for_each _ _) => apply emits_for_each; intros ?
  | |- emits _ _ (for_fold _ _ _) =>
      apply emits_for_fold; intros ? ?;
      repeat match goal with p : (_ * _)%type |- _ => destruct p end;
      cbv beta iota
  | |- emits _ _ (try_except _ _) => apply emits_try_catch; [ | intros ? ]
  | |- emits _ _ (Backup.getenv ?environ ?name) =>
      unfold Backup.getenv; destruct (environ !! name)
  | |- emits _ _ (Deploy.ledger_get _ _) => unfold Deploy.ledger_get
  | |- emits _ _ (Deploy.create_backup_bucket _) =>
      unfold Deploy.create_backup_bucket
  | |- emits _ _ (Deploy.create_lambda_role _) =>
      unfold Deploy.create_lambda_role
  | |- emits _ _ (Deploy.schedule_backup _ _ _ _ _ _) =>
      unfold Deploy.schedule_backup
  | |- emits _ _ (Deploy.configure_dns_try _ _) =>
      unfold Deploy.configure_dns_try
  | |- emits _ _ (match ?x with _ => _ end) => destruct x
  | |- emits _ _ _ => progress cbv zeta
  end.

Ltac emits_tac side := repeat emits_step side.

(** ** The ledger the first script leaves to the second *)

Ltac read_later_tac :=
  unfold read_later;
  lazymatch goal with
  | |- Forall _ (paths_read ?fn) =>
      let l := eval vm_compute in (paths_read fn) in
      change (paths_read fn) with l
  end;
  repeat constructor; eexists; vm_compute; reflexivity.

Ltac trivial_side := first [exact I | intros; exact I].

Ltac stage_values_step :=
  lazymatch goal with
  | |- emits _ _ (def ?fn _) =>
      apply emits_def with (R := read_later fn);
      [ exact I
      | emits_tac trivial_side
      | repeat returns_step; try (apply returns_ret; read_later_tac)
      | intros ? Hv; exact Hv ]
  | |- emits _ _ Iac.create_vpc => unfold Iac.create_vpc
  | |- emits _ _ (Iac.create_security_groups _) =>
      unfold Iac.create_security_groups
  | |- emits _ _ Iac.create_iam_role => unfold Iac.create_iam_role
  | |- emits _ _ (Iac.create_launch_template _ _) =>
      unfold Iac.create_launch_template
  | |- emits _ _ (Iac.create_load_balancer _ _) =>
      unfold Iac.create_load_balancer
  | |- emits _ _ (Iac.create_auto_scaling_group _ _ _) =>
      unfold Iac.create_auto_scaling_group
  | |- emits _ _ (Iac.save_infrastructure_details _) =>
      unfold Iac.save_infrastructure_details
  | |- emits _ _ (bind _ _) => apply emits_bind; [ | intros ? ]
  | |- _ => emits_step trivial_side
  end.

Lemma Iac_main_values : emits anything (leaves read_later) Iac.main.
Proof. unfold Iac.main. repeat stage_values_step. Qed.

Lemma returned_leaves R evs fn v :
  Forall (leaves R) evs -> (fn, v) ∈ returned evs -> R fn v.
Proof.
  induction 1 as [|e evs He _ IH]; simpl; [intros H; now apply elem_of_nil in H|].
  destruct e; auto.
  intros H. apply elem_of_cons in H as [[= -> ->]|H]; auto.
Qed.

Lemma has_path_cons d key rest v :
  d !! key = Some v -> has_path v rest -> has_path (JDict d) (key :: rest).
Proof. intros Hd [x Hx]. exists x. simpl. now rewrite Hd. Qed.

(** X5.  The keys are stable from one script to the next: when the first
    script returns, the ledger file it leaves has a value at every
    subscript at which the second script reads the ledger. *)
Theorem first_script_writes_what_second_reads w w' :
  Iac.main w = (Return tt, w') ->
  exists doc,
    files w' !! ledger_file = Some (Complete doc) /\
    Forall (has_path doc) ledger_reads.
Proof.
  intros H.
  destruct (Iac_main_values w _ _ I H) as (_ & evs' & Ht' & Hp).
  pose proof H as H0. apply Iac_main_run in H0 as [H0 _].
  apply (pipeline_run_flushed _ _ (fun values => outputs Iac.stages values))
    in H0; [|apply Iac_keys_NoDup|auto].
  destruct H0 as (evs & Ht & _ & _ & Hret).
  destruct (Hret eq_refl) as (d & Hf & Hd).
  assert (evs' = evs) as -> by (rewrite Ht in Ht'; now apply app_inv_head in Ht').
  exists (JDict d). split; [rewrite Hf; apply lookup_insert_eq|].
  assert (Hv : forall fn key, (fn, key) ∈ Iac.stages ->
            exists v, d !! key = Some v /\ read_later fn v).
  { intros fn key Hin. destruct (Hd fn key Hin) as (v & Hr & Hk).
    exists v. split; [exact Hk|]. exact (returned_leaves _ _ _ _ Hp Hr). }
  unfold ledger_reads.
  repeat match goal with
  | |- Forall _ [] => constructor
  | |- Forall _ ((?key :: ?rest) :: _) =>
      constructor;
      [ let fn := eval vm_compute in
            (default "" (fst <$> head (filter (fun s => bool_decide (s.2 = key))
                                              Iac.stages))) in
        destruct (Hv fn key) as (v & Hk & Hr);
        [ unfold Iac.stages; rewrite !elem_of_cons; auto 10
        | apply (has_path_cons _ _ _ _ Hk);
          unfold read_later in Hr;
          let l := eval vm_compute in (paths_read fn) in
          change (paths_read fn) with l in Hr;
          repeat match goal with
                 | Hr : Forall _ (_ :: _) |- _ =>
                     apply Forall_cons in Hr as [? Hr]
                 end;
          assumption ]
      | ]
  end.
Qed.

Lemma first_script_writes_what_second_reads_witness :
  exists doc,
    files (Iac.main Sample.fresh).2 !! ledger_file = Some (Complete doc) /\
    Forall (has_path doc) ledger_reads.
Proof.
  assert (R : (Iac.main Sample.fresh).1 = Return tt)
    by (vm_compute; reflexivity).
  exact (first_script_writes_what_second_reads Sample.fresh _
           (run_eq Iac.main Sample.fresh _ R)).
Defined.

(** ** The load of the second script *)

(** X6.  The load at the top of the second script, when the ledger file holds
    an object with [vpc.vpc_id]: it assigns the global [infrastructure] to
    the whole ledger, prints one line, assigns the global [vpc_id] to the
    ledger's [vpc.vpc_id], and touches nothing else. *)
Theorem load_assigns_both_globals w d vpc vpc_id :
  kill_after w = None ->
  files w !! ledger_file = Some (Complete (JDict d)) ->
  d !! "vpc" = Some vpc ->
  getitem vpc "vpc_id" = inr vpc_id ->
  Deploy.load w
  = (Return tt,
     set_global "vpc_id" vpc_id
       (logs [Print [JStr "Loaded existing infrastructure details"]]
          (set_global "infrastructure" (JDict d) w))).
Proof.
  intros Hk Hf Hd Hv.
  unfold Deploy.load, try_catch, bind, read_json, write_global, print, effect,
    read_global, idx, lift, tick.
  rewrite Hf. cbn [kill_after set_global logs globals]. rewrite Hk.
  cbn [kill_after set_global logs globals]. rewrite lookup_insert_eq.
  cbn [getitem]. rewrite Hd. unfold ret. cbn beta iota. rewrite Hv.
  reflexivity.
Qed.

Lemma load_assigns_both_globals_witness :
  Deploy.load (Sample.resumed Sample.accepting None)
  = (Return tt,
     set_global "vpc_id" (JStr "vpc-1")
       (logs [Print [JStr "Loaded existing infrastructure details"]]
          (set_global "infrastructure" (JDict Sample.ledger)
             (Sample.resumed Sample.accepting None)))).
Proof.
  apply (load_assigns_both_globals _ Sample.ledger
           (dict [("vpc_id", JStr "vpc-1");
                  ("subnets", dict [("public", JList [JStr "subnet-1";
                                                      JStr "subnet-2"]);
                                    ("private", JList [JStr "subnet-3";
                                                       JStr "subnet-4"])])]));
    vm_compute; reflexivity.
Defined.

(** X7.  A ledger file that is there but does not hold a whole document, as a
    flush cut short leaves it, ends the second script at once: the load
    catches only the missing file, so the decoding error ends the process
    before anything is printed and before any def is entered. *)
Theorem unreadable_ledger_ends_second_script w st :
  files w !! ledger_file = Some st ->
  (forall doc, st <> Complete doc) ->
  Deploy.script w = (Raise JSONDecodeError, w).
Proof.
  intros Hf Hst.
  unfold Deploy.script, Deploy.load, try_catch, bind, read_json.
  rewrite Hf. destruct st as [doc| |]; [now destruct (Hst doc)| |];
    reflexivity.
Qed.

(** The file a crash between [open] and [json.dump] left is such a file. *)
Lemma unreadable_ledger_ends_second_script_witness :
  Deploy.script Sample.after_crash_in_flush
  = (Raise JSONDecodeError, Sample.after_crash_in_flush).
Proof.
  apply (unreadable_ledger_ends_second_script _ Truncated).
  - vm_compute. reflexivity.
  - intros doc. discriminate.
Defined.

(** ** What the stages keep off *)

Lemma stage_run_keeps_off fn Q R w r w' :
  stage_run fn Q R w r w' ->
  files w' = files w /\ globals w' = globals w /\
  exists evs, trace w' = trace w ++ evs /\ file_events evs = [].
Proof.
  intros [Hf Hg (evs & He & Hp) _ _ _]. split; [exact Hf|].
  split; [exact Hg|]. eexists. split; [apply He|].
  unfold framed. simpl. rewrite file_events_app, (file_events_plain _ Hp).
  now destruct r.
Qed.

Lemma keeps_off_stage fn Q R (m : M Json) :
  (forall w r w', m w = (r, w') -> stage_run fn Q R w r w') ->
  keeps_off_files_and_globals m.
Proof. intros Hm w r w' H. eapply stage_run_keeps_off, Hm, H. Qed.

Lemma create_load_balancer_any_run a b w r w' :
  Iac.create_load_balancer a b w = (r, w') ->
  stage_run "create_load_balancer" any_exn (fun _ => True) w r w'.
Proof.
  apply (def_stage _ _ anything); [tame_tac | apply returns_any | exact I].
Qed.

(** X8.  No stage of the first script touches a file or a module global,
    however it ends: the ledger file and the globals are written by the
    top-level code and by [save_infrastructure_details] only. *)
Theorem Iac_stages_keep_off_files_and_globals :
  keeps_off_files_and_globals Iac.create_vpc /\
  (forall vpc_id, keeps_off_files_and_globals (Iac.create_security_groups vpc_id)) /\
  keeps_off_files_and_globals Iac.create_iam_role /\
  (forall sg profile,
     keeps_off_files_and_globals (Iac.create_launch_template sg profile)) /\
  (forall subnets sg,
     keeps_off_files_and_globals (Iac.create_load_balancer subnets sg)) /\
  (forall lt subnets tgs,
     keeps_off_files_and_globals (Iac.create_auto_scaling_group lt subnets tgs)).
Proof.
  split; [|split; [|split; [|split; [|split]]]]; intros;
    eapply keeps_off_stage; intros w r w' H.
  - eapply create_vpc_run, H.
  - eapply create_security_groups_run, H.
  - eapply create_iam_role_run, H.
  - eapply create_launch_template_run, H.
  - eapply create_load_balancer_any_run, H.
  - eapply create_auto_scaling_group_run, H.
Qed.

(** X9.  No stage of the second script touches a file or a module
    global either, however it ends: the ledger file and the globals are
    written by the load at the top and by [update_infrastructure_details]
    only. *)
Theorem Deploy_stages_keep_off_files_and_globals :
  keeps_off_files_and_globals Deploy.deploy_backend_services /\
  keeps_off_files_and_globals Deploy.set_up_load_balancer /\
  (forall domain_name alb_dns,
     keeps_off_files_and_globals (Deploy.configure_dns domain_name alb_dns)) /\
  keeps_off_files_and_globals Deploy.deploy_frontend /\
  keeps_off_files_and_globals Deploy.create_lambda_functions.
Proof.
  split; [|split; [|split; [|split]]]; intros;
    eapply keeps_off_stage; intros w r w' H.
  - eapply deploy_backend_services_run, H.
  - eapply set_up_load_balancer_run, H.
  - eapply configure_dns_run, H.
  - eapply deploy_frontend_run, H.
  - eapply create_lambda_functions_run, H.
Qed.

(** ** The VPC of the target groups *)

Ltac target_group_side :=
  hnf; intros ? ? Heq;
  first
    [ discriminate Heq
    | injection Heq as <- _;
      repeat match goal with
             | H : exists _, _ /\ _ |- _ =>
                 let Hg := fresh in let Hl := fresh in
                 destruct H as (? & Hg & Hl); hnf in Hg;
                 rewrite Hg in Hl; injection Hl as <-
             end;
      unfold Iac.target_group; rewrite !elem_of_cons; auto 10 ].

Lemma create_load_balancer_emits subnets alb_sg_id g :
  emits (fun gl => gl !! "vpc_id" = Some g) (target_group_in g)
    (Iac.create_load_balancer subnets alb_sg_id).
Proof.
  unfold Iac.create_load_balancer.
  apply emits_def with (R := fun _ => True);
    [ target_group_side | | apply returns_any | intros; target_group_side ].
  emits_tac target_group_side.
Qed.

(** X10.  Every target group [create_load_balancer] asks for, it asks for in the
    VPC the module global [vpc_id] holds at the call: the [VpcId] of the
    request is the value of the global, whatever the arguments of the def
    are. *)
Theorem target_groups_go_to_global_vpc subnets alb_sg_id g w r w' :
  globals w !! "vpc_id" = Some g ->
  Iac.create_load_balancer subnets alb_sg_id w = (r, w') ->
  exists evs, trace w' = trace w ++ evs /\ Forall (target_group_in g) evs.
Proof.
  intros Hg H.
  exact (proj2 (create_load_balancer_emits subnets alb_sg_id g w r w' Hg H)).
Qed.

Lemma target_groups_go_to_global_vpc_witness :
  exists evs,
    trace (Iac.create_load_balancer
             (dict [("public", JList [JStr "subnet-1"])]) (JStr "sg-1")
             (Sample.world Sample.accepting ∅ {[ "vpc_id" := JStr "vpc-9" ]}
                None)).2
    = trace (Sample.world Sample.accepting ∅ {[ "vpc_id" := JStr "vpc-9" ]}
               None) ++ evs /\
    Forall (target_group_in (JStr "vpc-9")) evs.
Proof.
  apply (target_groups_go_to_global_vpc
           (dict [("public", JList [JStr "subnet-1"])]) (JStr "sg-1")
           (JStr "vpc-9")
           (Sample.world Sample.accepting ∅ {[ "vpc_id" := JStr "vpc-9" ]}
              None)
           (Iac.create_load_balancer
              (dict [("public", JList [JStr "subnet-1"])]) (JStr "sg-1")
              (Sample.world Sample.accepting ∅ {[ "vpc_id" := JStr "vpc-9" ]}
                 None)).1).
  - reflexivity.
  - apply surjective_pairing.
Defined.

(** ** The backup functions *)

Lemma tame_getenv_missing G Q environ name :
  (environ !! name = None -> Q (KeyError name)) ->
  tame G Q (Backup.getenv environ name).
Proof.
  intros HQ. unfold Backup.getenv.
  destruct (environ !! name); [apply tame_ret | apply tame_raise; auto].
Qed.

Lemma tame_boto3_client G Q region service :
  (region = None -> Q NoRegionError) -> tame G Q (boto3_client region service).
Proof.
  intros HQ. unfold boto3_client.
  destruct region; [apply tame_ret | apply tame_raise; auto].
Qed.

Ltac handler_tame :=
  repeat first
    [ apply tame_boto3_client; intros ?; left; split; [reflexivity | assumption]
    | apply tame_getenv_missing;
      first [ intros ?; right; eexists; split; [reflexivity|];
              split; [|assumption]; auto
            | intros; reflexivity ]
    | tame_step ];
  tame_side.

Ltac handler_returns :=
  repeat first
    [ apply returns_try_catch; [|intros ?]
    | progress unfold try_except, Backup.getenv, boto3_client
    | returns_step ];
  try (apply returns_ret; eexists _, _; split; [reflexivity | auto]).

Lemma status_of_stage_run region environ fn w r w' :
  stage_run fn (missing_variable region environ) status_record w r w' ->
  files w' = files w /\
  match r with
  | Return v => status_record v
  | Raise e => missing_variable region environ e
  | Killed => kill_after w <> None
  end.
Proof.
  intros [Hf _ _ Hq Ha Hv]. split; [exact Hf|].
  destruct r as [v|e|]; auto.
  intros Hk. now destruct (Ha Hk).
Qed.

(** X11.  Both backup functions answer with a status record, code 200 or
    500, whenever they get as far as their [try]: whatever the remote
    answers there, and also when the wait for the snapshot runs out, the
    [except] turns the failure into the answer with code 500.  What leaves
    the function as an exception is raised before the [try]:
    [NoRegionError] from the two clients made without a region, when the
    session has none, and [KeyError] for one of the two variables read
    there, when it is not set.  The function writes no file. *)
Theorem backup_functions_answer_with_status region environ timestamp :
  answers_with_status region environ
    (Backup.lambda_handler region environ timestamp) /\
  (forall invoked_function_arn,
     answers_with_status region environ
       (DeployLambda.lambda_handler region environ timestamp
          invoked_function_arn)).
Proof.
  split; intros; intros w r w' H;
    apply (status_of_stage_run region environ "lambda_handler");
    revert H; apply (def_stage _ _ anything); try exact I.
  - handler_tame.
  - handler_returns.
  - handler_tame.
  - handler_returns.
Qed.

(** An invocation with a region and both variables, against a remote whose
    snapshot never becomes available: the answer has code 500. *)
Lemma backup_functions_answer_with_status_witness :
  files (Backup.lambda_handler (Some "us-west-1") Sample.environ
           "2025-06-01-03-00-00" Sample.never_available).2
  = files Sample.never_available /\
  match (Backup.lambda_handler (Some "us-west-1") Sample.environ
           "2025-06-01-03-00-00" Sample.never_available).1 with
  | Return v => status_record v
  | Raise e => missing_variable (Some "us-west-1") Sample.environ e
  | Killed => kill_after Sample.never_available <> None
  end.
Proof.
  apply (proj1 (backup_functions_answer_with_status (Some "us-west-1")
                  Sample.environ "2025-06-01-03-00-00")).
  apply surjective_pairing.
Defined.

(** ** The backup set-up and its configuration file *)

Lemma filed_ret {A} (F : A -> _ -> _ -> Prop) a :
  (forall fs, F a fs fs) -> filed F (ret a).
Proof. intros HF w r w' [= <- <-]. split; [auto | apply HF]. Qed.

Lemma filed_bind {A B} (F : B -> _ -> _ -> Prop) Q (R : A -> Prop)
    (m : M A) (k : A -> M B) :
  tame anything Q m -> returns R m -> (forall a, R a -> filed F (k a)) ->
  filed F (bind m k).
Proof.
  intros Hm Hr Hk w r w' H. apply bind_inv in H.
  destruct H as [(a & w1 & E & H) | [(e & E & ->) | (E & ->)]];
    pose proof (Hm _ _ _ I E) as [Hf _ _ _ Ha].
  - destruct (Hk a (Hr _ _ _ E) _ _ _ H) as [Hk1 HF]. split.
    + intros Hn. apply Hk1. now apply Ha.
    + rewrite Hf in HF. destruct r; auto.
      intros Hn. apply HF. now apply Ha.
  - split; [intros Hn; now apply Ha | exact Hf].
  - split; [intros Hn; now apply Ha|]. intros Hn. now destruct (Ha Hn).
Qed.

Lemma filed_def (F : Json -> _ -> _ -> Prop) fn body :
  filed F body -> filed F (def fn body).
Proof.
  intros Hb w r w' H. unfold def in H.
  destruct (body (logs [Enter fn] w)) as [[v|e|] w1] eqn:E;
    injection H as <- <-; exact (Hb (logs [Enter fn] w) _ _ E).
Qed.

Lemma filed_write_json path doc msg :
  filed (fun v fs fs' => v = doc /\ fs' = <[path := Complete doc]> fs)
    (write_json path doc;; print msg;; ret doc).
Proof.
  intros w r w' H. apply bind_inv in H.
  destruct H as [(a & w1 & E & H) | [(e & E & ->) | (E & ->)]];
    apply write_json_run in E; destruct E as (_ & Hk & n & _ & Hf & Hn);
    try contradiction; [|split; [exact Hk | apply Hn]].
  subst n. change (take 3 _) with [Truncate path; Dump path doc; Close path] in Hf.
  rewrite (replay_flush (files w) path doc) in Hf.
  apply bind_inv in H.
  destruct H as [(a' & w2 & E & H) | [(e & E & ->) | (E & ->)]];
    apply print_tamed in E; destruct E as [Hf2 _ _ Hq Ha].
  - injection H as <- <-. split; [intros Hn; now apply Ha, Hk|].
    split; [reflexivity | congruence].
  - destruct (Hq e eq_refl).
  - split; [intros Hn; now apply Ha, Hk|].
    intros Hn. now destruct (Ha (Hk Hn)).
Qed.

Lemma bucket_attempt_returns bucket_name :
  returns (fun failed => failed = None \/ exists e, failed = Some (error_record e))
    (try_except (Deploy.create_backup_bucket bucket_name;; ret None)
       (fun e =>
          print [JStr "Error creating S3 bucket: "; JStr (str e)];;
          ret (Some (dict [("error", JStr (str e))])))).
Proof.
  apply returns_try_catch.
  - apply returns_bind. intros _. apply returns_ret. now left.
  - intros e. apply returns_bind. intros _. apply returns_ret.
    right. now exists e.
Qed.

Lemma filed_weaken {A} (F F' : A -> _ -> _ -> Prop) (m : M A) :
  filed F m -> (forall a fs fs', F a fs fs' -> F' a fs fs') -> filed F' m.
Proof.
  intros Hm HF w r w' H. destruct (Hm w r w' H) as [Hk Hr].
  split; [exact Hk|]. destruct r; auto.
Qed.

Ltac filed_step :=
  lazymatch goal with
  | |- filed _ (bind (write_json _ _) _) =>
      apply (filed_weaken _ _ _ (filed_write_json _ _ _));
      intros ? ? ? [-> ->]; right;
      split; [eexists; vm_compute; reflexivity | reflexivity]
  | |- filed _ (bind _ _) =>
      apply (filed_bind _ any_exn (fun _ => True));
      [ tame_tac | apply returns_any | intros ? _ ]
  | |- filed _ (match ?x with _ => _ end) => destruct x
  | |- filed _ _ => progress cbv zeta
  end.

(** X12.  A run of [create_db_backup_lambda] that returns has either
    given up on the bucket, returned an error record and written nothing,
    or returned the configuration, with the bucket in it, and left exactly
    that configuration in [backup_config.json]. *)
Theorem backup_config_is_written_at_return w v w' :
  Backup.create_db_backup_lambda w = (Return v, w') ->
  config_or_error v (files w) (files w').
Proof.
  intros H.
  assert (HF : filed config_or_error Backup.create_db_backup_lambda).
  { unfold Backup.create_db_backup_lambda. apply filed_def.
    apply (filed_bind _ any_exn (fun _ => True));
      [tame_tac | apply returns_any | intros _ _].
    apply (filed_bind _ any_exn (fun _ => True));
      [tame_tac | apply returns_any | intros hex _].
    cbv zeta.
    apply (filed_bind _ any_exn
             (fun failed => failed = None \/
                            exists e, failed = Some (error_record e)));
      [tame_tac | apply bucket_attempt_returns | intros failed Hfailed].
    destruct failed as [record|].
    - destruct Hfailed as [[=]|[e [= ->]]]. apply filed_ret.
      intros fs. left. eauto.
    - repeat filed_step.
  }
  exact (proj2 (HF w (Return v) w' H)).
Qed.

(** The set-up against a remote that accepts every call returns its
    configuration and leaves it in the file. *)
Lemma backup_config_is_written_at_return_witness :
  exists v,
    (Backup.create_db_backup_lambda Sample.fresh).1 = Return v /\
    config_or_error v (files Sample.fresh)
      (files (Backup.create_db_backup_lambda Sample.fresh).2).
Proof.
  eexists. split; [vm_compute; reflexivity|].
  apply backup_config_is_written_at_return.
  apply run_eq. vm_compute; reflexivity.
Defined.

(** ** The top-level code of lambda-backup-script.py *)

Lemma error_record_has_no_bucket e :
  getitem (error_record e) "s3_bucket" = inl (KeyError "s3_bucket").
Proof. reflexivity. Qed.

(** X13.  When the remote rejects [create_bucket], the top-level code of
    lambda-backup-script.py takes the error record for a configuration: it
    prints that the deployment completed successfully and then ends with
    [KeyError] for [s3_bucket], the key it reads next.  Nothing but the
    bucket was asked for, and no file is written. *)
Theorem backup_main_takes_error_record_for_config w msg :
  kill_after w = None ->
  rejects w
    (trace w ++
     [Print [JStr "Setting up AWS Lambda for database backups with timestamping..."];
      Enter "create_db_backup_lambda";
      Print [JStr "Setting up database backup infrastructure..."]])
    "s3" "create_bucket" msg ->
  exists w',
    Backup.main w = (Raise (KeyError "s3_bucket"), w') /\
    files w' = files w /\
    exists kwargs,
      trace w' = trace w ++
        [Print [JStr "Setting up AWS Lambda for database backups with timestamping..."];
         Enter "create_db_backup_lambda";
         Print [JStr "Setting up database backup infrastructure..."];
         Call "s3" "create_bucket" kwargs (inl msg);
         Print [JStr "Error creating S3 bucket: "; JStr msg];
         Leave "create_db_backup_lambda" (error_record (ClientError msg));
         Print [JStr (Backup.line_feed +:+
                      "Lambda deployment completed successfully!")]].
Proof.
  intros Hk Hr. unfold rejects in Hr. eexists. split; [|split].
  - unfold Backup.main, Backup.create_db_backup_lambda, def, bind, try_except,
      try_catch, Deploy.create_backup_bucket, bind, call, print, effect,
      uuid4_hex, tick, ret, idx, lift.
    run_with Hk Hr. cbn [is_Exception]. run_with Hk Hr.
    change (dict [("error", JStr (str (ClientError msg)))])
      with (error_record (ClientError msg)).
    rewrite error_record_has_no_bucket. reflexivity.
  - reflexivity.
  - eexists. cbn [trace logs drew]. rewrite <- !app_assoc. reflexivity.
Qed.

Lemma backup_main_takes_error_record_for_config_witness :
  exists w',
    Backup.main Sample.bucket_rejected = (Raise (KeyError "s3_bucket"), w') /\
    files w' = files Sample.bucket_rejected /\
    exists kwargs,
      trace w' = trace Sample.bucket_rejected ++
        [Print [JStr "Setting up AWS Lambda for database backups with timestamping..."];
         Enter "create_db_backup_lambda";
         Print [JStr "Setting up database backup infrastructure..."];
         Call "s3" "create_bucket" kwargs (inl "BucketAlreadyExists");
         Print [JStr "Error creating S3 bucket: "; JStr "BucketAlreadyExists"];
         Leave "create_db_backup_lambda"
           (error_record (ClientError "BucketAlreadyExists"));
         Print [JStr (Backup.line_feed +:+
                      "Lambda deployment completed successfully!")]].
Proof.
  apply backup_main_takes_error_record_for_config.
  - reflexivity.
  - intros kwargs. reflexivity.
Defined.

(** ** The subnets of [create_vpc] *)

Lemma returns_def (R : Json -> Prop) fn body :
  returns R body -> returns R (def fn body).
Proof.
  intros Hb w v w' H. unfold def in H.
  destruct (body (logs [Enter fn] w)) as [[a|e|] w1] eqn:E; try discriminate.
  injection H as <- <-. exact (Hb _ _ _ E).
Qed.

Lemma returns_bind_with {A B} (P : A -> Prop) (R : B -> Prop) (m : M A) k :
  returns P m -> (forall a, P a -> returns R (k a)) -> returns R (bind m k).
Proof.
  intros Hm Hk w v w' H. unfold bind in H.
  destruct (m w) as [[a|e|] w1] eqn:E; try discriminate.
  exact (Hk a (Hm _ _ _ E) _ _ _ H).
Qed.

Lemma returns_for_fold_from {A St} (Inv : nat -> St -> Prop)
    (xs : list (nat * A)) body n s :
  Inv n s ->
  (forall i x s, Inv i s -> returns (Inv (S i)) (body x s)) ->
  returns (Inv (n + length xs)) (for_fold xs s body).
Proof.
  intros Hs Hb. revert n s Hs. induction xs as [|x xs IH]; intros n s Hs; simpl.
  - rewrite Nat.add_0_r. now apply returns_ret.
  - apply (returns_bind_with (Inv (S n))); [now apply Hb|].
    intros s1 Hs1. replace (n + S (length xs)) with (S n + length xs) by lia.
    now apply IH.
Qed.

Lemma create_vpc_two_subnets : returns two_subnets_each Iac.create_vpc.
Proof.
  unfold Iac.create_vpc. apply returns_def.
  repeat lazymatch goal with
         | |- returns _ (bind (for_fold _ _ _) _) => fail
         | |- _ => returns_step
         end.
  apply (returns_bind_with
           (fun s : list Json * list Json =>
              length s.1 = 2 /\ length s.2 = 2)).
  - lazymatch goal with
    | |- returns _ (for_fold ?xs ?s0 ?body) =>
        assert (Hl : length xs = 2)
          by (rewrite length_imap, length_take; lia);
        pose proof (returns_for_fold_from
                      (fun n (st : list Json * list Json) =>
                         length st.1 = n /\ length st.2 = n) xs body 0 s0
                      (conj eq_refl eq_refl)) as Hf
    end.
    rewrite Hl in Hf. apply Hf.
    intros i [j az] [public private] [H1 H2]. simpl in H1, H2.
    repeat returns_step. apply returns_ret. simpl.
    rewrite !length_app. simpl. lia.
  - intros [public private] [H1 H2]. simpl in H1, H2.
    repeat returns_step. apply returns_ret.
    exists public, private. split; [vm_compute; reflexivity|].
    split; [vm_compute; reflexivity | auto].
Qed.

Lemma create_vpc_own_exception w r w' :
  Iac.create_vpc w = (r, w') ->
  stage_run "create_vpc" too_few_zones (fun _ => True) w r w'.
Proof.
  apply (def_stage _ _ anything); [|apply returns_any | exact I].
  tame_tac; try (hnf; intros ? [= <-]; reflexivity).
Qed.

(** X14.  [create_vpc] makes subnets for the first two availability zones only:
    the record it returns lists exactly two public and two private
    subnets, however many zones the region has.  And the only exception
    the def raises itself is the one for a region with fewer than two
    zones. *)
Theorem create_vpc_makes_two_subnets_each :
  (forall w v w', Iac.create_vpc w = (Return v, w') -> two_subnets_each v) /\
  (forall w msg w', Iac.create_vpc w = (Raise (PlainException msg), w') ->
     msg = "Need at least 2 availability zones").
Proof.
  split.
  - intros w v w' H. exact (create_vpc_two_subnets w v w' H).
  - intros w msg w' H. apply create_vpc_own_exception in H.
    exact (stage_raise _ _ _ _ _ _ H _ eq_refl msg eq_refl).
Qed.

Lemma create_vpc_makes_two_subnets_each_witness :
  exists v, (Iac.create_vpc Sample.fresh).1 = Return v /\ two_subnets_each v.
Proof.
  assert (R : exists v, (Iac.create_vpc Sample.fresh).1 = Return v)
    by (vm_compute; eexists; reflexivity).
  destruct R as [v R]. exists v. split; [exact R|].
  exact (proj1 create_vpc_makes_two_subnets_each Sample.fresh v _
           (run_eq Iac.create_vpc Sample.fresh _ R)).
Defined.

(** ** The hosted zone of [configure_dns] *)

(** X15.  When Route 53 lists a hosted zone named like the domain,
    [configure_dns] creates none: it draws no caller reference, and the
    call after the listing is the change of the record sets, in the zone
    whose identifier is the part of the listed [Id] after its last slash.
    When that change is accepted the def returns the domain, that
    identifier and the name servers of the zone. *)
Theorem configure_dns_reuses_listed_zone domain_name alb_dns w
    response hosted_zones zones zone zone_id changed delegation_set
    nameservers :
  kill_after w = None ->
  cloud w
    (trace w ++
     [Enter "configure_dns";
      Print [JStr "Configuring DNS for "; JStr domain_name;
             JStr " pointing to "; alb_dns; JStr "..."]])
    "route53" "list_hosted_zones_by_name" [("DNSName", JStr domain_name)]
  = inr response ->
  getitem response "HostedZones" = inr hosted_zones ->
  iterate hosted_zones = inr zones ->
  Deploy.find_zone zones domain_name = inr (Some zone) ->
  getitem zone "Id" = inr (JStr zone_id) ->
  (forall kwargs,
     cloud w
       (trace w ++
        [Enter "configure_dns";
         Print [JStr "Configuring DNS for "; JStr domain_name;
                JStr " pointing to "; alb_dns; JStr "..."];
         Call "route53" "list_hosted_zones_by_name"
           [("DNSName", JStr domain_name)] (inr response)])
       "route53" "change_resource_record_sets" kwargs
     = inr changed) ->
  Deploy.get_or zone "DelegationSet" (dict []) = inr delegation_set ->
  Deploy.get_or delegation_set "NameServers" (JList []) = inr nameservers ->
  exists w',
    Deploy.configure_dns domain_name alb_dns w
    = (Return (dict [("domain_name", JStr domain_name);
                     ("hosted_zone_id",
                      JStr (Deploy.last_segment_from zone_id ""));
                     ("nameservers", nameservers)]), w') /\
    draws w' = draws w /\
    trace w' = trace w ++
      [Enter "configure_dns";
       Print [JStr "Configuring DNS for "; JStr domain_name;
              JStr " pointing to "; alb_dns; JStr "..."];
       Call "route53" "list_hosted_zones_by_name"
         [("DNSName", JStr domain_name)] (inr response);
       Call "route53" "change_resource_record_sets"
         [("HostedZoneId", JStr (Deploy.last_segment_from zone_id ""));
          ("ChangeBatch",
           dict [("Changes",
                  JList [Deploy.alias_record domain_name alb_dns;
                         Deploy.alias_record ("www." +:+ domain_name)
                           alb_dns])])]
         (inr changed);
       Print [JStr "DNS records created/updated for "; JStr domain_name;
              JStr " and www."; JStr domain_name];
       Leave "configure_dns"
         (dict [("domain_name", JStr domain_name);
                ("hosted_zone_id",
                 JStr (Deploy.last_segment_from zone_id ""));
                ("nameservers", nameservers)])].
Proof.
  intros Hk Hl Hz Hi Hf Hid Hc Hd Hn. eexists. split; [|split].
  - unfold Deploy.configure_dns, def, try_except, try_catch,
      Deploy.configure_dns_try, bind, call, print, effect, tick, ret, idx,
      lift.
    repeat (cbv delta [ret raise]; cbn beta iota;
            cbn [kill_after logs drew trace cloud globals files draws entropy
                 Deploy.last_segment];
            rewrite <- ?app_assoc; cbn [app];
            first [rewrite Hk | rewrite Hl | rewrite Hz | rewrite Hi
                  | rewrite Hf | rewrite Hid | rewrite Hc | rewrite Hd
                  | rewrite Hn]).
    reflexivity.
  - reflexivity.
  - cbn [trace logs]. rewrite <- !app_assoc. reflexivity.
Qed.

Lemma configure_dns_reuses_listed_zone_witness :
  exists w',
    Deploy.configure_dns "project-orc.example.com"
      (JStr "alb.us-west-1.elb.example.com") Sample.zone_exists
    = (Return (dict [("domain_name", JStr "project-orc.example.com");
                     ("hosted_zone_id",
                      JStr (Deploy.last_segment_from "/hostedzone/ZEXISTING" ""));
                     ("nameservers", JList [])]), w') /\
    draws w' = draws Sample.zone_exists /\
    trace w' = trace Sample.zone_exists ++
      [Enter "configure_dns";
       Print [JStr "Configuring DNS for "; JStr "project-orc.example.com";
              JStr " pointing to "; JStr "alb.us-west-1.elb.example.com";
              JStr "..."];
       Call "route53" "list_hosted_zones_by_name"
         [("DNSName", JStr "project-orc.example.com")]
         (inr (dict [("HostedZones", JList [Sample.existing_zone])]));
       Call "route53" "change_resource_record_sets"
         [("HostedZoneId",
           JStr (Deploy.last_segment_from "/hostedzone/ZEXISTING" ""));
          ("ChangeBatch",
           dict [("Changes",
                  JList [Deploy.alias_record "project-orc.example.com"
                           (JStr "alb.us-west-1.elb.example.com");
                         Deploy.alias_record
                           ("www." +:+ "project-orc.example.com")
                           (JStr "alb.us-west-1.elb.example.com")])])]
         (inr (Sample.response 3));
       Print [JStr "DNS records created/updated for ";
              JStr "project-orc.example.com";
              JStr " and www."; JStr "project-orc.example.com"];
       Leave "configure_dns"
         (dict [("domain_name", JStr "project-orc.example.com");
                ("hosted_zone_id",
                 JStr (Deploy.last_segment_from "/hostedzone/ZEXISTING" ""));
                ("nameservers", JList [])])].
Proof.
  apply (configure_dns_reuses_listed_zone "project-orc.example.com"
           (JStr "alb.us-west-1.elb.example.com") Sample.zone_exists
           (dict [("HostedZones", JList [Sample.existing_zone])])
           (JList [Sample.existing_zone]) [Sample.existing_zone]
           Sample.existing_zone "/hostedzone/ZEXISTING"
           (Sample.response 3) (dict []) (JList []));
    vm_compute; reflexivity.
Defined.

(** X16.  When Route 53 lists no hosted zone named like the domain,
    [configure_dns] creates one, with a caller reference drawn for the
    call, and changes the record sets in the zone it has just created. *)
Theorem configure_dns_creates_missing_zone domain_name alb_dns w
    response hosted_zones zones created zone zone_id changed delegation_set
    nameservers :
  kill_after w = None ->
  (forall history kwargs,
     cloud w history "route53" "list_hosted_zones_by_name" kwargs
     = inr response) ->
  getitem response "HostedZones" = inr hosted_zones ->
  iterate hosted_zones = inr zones ->
  Deploy.find_zone zones domain_name = inr None ->
  (forall history kwargs,
     cloud w history "route53" "create_hosted_zone" kwargs = inr created) ->
  getitem created "HostedZone" = inr zone ->
  getitem zone "Id" = inr (JStr zone_id) ->
  (forall history kwargs,
     cloud w history "route53" "change_resource_record_sets" kwargs
     = inr changed) ->
  Deploy.get_or zone "DelegationSet" (dict []) = inr delegation_set ->
  Deploy.get_or delegation_set "NameServers" (JList []) = inr nameservers ->
  exists w' reference,
    Deploy.configure_dns domain_name alb_dns w
    = (Return (dict [("domain_name", JStr domain_name);
                     ("hosted_zone_id",
                      JStr (Deploy.last_segment_from zone_id ""));
                     ("nameservers", nameservers)]), w') /\
    uuid4_str w = (Return reference, drew w) /\
    draws w' = S (draws w) /\
    trace w' = trace w ++
      [Enter "configure_dns";
       Print [JStr "Configuring DNS for "; JStr domain_name;
              JStr " pointing to "; alb_dns; JStr "..."];
       Call "route53" "list_hosted_zones_by_name"
         [("DNSName", JStr domain_name)] (inr response);
       Call "route53" "create_hosted_zone"
         [("Name", JStr domain_name); ("CallerReference", JStr reference);
          ("HostedZoneConfig",
           dict [("Comment", JStr ("Hosted zone for " +:+ domain_name));
                 ("PrivateZone", JBool false)])]
         (inr created);
       Print [JStr "Created new hosted zone for "; JStr domain_name];
       Call "route53" "change_resource_record_sets"
         [("HostedZoneId", JStr (Deploy.last_segment_from zone_id ""));
          ("ChangeBatch",
           dict [("Changes",
                  JList [Deploy.alias_record domain_name alb_dns;
                         Deploy.alias_record ("www." +:+ domain_name)
                           alb_dns])])]
         (inr changed);
       Print [JStr "DNS records created/updated for "; JStr domain_name;
              JStr " and www."; JStr domain_name];
       Leave "configure_dns"
         (dict [("domain_name", JStr domain_name);
                ("hosted_zone_id",
                 JStr (Deploy.last_segment_from zone_id ""));
                ("nameservers", nameservers)])].
Proof.
  intros Hk Hl Hz Hi Hf Hcr Hzn Hid Hc Hd Hn. do 2 eexists.
  split; [|split; [|split]].
  - unfold Deploy.configure_dns, def, try_except, try_catch,
      Deploy.configure_dns_try, uuid4_str, uuid4_hex, bind, call, print,
      effect, tick, idx, lift.
    repeat (cbv delta [ret raise]; cbn beta iota;
            cbn [kill_after logs drew trace cloud globals files draws entropy
                 Deploy.last_segment];
            first [rewrite Hk | rewrite Hl | rewrite Hz | rewrite Hi
                  | rewrite Hf | rewrite Hcr | rewrite Hzn | rewrite Hid
                  | rewrite Hc | rewrite Hd | rewrite Hn]).
    reflexivity.
  - reflexivity.
  - reflexivity.
  - cbn [trace logs drew]. rewrite <- !app_assoc. reflexivity.
Qed.

Lemma configure_dns_creates_missing_zone_witness :
  exists w' reference,
    Deploy.configure_dns "project-orc.example.com"
      (JStr "alb.us-west-1.elb.example.com") Sample.steady
    = (Return (dict [("domain_name", JStr "project-orc.example.com");
                     ("hosted_zone_id",
                      JStr (Deploy.last_segment_from
                              "/hostedzone/Z0123456789" ""));
                     ("nameservers", JList [])]), w') /\
    uuid4_str Sample.steady = (Return reference, drew Sample.steady) /\
    draws w' = S (draws Sample.steady) /\
    trace w' = trace Sample.steady ++
      [Enter "configure_dns";
       Print [JStr "Configuring DNS for "; JStr "project-orc.example.com";
              JStr " pointing to "; JStr "alb.us-west-1.elb.example.com";
              JStr "..."];
       Call "route53" "list_hosted_zones_by_name"
         [("DNSName", JStr "project-orc.example.com")]
         (inr (Sample.response 0));
       Call "route53" "create_hosted_zone"
         [("Name", JStr "project-orc.example.com");
          ("CallerReference", JStr reference);
          ("HostedZoneConfig",
           dict [("Comment",
                  JStr ("Hosted zone for " +:+ "project-orc.example.com"));
                 ("PrivateZone", JBool false)])]
         (inr (Sample.response 0));
       Print [JStr "Created new hosted zone for ";
              JStr "project-orc.example.com"];
       Call "route53" "change_resource_record_sets"
         [("HostedZoneId",
           JStr (Deploy.last_segment_from "/hostedzone/Z0123456789" ""));
          ("ChangeBatch",
           dict [("Changes",
                  JList [Deploy.alias_record "project-orc.example.com"
                           (JStr "alb.us-west-1.elb.example.com");
                         Deploy.alias_record
                           ("www." +:+ "project-orc.example.com")
                           (JStr "alb.us-west-1.elb.example.com")])])]
         (inr (Sample.response 0));
       Print [JStr "DNS records created/updated for ";
              JStr "project-orc.example.com";
              JStr " and www."; JStr "project-orc.example.com"];
       Leave "configure_dns"
         (dict [("domain_name", JStr "project-orc.example.com");
                ("hosted_zone_id",
                 JStr (Deploy.last_segment_from
                         "/hostedzone/Z0123456789" ""));
                ("nameservers", JList [])])].
Proof.
  apply (configure_dns_creates_missing_zone "project-orc.example.com"
           (JStr "alb.us-west-1.elb.example.com") Sample.steady
           (Sample.response 0) (JList []) [] (Sample.response 0)
           (dict [("Id", JStr "/hostedzone/Z0123456789")])
           "/hostedzone/Z0123456789" (Sample.response 0) (dict [])
           (JList []));
    vm_compute; reflexivity.
Defined.

Lemma Iac_stages_keep_off_files_and_globals_witness :
  files (Iac.create_vpc Sample.fresh).2 = files Sample.fresh /\
  globals (Iac.create_vpc Sample.fresh).2 = globals Sample.fresh /\
  exists evs,
    trace (Iac.create_vpc Sample.fresh).2 = trace Sample.fresh ++ evs /\
    file_events evs = [].
Proof.
  apply (proj1 Iac_stages_keep_off_files_and_globals Sample.fresh
           (Iac.create_vpc Sample.fresh).1).
  apply surjective_pairing.
Defined.

Lemma Deploy_stages_keep_off_files_and_globals_witness :
  files (Deploy.create_lambda_functions Sample.fresh).2 = files Sample.fresh /\
  globals (Deploy.create_lambda_functions Sample.fresh).2
  = globals Sample.fresh /\
  exists evs,
    trace (Deploy.create_lambda_functions Sample.fresh).2
    = trace Sample.fresh ++ evs /\
    file_events evs = [].
Proof.
  apply (proj2 (proj2 (proj2 (proj2 Deploy_stages_keep_off_files_and_globals)))
           Sample.fresh (Deploy.create_lambda_functions Sample.fresh).1).
  apply surjective_pairing.
Defined.
